(** * Marketplace synthetic-data generator (scripts/generatedata.py)

    A shallow embedding of the generator script and the properties its
    specification states about it.

    The script is a straight line of Python: it seeds the [random] module,
    builds four lists of dicts in four [for] loops, turns them into pandas
    DataFrames, writes four CSV files and then, inside one [try]/[except],
    appends the four frames to a PostgreSQL database.

    Modelling decisions.
    - Python [int] is [Z]; a [datetime.date] is its proleptic ordinal ([Z]);
      a naive [datetime] is a date and the microseconds since midnight.
    - A Python [float] is the exact rational value of a finite binary64
      number.  An operation is the exact operation followed by a rounding
      [rnd]; the theorems hold for every [rnd] of class [Binary64], that
      is, monotone and leaving binary64 numbers unchanged.  [b64_round],
      round to nearest with ties to even on 53 bits, is proved to be one
      ([IEEE754]) and is the rounding of the concrete runs.
    - The samplers of the [random] module and of Faker are not part of the
      repository.  They are the fields of class [RandomLib], with their
      documented range contracts as laws.  Two generator states exist at run
      time: the one of the [random] module (seeded by the script) and the one
      Faker owns (never seeded by the script).
    - Everything the script can observe or change lives in [World]; the
      outside (clock, disk and database failures) is the read-only [Env].
      Exceptions are an outcome of the monad [M], and the world survives
      them, as in Python. *)

From Stdlib Require Import ZArith QArith Qround Qpower Lia Lqa Ascii.
From stdpp Require Import base tactics option list strings gmap pretty.

Local Open Scope Z_scope.

(** ** Python values *)

(** [amount] holds an [int] on one branch and a [float] on the other. *)
Inductive pynum :=
  | PyInt (n : Z)
  | PyFloat (x : Q).

(** A value stored in a DataFrame cell. *)
Inductive cell :=
  | CInt (n : Z)
  | CFloat (x : Q)
  | CDate (d : Z)
  | CStr (s : string).

Definition date := Z.

Record datetime := mk_datetime {
  dt_date : date;      (* the calendar day *)
  dt_micros : Z        (* microseconds since midnight *)
}.

(** [dt - timedelta(days=n)] *)
Definition datetime_sub_days (dt : datetime) (n : Z) : datetime :=
  {| dt_date := dt_date dt - n; dt_micros := dt_micros dt |}.

(** [dt.date()] *)
Definition datetime_date (dt : datetime) : date := dt_date dt.

(** [pd.to_datetime(d)] for a [datetime.date]: midnight of that day. *)
Definition pd_to_datetime (d : date) : datetime :=
  {| dt_date := d; dt_micros := 0 |}.

(** [a <= b] on naive datetimes. *)
Definition datetime_le (a b : datetime) : Prop :=
  dt_date a < dt_date b ∨ (dt_date a = dt_date b ∧ dt_micros a ≤ dt_micros b).

Inductive exn :=
  | ValueError (msg : string)
  | IndexError (msg : string)
  | KeyError (key : string)
  | OSError (msg : string)
  | ImportError (msg : string)
  | OperationalError (msg : string).

(** [str(e)] *)
Definition exn_str (e : exn) : string :=
  match e with
  | ValueError m | IndexError m | OSError m | ImportError m
  | OperationalError m => m
  | KeyError k => "'" +:+ k +:+ "'"
  end.

Inductive outcome (A : Type) :=
  | Ok (a : A)
  | Raise (e : exn).
Arguments Ok {A} a.
Arguments Raise {A} e.

(** ** binary64 arithmetic *)

(** Nearest integer, ties to the even one. *)
Definition round_half_even (x : Q) : Z :=
  let f := Qfloor x in
  match (x - inject_Z f ?= 1 # 2)%Q with
  | Lt => f
  | Gt => f + 1
  | Eq => if Z.even f then f else f + 1
  end.

(** The [k] with [2^k <= a < 2^(k+1)], for [a > 0]. *)
Definition floor_log2 (a : Q) : Z :=
  let k := Z.log2 (Qnum a) - Z.log2 (Zpos (Qden a)) in
  if Qle_bool (2 ^ k) a then k else k - 1.

(** The exponent of the last place of the binary64 numbers around [a]:
    53 significant bits, and no exponent below the subnormal -1074. *)
Definition ulp_exp (a : Q) : Z := Z.max (floor_log2 a - 52) (-1074).

Definition b64_round_pos (a : Q) : Q :=
  (inject_Z (round_half_even (a / 2 ^ ulp_exp a)) * 2 ^ ulp_exp a)%Q.

(** Round to nearest, ties to even, onto the binary64 numbers.  Overflow
    to infinity is left out: the script stays below 10^7. *)
Definition b64_round (x : Q) : Q :=
  match Qnum x with
  | Z0 => 0%Q
  | Zpos _ => b64_round_pos x
  | Zneg _ => (- b64_round_pos (- x))%Q
  end.

(** What the proofs use of rounding to nearest: it is monotone, and it
    leaves binary64 numbers unchanged.  [rnd_exact]: [m * 2^e] with
    [|m| <= 2^53] and [-1074 <= e <= 970] is a binary64 number. *)
Class Binary64 := {
  rnd : Q → Q;
  rnd_mono : ∀ x y : Q, (x <= y)%Q → (rnd x <= rnd y)%Q;
  rnd_exact : ∀ m e : Z,
    Z.abs m ≤ 2 ^ 53 → -1074 ≤ e ≤ 970 →
    (rnd (inject_Z m * 2 ^ e) == inject_Z m * 2 ^ e)%Q
}.

Section Floats.
Context `{Binary64}.

(** [float(n)] *)
Definition float_of_int (n : Z) : Q := rnd (inject_Z n).

(** A decimal literal such as [1.3]. *)
Definition float_lit (q : Q) : Q := rnd q.

(** [x * y] on floats *)
Definition fmul (x y : Q) : Q := rnd (x * y).

(** [round(x, ndigits)] on a float: the exact value is rounded (half to
    even) to [ndigits] decimals and the decimal is converted back. *)
Definition float_round (x : Q) (ndigits : N) : Q :=
  let p := inject_Z (10 ^ Z.of_N ndigits) in
  rnd (inject_Z (round_half_even (x * p)) / p).

(** [round(v, ndigits)]: an [int] is returned unchanged for
    [ndigits >= 0]. *)
Definition py_round (v : pynum) (ndigits : N) : pynum :=
  match v with
  | PyInt n => PyInt n
  | PyFloat x => PyFloat (float_round x ndigits)
  end.

Definition cell_of_pynum (v : pynum) : cell :=
  match v with
  | PyInt n => CInt n
  | PyFloat x => CFloat x
  end.
End Floats.

(** ** The random libraries *)

(** [rng] is the state of one [random.Random] generator.  A sampler
    returns [None] when it raises. *)
Class RandomLib := {
  rng : Type;
  (** [random.seed(n)] *)
  seed : Z → rng;
  (** [random.randint(a, b)] *)
  randint : Z → Z → rng → option (Z * rng);
  (** [random.choices(population, weights=w)] with the default [k=1] *)
  choices : ∀ {A : Type}, list A → list Z → rng → option (list A * rng);
  (** [random.choice(seq)] *)
  choice : ∀ {A : Type}, list A → rng → option (A * rng);
  (** [random.uniform(a, b)] *)
  uniform : Q → Q → rng → option (Q * rng);
  (** Faker's [date_between(start, end)] on two dates *)
  date_between : date → date → rng → option (date * rng);

  randint_spec : ∀ a b s, a ≤ b →
    ∃ r s', randint a b s = Some (r, s') ∧ a ≤ r ≤ b;
  choices_spec : ∀ (A : Type) (pop : list A) (ws : list Z) s,
    pop ≠ [] → length ws = length pop →
    Forall (λ w, 0 ≤ w) ws → 0 < foldr Z.add 0 ws →
    ∃ x s', choices pop ws s = Some ([x], s') ∧ x ∈ pop;
  choice_spec : ∀ (A : Type) (l : list A) s, l ≠ [] →
    ∃ x s', choice l s = Some (x, s') ∧ x ∈ l;
  uniform_spec : ∀ a b s, (a <= b)%Q →
    ∃ r s', uniform a b s = Some (r, s') ∧ (a <= r)%Q ∧ (r <= b)%Q;
  date_between_spec : ∀ a b s, a ≤ b →
    ∃ r s', date_between a b s = Some (r, s') ∧ a ≤ r ≤ b
}.

(** ** Rows of the four tables *)

Module User.
Record row := mk {
  user_id : Z;
  signup_date : date;
  emirate : string;
  user_type : string
}.
Definition to_dict (r : row) : list (string * cell) :=
  [("user_id", CInt (user_id r));
   ("signup_date", CDate (signup_date r));
   ("emirate", CStr (emirate r));
   ("user_type", CStr (user_type r))].
End User.

Module Listing.
Record row := mk {
  listing_id : Z;
  user_id : Z;
  category : string;
  emirate : string;
  price : Q;
  created_date : date;
  status : string
}.
Definition to_dict (r : row) : list (string * cell) :=
  [("listing_id", CInt (listing_id r));
   ("user_id", CInt (user_id r));
   ("category", CStr (category r));
   ("emirate", CStr (emirate r));
   ("price", CFloat (price r));
   ("created_date", CDate (created_date r));
   ("status", CStr (status r))].
End Listing.

Module Lead.
Record row := mk {
  lead_id : Z;
  listing_id : Z;
  user_id : Z;
  lead_date : date
}.
Definition to_dict (r : row) : list (string * cell) :=
  [("lead_id", CInt (lead_id r));
   ("listing_id", CInt (listing_id r));
   ("user_id", CInt (user_id r));
   ("lead_date", CDate (lead_date r))].
End Lead.

Module Transaction.
Record row := mk {
  transaction_id : Z;
  user_id : Z;
  amount : pynum;
  transaction_date : date;
  transaction_type : string
}.
Definition to_dict (r : row) : list (string * cell) :=
  [("transaction_id", CInt (transaction_id r));
   ("user_id", CInt (user_id r));
   ("amount", cell_of_pynum (amount r));
   ("transaction_date", CDate (transaction_date r));
   ("transaction_type", CStr (transaction_type r))].
End Transaction.

(** A DataFrame built from a list of dicts. *)
Record DataFrame := mk_frame {
  columns : list string;
  values : list (list cell)
}.

Record Tables := mk_tables {
  users_data : list User.row;
  listings_data : list Listing.row;
  leads_data : list Lead.row;
  transactions_data : list Transaction.row
}.

(** ** Configuration and environment *)

Record Config := mk_config {
  SEED : Z;
  NUM_USERS : Z;
  NUM_LISTINGS : Z;
  NUM_LEADS : Z;
  NUM_TRANSACTIONS : Z
}.

Definition default_config : Config :=
  {| SEED := 42;
     NUM_USERS := 5000;
     NUM_LISTINGS := 8000;
     NUM_LEADS := 15000;
     NUM_TRANSACTIONS := 2000 |}.

Definition EMIRATES : list string :=
  ["Dubai"; "Abu Dhabi"; "Sharjah"; "Ajman"; "Ras Al Khaimah"; "Fujairah";
   "Umm Al Quwain"].

Definition CATEGORIES : list string :=
  ["Apartments"; "Villas"; "Townhouses"; "Penthouses"; "Commercial"; "Land"].

Definition USER_TYPES : list string := ["buyer"; "seller"; "agent"].

Definition DB_HOST : string := "localhost".
Definition DB_PORT : string := "5433".
Definition DB_NAME : string := "bayut_marketplace".
Definition DB_USER : string := "postgres".
Definition DB_PASSWORD : string := "admin".

(** What the script reads from outside: two clock readings and, for every
    file and table it writes, whether that write fails and with which
    message. *)
Record Env := mk_env {
  now_start : datetime;                 (* datetime.now() of START_DATE *)
  now_end : datetime;                   (* datetime.now() of END_DATE *)
  csv_failure : string → option string;
  engine_failure : option string;
  sql_failure : string → option string
}.

Definition START_DATE (env : Env) : datetime :=
  datetime_sub_days (now_start env) 730.
Definition END_DATE (env : Env) : datetime := now_end env.

Inductive if_exists_mode := if_exists_fail | if_exists_replace | if_exists_append.

Inductive event :=
  | EvPrint (line : string)
  | EvToCsv (path : string)
  | EvToSql (table : string).

Definition newline : string := String (Ascii.ascii_of_nat 10) "".

(** ["=" * n] *)
Fixpoint str_repeat (s : string) (n : nat) : string :=
  match n with
  | O => ""
  | S n' => s +:+ str_repeat s n'
  end.

Fixpoint group_thousands (rev_digits : list Ascii.ascii) : list Ascii.ascii :=
  match rev_digits with
  | a :: b :: c :: ((_ :: _) as rest) =>
      a :: b :: c :: ","%char :: group_thousands rest
  | l => l
  end.

(** [f"{n:,}"] *)
Definition format_comma (n : Z) : string :=
  (if n <? 0 then "-" else "") +:+
  String.string_of_list_ascii
    (rev (group_thousands (rev (String.list_ascii_of_string (pretty (Z.abs n)))))).


(** ** The world of a run and the monad of the script *)

Section Script.
Context `{Binary64} `{RandomLib}.

Record World := mk_world {
  w_random : rng;                          (* generator of the random module *)
  w_faker : rng;                           (* generator owned by Faker *)
  w_files : gmap string DataFrame;         (* CSV files of the working directory *)
  w_store : gmap string (list (list cell)); (* rows of the database tables *)
  w_log : list event                       (* what happened, oldest first *)
}.

Definition M (A : Type) : Type := World → outcome A * World.

#[export] Instance M_ret : MRet M := λ A a w, (Ok a, w).

#[export] Instance M_bind : MBind M := λ A B k m w,
  match m w with
  | (Ok a, w') => k a w'
  | (Raise e, w') => (Raise e, w')
  end.

Definition raise {A} (e : exn) : M A := λ w, (Raise e, w).

(** [try: body except Exception as e: handler(e)]; every member of [exn]
    is a subclass of [Exception]. *)
Definition try_except {A} (body : M A) (handler : exn → M A) : M A := λ w,
  match body w with
  | (Ok a, w') => (Ok a, w')
  | (Raise e, w') => handler e w'
  end.

Definition log_event (ev : event) : M unit := λ w,
  (Ok tt, {| w_random := w_random w; w_faker := w_faker w;
             w_files := w_files w; w_store := w_store w;
             w_log := w_log w ++ [ev] |}).

Definition print (line : string) : M unit := log_event (EvPrint line).

(** A sampler of the [random] module, run on the module's generator. *)
Definition with_random {A} (f : rng → option (A * rng)) : M A := λ w,
  match f (w_random w) with
  | Some (a, s) =>
      (Ok a, {| w_random := s; w_faker := w_faker w; w_files := w_files w;
                w_store := w_store w; w_log := w_log w |})
  | None => (Raise (ValueError "raised by the random module"), w)
  end.

(** A Faker provider, run on Faker's own generator. *)
Definition with_faker {A} (f : rng → option (A * rng)) : M A := λ w,
  match f (w_faker w) with
  | Some (a, s) =>
      (Ok a, {| w_random := w_random w; w_faker := s; w_files := w_files w;
                w_store := w_store w; w_log := w_log w |})
  | None => (Raise (ValueError "raised by Faker"), w)
  end.

(** [random.seed(n)] *)
Definition random_seed (n : Z) : M unit := λ w,
  (Ok tt, {| w_random := seed n; w_faker := w_faker w; w_files := w_files w;
             w_store := w_store w; w_log := w_log w |}).

(** [fake.date_between(start_date=a, end_date=b)] with datetime
    arguments: Faker takes [.date()] of each. *)
Definition fake_date_between (a b : datetime) : M date :=
  with_faker (date_between (datetime_date a) (datetime_date b)).

(** [xs[0]] *)
Definition item0 {A} (xs : list A) : M A :=
  match xs with
  | x :: _ => mret x
  | [] => raise (IndexError "index 0 is out of bounds")
  end.

(** [d[k]] on a dict literal *)
Definition dict_get {V} (d : gmap string V) (k : string) : M V :=
  match d !! k with
  | Some v => mret v
  | None => raise (KeyError k)
  end.

(** [range(a, b)] *)
Definition range (a b : Z) : list Z := seqZ a (b - a).

(** [out = []; for i in l: ...; out.append(row)] *)
Fixpoint for_each {A B} (body : A → M B) (l : list A) : M (list B) :=
  match l with
  | [] => mret []
  | i :: l' =>
      row ← body i;
      rows ← for_each body l';
      mret (row :: rows)
  end.

(** *** Step 5: users *)

Definition gen_user (env : Env) (i : Z) : M User.row :=
  signup_date ← fake_date_between (START_DATE env) (END_DATE env);
  emirate ← with_random (choices EMIRATES [40; 25; 15; 5; 5; 5; 5]) ≫= item0;
  user_type ← with_random (choices USER_TYPES [50; 30; 20]) ≫= item0;
  mret {| User.user_id := i;
          User.signup_date := signup_date;
          User.emirate := emirate;
          User.user_type := user_type |}.

(** *** Step 6: listings *)

Definition base_price_table : gmap string Z :=
  list_to_map
    [("Apartments", 800000); ("Villas", 2500000); ("Townhouses", 1800000);
     ("Penthouses", 5000000); ("Commercial", 1500000); ("Land", 1000000)].

Definition emirate_multiplier_table : gmap string Q :=
  list_to_map
    [("Dubai", float_lit (13 # 10)); ("Abu Dhabi", float_lit (12 # 10));
     ("Sharjah", float_lit (8 # 10)); ("Ajman", float_lit (6 # 10));
     ("Ras Al Khaimah", float_lit (7 # 10));
     ("Fujairah", float_lit (6 # 10));
     ("Umm Al Quwain", float_lit (5 # 10))].

Definition gen_listing (cfg : Config) (env : Env) (i : Z) : M Listing.row :=
  user_id ← with_random (randint 1 (NUM_USERS cfg));
  category ← with_random (choices CATEGORIES [35; 25; 15; 10; 10; 5]) ≫= item0;
  emirate ← with_random (choices EMIRATES [40; 25; 15; 5; 5; 5; 5]) ≫= item0;
  base_price ← dict_get base_price_table category;
  emirate_multiplier ← dict_get emirate_multiplier_table emirate;
  u ← with_random (uniform (float_lit (7 # 10)) (float_lit (15 # 10)));
  let price := fmul (fmul (float_of_int base_price) emirate_multiplier) u in
  created_date ← fake_date_between (START_DATE env) (END_DATE env);
  status ← with_random (choices ["active"; "sold"; "expired"] [60; 25; 15]) ≫= item0;
  mret {| Listing.listing_id := i;
          Listing.user_id := user_id;
          Listing.category := category;
          Listing.emirate := emirate;
          Listing.price := float_round price 2;
          Listing.created_date := created_date;
          Listing.status := status |}.

(** *** Step 7: leads *)

(** [listings_df[listings_df['listing_id'] == listing_id]['created_date'].values] *)
Definition created_dates_of (listings_df : list Listing.row) (listing_id : Z)
    : list date :=
  Listing.created_date <$>
    filter (λ r, Listing.listing_id r = listing_id) listings_df.

Definition gen_lead (cfg : Config) (env : Env)
    (listings_df : list Listing.row) (i : Z) : M Lead.row :=
  listing_id ← with_random (randint 1 (NUM_LISTINGS cfg));
  user_id ← with_random (randint 1 (NUM_USERS cfg));
  listing_created ← item0 (created_dates_of listings_df listing_id);
  lead_date ← fake_date_between (pd_to_datetime listing_created) (END_DATE env);
  mret {| Lead.lead_id := i;
          Lead.listing_id := listing_id;
          Lead.user_id := user_id;
          Lead.lead_date := lead_date |}.

(** *** Step 8: transactions *)

Definition gen_transaction (cfg : Config) (env : Env) (i : Z)
    : M Transaction.row :=
  user_id ← with_random (randint 1 (NUM_USERS cfg));
  transaction_type ←
    with_random (choices ["subscription"; "featured_listing"] [60; 40]) ≫= item0;
  amount ←
    (if decide (transaction_type = "subscription")
     then n ← with_random (choice [500; 1000; 2000; 5000]); mret (PyInt n)
     else x ← with_random (uniform (float_of_int 100) (float_of_int 500));
          mret (PyFloat x));
  transaction_date ← fake_date_between (START_DATE env) (END_DATE env);
  mret {| Transaction.transaction_id := i;
          Transaction.user_id := user_id;
          Transaction.amount := py_round amount 2;
          Transaction.transaction_date := transaction_date;
          Transaction.transaction_type := transaction_type |}.

(** *** DataFrames *)

(** Does column [j] hold a float in some row? *)
Definition column_has_float (rows : list (list cell)) (j : nat) : bool :=
  existsb (λ r, match r !! j with Some (CFloat _) => true | _ => false end) rows.

(** pandas gives a column of ints and floats the dtype float64. *)
Definition upcast_cell (has_float : bool) (c : cell) : cell :=
  match c with
  | CInt n => if has_float then CFloat (float_of_int n) else c
  | _ => c
  end.

(** [pd.DataFrame(dicts)]: the columns are the keys of the dicts (all
    dicts of one table have the same keys); no dict, no column. *)
Definition pd_DataFrame (dicts : list (list (string * cell))) : DataFrame :=
  let raw := (λ d, d.*2) <$> dicts in
  {| columns := match dicts with [] => [] | d :: _ => d.*1 end;
     values := (λ r, imap (λ j c, upcast_cell (column_has_float raw j) c) r) <$> raw |}.

(** [len(df)] *)
Definition len (df : DataFrame) : Z := Z.of_nat (length (values df)).

Definition users_df (t : Tables) : DataFrame :=
  pd_DataFrame (User.to_dict <$> users_data t).
Definition listings_df (t : Tables) : DataFrame :=
  pd_DataFrame (Listing.to_dict <$> listings_data t).
Definition leads_df (t : Tables) : DataFrame :=
  pd_DataFrame (Lead.to_dict <$> leads_data t).
Definition transactions_df (t : Tables) : DataFrame :=
  pd_DataFrame (Transaction.to_dict <$> transactions_data t).

(** *** Steps 2 to 8: the four tables *)

Definition generate (cfg : Config) (env : Env) : M Tables :=
  random_seed (SEED cfg);;
  print "🚀 Starting Bayut Marketplace Data Generation";;
  print (str_repeat "=" 70);;
  print (newline +:+ "📊 STEP 1/4: Generating Users...");;
  users ← for_each (gen_user env) (range 1 (NUM_USERS cfg + 1));
  print ("✅ Generated " +:+
         format_comma (len (pd_DataFrame (User.to_dict <$> users))) +:+ " users");;
  print (newline +:+ "📊 STEP 2/4: Generating Listings...");;
  listings ← for_each (gen_listing cfg env) (range 1 (NUM_LISTINGS cfg + 1));
  print ("✅ Generated " +:+
         format_comma (len (pd_DataFrame (Listing.to_dict <$> listings))) +:+
         " listings");;
  print (newline +:+ "📊 STEP 3/4: Generating Leads...");;
  leads ← for_each (gen_lead cfg env listings) (range 1 (NUM_LEADS cfg + 1));
  print ("✅ Generated " +:+
         format_comma (len (pd_DataFrame (Lead.to_dict <$> leads))) +:+ " leads");;
  print (newline +:+ "📊 STEP 4/4: Generating Transactions...");;
  transactions ←
    for_each (gen_transaction cfg env) (range 1 (NUM_TRANSACTIONS cfg + 1));
  print ("✅ Generated " +:+
         format_comma (len (pd_DataFrame (Transaction.to_dict <$> transactions))) +:+
         " transactions");;
  mret {| users_data := users; listings_data := listings;
          leads_data := leads; transactions_data := transactions |}.

(** *** Step 9: CSV files *)

(** [df.to_csv(path, index=False)]: the file is created or overwritten
    with a header line (the column names) and one line per row. *)
Definition to_csv (env : Env) (df : DataFrame) (path : string) : M unit := λ w,
  match csv_failure env path with
  | Some msg => (Raise (OSError msg), w)
  | None =>
      (Ok tt, {| w_random := w_random w; w_faker := w_faker w;
                 w_files := <[path := df]> (w_files w);
                 w_store := w_store w;
                 w_log := w_log w ++ [EvToCsv path] |})
  end.

Definition save_csv (env : Env) (t : Tables) : M unit :=
  print (newline +:+ "💾 Saving backup CSV files...");;
  to_csv env (users_df t) "users.csv";;
  to_csv env (listings_df t) "listings.csv";;
  to_csv env (leads_df t) "leads.csv";;
  to_csv env (transactions_df t) "transactions.csv";;
  print "✅ CSV files saved successfully".

(** *** Step 10: PostgreSQL *)

(** [create_engine(url)]: no connection is opened yet. *)
Definition create_engine (env : Env) (url : string) : M string :=
  match engine_failure env with
  | Some msg => raise (ImportError msg)
  | None => mret url
  end.

(** [df.to_sql(table, engine, if_exists=mode, index=False)]: one
    transaction per call; a failed call leaves the table as it was. *)
Definition to_sql (env : Env) (df : DataFrame) (table : string)
    (engine : string) (mode : if_exists_mode) : M unit := λ w,
  let attempted (store : gmap string (list (list cell))) :=
    {| w_random := w_random w; w_faker := w_faker w; w_files := w_files w;
       w_store := store; w_log := w_log w ++ [EvToSql table] |} in
  match sql_failure env table with
  | Some msg => (Raise (OperationalError msg), attempted (w_store w))
  | None =>
      match w_store w !! table with
      | None => (Ok tt, attempted (<[table := values df]> (w_store w)))
      | Some old =>
          match mode with
          | if_exists_fail =>
              (Raise (ValueError ("Table '" +:+ table +:+ "' already exists.")),
               attempted (w_store w))
          | if_exists_replace =>
              (Ok tt, attempted (<[table := values df]> (w_store w)))
          | if_exists_append =>
              (Ok tt, attempted (<[table := old ++ values df]> (w_store w)))
          end
      end
  end.

Definition load_body (env : Env) (t : Tables) : M unit :=
  let connection_string :=
    "postgresql://" +:+ DB_USER +:+ ":" +:+ DB_PASSWORD +:+ "@" +:+ DB_HOST +:+
    ":" +:+ DB_PORT +:+ "/" +:+ DB_NAME in
  engine ← create_engine env connection_string;
  print ("🔌 Connecting to: " +:+ DB_HOST +:+ ":" +:+ DB_PORT +:+ "/" +:+ DB_NAME);;
  to_sql env (users_df t) "users" engine if_exists_append;;
  print "✅ Users table loaded";;
  to_sql env (listings_df t) "listings" engine if_exists_append;;
  print "✅ Listings table loaded";;
  to_sql env (leads_df t) "leads" engine if_exists_append;;
  print "✅ Leads table loaded";;
  to_sql env (transactions_df t) "transactions" engine if_exists_append;;
  print "✅ Transactions table loaded";;
  print (newline +:+ str_repeat "=" 70);;
  print "🎉 SUCCESS! All data loaded to PostgreSQL";;
  print (str_repeat "=" 70);;
  print (newline +:+ "📊 Data Summary:");;
  print ("   Users:        " +:+ format_comma (len (users_df t)) +:+ " records");;
  print ("   Listings:     " +:+ format_comma (len (listings_df t)) +:+ " records");;
  print ("   Leads:        " +:+ format_comma (len (leads_df t)) +:+ " records");;
  print ("   Transactions: " +:+ format_comma (len (transactions_df t)) +:+ " records");;
  print (newline +:+ "📁 Files Created:");;
  print "   ✅ users.csv";;
  print "   ✅ listings.csv";;
  print "   ✅ leads.csv";;
  print "   ✅ transactions.csv";;
  print (newline +:+ "💡 Next Steps:");;
  print "   1. Open pgAdmin and verify data";;
  print "   2. Run SQL queries to analyze data";;
  print "   3. Connect Power BI to PostgreSQL";;
  print "   4. Build your dashboard!".

Definition load_handler (e : exn) : M unit :=
  print (newline +:+ str_repeat "=" 70);;
  print "❌ Error connecting to PostgreSQL";;
  print (str_repeat "=" 70);;
  print (newline +:+ "Error message: " +:+ exn_str e);;
  print (newline +:+ "💡 Possible issues:");;
  print "   1. Wrong password - update DB_PASSWORD in the script";;
  print "   2. Database doesn't exist - create 'bayut_marketplace' first";;
  print "   3. PostgreSQL not running - check if service is running";;
  print (newline +:+ "✅ Good news: CSV files are still saved!");;
  print "   You can import them manually into PostgreSQL".

Definition load_postgres (env : Env) (t : Tables) : M unit :=
  print (newline +:+ "📤 Connecting to PostgreSQL and loading data...");;
  try_except (load_body env t) load_handler.

(** *** The whole script *)

Definition main (cfg : Config) (env : Env) : M unit :=
  t ← generate cfg env;
  save_csv env t;;
  load_postgres env t.

(** The exit status of the interpreter: 0 when the script runs to its
    end, 1 when an exception reaches the top level. *)
Definition run_script (cfg : Config) (env : Env) (w : World) : Z * World :=
  match main cfg env w with
  | (Ok _, w') => (0, w')
  | (Raise _, w') => (1, w')
  end.
End Script.

(** ** Vocabulary of the properties *)

Definition valid_config (cfg : Config) : Prop :=
  1 ≤ NUM_USERS cfg ∧ 1 ≤ NUM_LISTINGS cfg.

(** The clock does not run backwards between its two readings. *)
Definition clock_monotone (env : Env) : Prop :=
  datetime_le (now_start env) (now_end env).

Definition is_print (ev : event) : Prop :=
  match ev with EvPrint _ => True | _ => False end.

Definition is_csv (ev : event) : Prop :=
  match ev with EvToCsv _ => True | _ => False end.

Definition is_sql (ev : event) : Prop :=
  match ev with EvToSql _ => True | _ => False end.

(** The tables [to_sql] was called on, in order. *)
Definition sql_attempts (l : list event) : list string :=
  omap (λ ev, match ev with EvToSql tb => Some tb | _ => None end) l.

(** The lines printed, in order. *)
Definition printed (l : list event) : list string :=
  omap (λ ev, match ev with EvPrint s => Some s | _ => None end) l.

Definition csv_paths : list string :=
  ["users.csv"; "listings.csv"; "leads.csv"; "transactions.csv"].

Definition store_tables : list string :=
  ["users"; "listings"; "leads"; "transactions"].

(** Every row a table had is still there, in place, followed by new rows. *)
Definition store_extends (s s' : gmap string (list (list cell))) : Prop :=
  ∀ tb rows, s !! tb = Some rows → ∃ more, s' !! tb = Some (rows ++ more).

(** In the events [l], whenever [to_sql] is called the four files have
    been written before, and no file is written afterwards. *)
Definition export_precedes_store (l : list event) : Prop :=
  ∀ pre tb post, l = pre ++ EvToSql tb :: post →
    (∀ f, f ∈ csv_paths → EvToCsv f ∈ pre) ∧ (∀ f, EvToCsv f ∉ post).

(** [env] with other outcomes of the database. *)
Definition with_store_outcome (env : Env) (ef : option string)
    (sf : string → option string) : Env :=
  {| now_start := now_start env; now_end := now_end env;
     csv_failure := csv_failure env; engine_failure := ef; sql_failure := sf |}.

Definition store_fails (env : Env) : Prop :=
  engine_failure env ≠ None ∨ ∃ tb, tb ∈ store_tables ∧ sql_failure env tb ≠ None.

(** What a CSV step without failure logs. *)
Definition csv_events : list event :=
  [EvPrint (newline +:+ "💾 Saving backup CSV files...");
   EvToCsv "users.csv"; EvToCsv "listings.csv"; EvToCsv "leads.csv";
   EvToCsv "transactions.csv"; EvPrint "✅ CSV files saved successfully"].

(** The attribute names the data model of the specification (its section
    3) gives to the entity stored in table [tb]. *)
Definition spec_attributes (tb : string) : list string :=
  if decide (tb = "users") then ["id"; "signup_date"; "region"; "role"]
  else if decide (tb = "listings") then
    ["id"; "owner_user_id"; "category"; "region"; "price"; "created_date"; "status"]
  else if decide (tb = "leads") then ["id"; "listing_id"; "user_id"; "lead_date"]
  else if decide (tb = "transactions") then
    ["id"; "user_id"; "amount"; "transaction_date"; "kind"]
  else [].

(** The name the script gives to an attribute of the data model. *)
Definition column_of_attribute (tb attr : string) : string :=
  if decide (attr = "id") then
    (if decide (tb = "users") then "user_id"
     else if decide (tb = "listings") then "listing_id"
     else if decide (tb = "leads") then "lead_id"
     else "transaction_id")
  else if decide (attr = "owner_user_id") then "user_id"
  else if decide (attr = "region") then "emirate"
  else if decide (attr = "role") then "user_type"
  else if decide (attr = "kind") then "transaction_type"
  else attr.

Definition error_banner : string := "❌ Error connecting to PostgreSQL".
Definition success_banner : string := "🎉 SUCCESS! All data loaded to PostgreSQL".

Section Predicates.
Context `{Binary64} `{RandomLib}.

(** [m], started in [w], returns normally with a result and a final
    world that satisfy [Q]. *)
Definition returns {A} (m : M A) (w : World) (Q : A → World → Prop) : Prop :=
  ∃ a w', m w = (Ok a, w') ∧ Q a w'.

(** [w'] differs from [w] by generator states and printed lines only. *)
Definition quiet (w w' : World) : Prop :=
  w_files w' = w_files w ∧ w_store w' = w_store w ∧
  ∃ l, w_log w' = w_log w ++ l ∧ Forall is_print l.

(** From every world [m] returns a result satisfying [P], quietly. *)
Definition gen_ok {A} (m : M A) (P : A → Prop) : Prop :=
  ∀ w, returns m w (λ a w', P a ∧ quiet w w').

(** The rows a loop over [range 1 (n + 1)] may produce. *)
Definition user_ok (env : Env) (i : Z) (r : User.row) : Prop :=
  User.user_id r = i ∧
  datetime_date (START_DATE env) ≤ User.signup_date r ≤ datetime_date (END_DATE env) ∧
  User.emirate r ∈ EMIRATES ∧ User.user_type r ∈ USER_TYPES.

Definition listing_ok (cfg : Config) (env : Env) (i : Z) (r : Listing.row) : Prop :=
  Listing.listing_id r = i ∧
  1 ≤ Listing.user_id r ≤ NUM_USERS cfg ∧
  Listing.category r ∈ CATEGORIES ∧
  Listing.emirate r ∈ EMIRATES ∧
  (∃ base mult u,
     base_price_table !! Listing.category r = Some base ∧
     emirate_multiplier_table !! Listing.emirate r = Some mult ∧
     (float_lit (7 # 10) <= u)%Q ∧ (u <= float_lit (15 # 10))%Q ∧
     Listing.price r = float_round (fmul (fmul (float_of_int base) mult) u) 2) ∧
  datetime_date (START_DATE env) ≤ Listing.created_date r ≤ datetime_date (END_DATE env) ∧
  Listing.status r ∈ ["active"; "sold"; "expired"].

Definition lead_ok (cfg : Config) (env : Env) (listings : list Listing.row)
    (i : Z) (r : Lead.row) : Prop :=
  Lead.lead_id r = i ∧
  1 ≤ Lead.listing_id r ≤ NUM_LISTINGS cfg ∧
  1 ≤ Lead.user_id r ≤ NUM_USERS cfg ∧
  ∃ created,
    head (created_dates_of listings (Lead.listing_id r)) = Some created ∧
    created ≤ Lead.lead_date r ≤ datetime_date (END_DATE env).

Definition transaction_ok (cfg : Config) (env : Env) (i : Z)
    (r : Transaction.row) : Prop :=
  Transaction.transaction_id r = i ∧
  1 ≤ Transaction.user_id r ≤ NUM_USERS cfg ∧
  datetime_date (START_DATE env) ≤ Transaction.transaction_date r
    ≤ datetime_date (END_DATE env) ∧
  ((Transaction.transaction_type r = "subscription" ∧
    ∃ n, n ∈ [500; 1000; 2000; 5000] ∧ Transaction.amount r = PyInt n) ∨
   (Transaction.transaction_type r = "featured_listing" ∧
    ∃ x u, (float_of_int 100 <= u)%Q ∧ (u <= float_of_int 500)%Q ∧
           x = float_round u 2 ∧ Transaction.amount r = PyFloat x)).

Definition tables_ok (cfg : Config) (env : Env) (t : Tables) : Prop :=
  Forall2 (user_ok env) (range 1 (NUM_USERS cfg + 1)) (users_data t) ∧
  Forall2 (listing_ok cfg env) (range 1 (NUM_LISTINGS cfg + 1)) (listings_data t) ∧
  Forall2 (lead_ok cfg env (listings_data t)) (range 1 (NUM_LEADS cfg + 1))
    (leads_data t) ∧
  Forall2 (transaction_ok cfg env) (range 1 (NUM_TRANSACTIONS cfg + 1))
    (transactions_data t).

(** Whatever the outcome of [m], the worlds before and after are
    related by [R]. *)
Definition always {A} (m : M A) (R : World → World → Prop) : Prop :=
  ∀ w, R w (m w).2.

(** What the database step may change: rows are added to the store, the
    log grows, no file is written. *)
Definition load_step (w w' : World) : Prop :=
  w_files w' = w_files w ∧
  store_extends (w_store w) (w_store w') ∧
  ∃ l, w_log w' = w_log w ++ l ∧ Forall (λ ev, ¬ is_csv ev) l.

(** Two worlds in which both generators are in the same state. *)
Definition same_generators (w1 w2 : World) : Prop :=
  w_random w1 = w_random w2 ∧ w_faker w1 = w_faker w2.

(** [m] gives the same outcome from worlds with the same generators, and
    leaves the generators the same. *)
Definition deterministic {A} (m : M A) : Prop :=
  ∀ w1 w2, same_generators w1 w2 →
    (m w1).1 = (m w2).1 ∧ same_generators (m w1).2 (m w2).2.

(** [w] with Faker's generator in state [f]. *)
Definition with_faker_state (w : World) (f : rng) : World :=
  {| w_random := w_random w; w_faker := f; w_files := w_files w;
     w_store := w_store w; w_log := w_log w |}.

(** C7 as the specification words it: every file is named after its
    table and its header row is the attribute list of the data model. *)
Definition headers_match_spec (w : World) : Prop :=
  ∀ tb, tb ∈ store_tables →
    ∃ df, w_files w !! (tb +:+ ".csv") = Some df ∧
          columns df = spec_attributes tb.
End Predicates.

(** ** Vocabulary of the further properties *)

(** The files [to_csv] has written, in order. *)
Definition csv_writes (l : list event) : list string :=
  omap (λ ev, match ev with EvToCsv p => Some p | _ => None end) l.

(** The ids in the first column of the rows of a table. *)
Definition id_column (rows : list (list cell)) : list Z :=
  omap (λ row, match row !! 0%nat with Some (CInt n) => Some n | _ => None end) rows.

Section FramesOfTheSinks.
Context `{Binary64}.

(** The frame the script writes to the file [p] (step 9). *)
Definition file_frame (t : Tables) (p : string) : DataFrame :=
  if decide (p = "users.csv") then users_df t
  else if decide (p = "listings.csv") then listings_df t
  else if decide (p = "leads.csv") then leads_df t
  else transactions_df t.

(** The frame the script appends to the table [tb] (step 10). *)
Definition table_frame (t : Tables) (tb : string) : DataFrame :=
  if decide (tb = "users") then users_df t
  else if decide (tb = "listings") then listings_df t
  else if decide (tb = "leads") then leads_df t
  else transactions_df t.
End FramesOfTheSinks.

(** The items of [l] before the first one that fails. *)
Fixpoint until_failure {A} (failure : A → option string) (l : list A) : list A :=
  match l with
  | [] => []
  | x :: l' =>
      match failure x with
      | None => x :: until_failure failure l'
      | Some _ => []
      end
  end.

(** The files the CSV step writes. *)
Definition files_exported (env : Env) : list string :=
  until_failure (csv_failure env) csv_paths.

(** The tables the database step appends to. *)
Definition tables_stored (env : Env) : list string :=
  match engine_failure env with
  | Some _ => []
  | None => until_failure (sql_failure env) store_tables
  end.

(** The message of the first error the database step meets: creating the
    engine comes first, then the four tables in the order of the script. *)
Definition store_error (env : Env) : option string :=
  match engine_failure env with
  | Some msg => Some msg
  | None => head (omap (sql_failure env) store_tables)
  end.

Section SinkStates.
Context `{Binary64}.

(** The files after [to_csv] has written the paths [ps], in this order. *)
Definition files_written (t : Tables) (fs : gmap string DataFrame)
    (ps : list string) : gmap string DataFrame :=
  foldl (λ fs p, <[p := file_frame t p]> fs) fs ps.

(** The store after [to_sql] has appended the tables [tbs], in this order. *)
Definition tables_appended (t : Tables) (s : gmap string (list (list cell)))
    (tbs : list string) : gmap string (list (list cell)) :=
  foldl (λ s tb, <[tb := default [] (s !! tb) ++ values (table_frame t tb)]> s) s tbs.

(** The four lines of the data summary. *)
Definition summary_lines (users listings leads transactions : Z) : list string :=
  ["   Users:        " +:+ format_comma users +:+ " records";
   "   Listings:     " +:+ format_comma listings +:+ " records";
   "   Leads:        " +:+ format_comma leads +:+ " records";
   "   Transactions: " +:+ format_comma transactions +:+ " records"].
End SinkStates.

(** ** A concrete random library

    [LcgRandom] is a linear congruential generator behind the sampler
    interface.  With [b64_round] it makes the script executable, and it
    shows that the laws of [RandomLib] can be met. *)

Definition lcg_next (s : Z) : Z := (1103515245 * s + 12345) mod 2147483648.

Definition lcg_randint (a b : Z) (s : Z) : option (Z * Z) :=
  if decide (a ≤ b) then Some (a + s mod (b - a + 1), lcg_next s) else None.

Definition lcg_choice {A : Type} (l : list A) (s : Z) : option (A * Z) :=
  match l !! Z.to_nat (s mod Z.of_nat (length l)) with
  | Some x => Some (x, lcg_next s)
  | None => None
  end.

Definition lcg_choices {A : Type} (pop : list A) (ws : list Z) (s : Z)
    : option (list A * Z) :=
  if decide (length ws = length pop)
  then match lcg_choice pop s with
       | Some (x, s') => Some ([x], s')
       | None => None
       end
  else None.

Definition lcg_uniform (a b : Q) (s : Z) : option (Q * Z) :=
  if Qle_bool a b
  then Some (if Z.even s then a else b, lcg_next s)
  else None.

#[export] Instance LcgRandom : RandomLib.
Proof.
  refine {| rng := Z;
            seed := λ n, n;
            randint := lcg_randint;
            choices := @lcg_choices;
            choice := @lcg_choice;
            uniform := lcg_uniform;
            date_between := lcg_randint |}.
  - intros a b s Hab. exists (a + s mod (b - a + 1)), (lcg_next s).
    unfold lcg_randint. rewrite decide_True by done.
    split; [done|]. pose proof (Z.mod_pos_bound s (b - a + 1)). lia.
  - intros A pop ws s Hne Hlen _ _. unfold lcg_choices, lcg_choice.
    rewrite decide_True by done.
    assert (Hlt : (Z.to_nat (s mod Z.of_nat (length pop)) < length pop)%nat).
    { destruct pop; [done|].
      pose proof (Z.mod_pos_bound s (Z.of_nat (length (a :: pop)))).
      simpl length in *. lia. }
    destruct (lookup_lt_is_Some_2 _ _ Hlt) as [x Hx]. rewrite Hx.
    exists x, (lcg_next s). split; [done|]. by eapply list_elem_of_lookup_2.
  - intros A l s Hne. unfold lcg_choice.
    assert (Hlt : (Z.to_nat (s mod Z.of_nat (length l)) < length l)%nat).
    { destruct l; [done|].
      pose proof (Z.mod_pos_bound s (Z.of_nat (length (a :: l)))).
      simpl length in *. lia. }
    destruct (lookup_lt_is_Some_2 _ _ Hlt) as [x Hx]. rewrite Hx.
    exists x, (lcg_next s). split; [done|]. by eapply list_elem_of_lookup_2.
  - intros a b s Hab. unfold lcg_uniform.
    apply Qle_bool_iff in Hab as Hb. rewrite Hb.
    exists (if Z.even s then a else b), (lcg_next s).
    split; [done|]. destruct (Z.even s); split; try done; apply Qle_refl.
  - intros a b s Hab. exists (a + s mod (b - a + 1)), (lcg_next s).
    unfold lcg_randint. rewrite decide_True by done.
    split; [done|]. pose proof (Z.mod_pos_bound s (b - a + 1)). lia.
Defined.

Definition world0 (faker_state : Z) : World :=
  {| w_random := 0; w_faker := faker_state; w_files := ∅; w_store := ∅;
     w_log := [] |}.

Definition noon (d : date) : datetime :=
  {| dt_date := d; dt_micros := 43200000000 |}.

(** An environment in which every write succeeds; the clock reads noon of
    day 739000 twice. *)
Definition env_ok : Env :=
  {| now_start := noon 739000; now_end := noon 739000;
     csv_failure := λ _, None; engine_failure := None;
     sql_failure := λ _, None |}.

Definition small_config : Config :=
  {| SEED := 42; NUM_USERS := 2; NUM_LISTINGS := 2; NUM_LEADS := 3;
     NUM_TRANSACTIONS := 2 |}.

(** An environment whose database refuses every connection. *)
Definition env_db_down : Env :=
  {| now_start := noon 739000; now_end := noon 739000;
     csv_failure := λ _, None; engine_failure := None;
     sql_failure := λ _, Some "could not connect to server: Connection refused" |}.

(** A world in which the [random] module has been used and lines have
    been printed before the script starts. *)
Definition world_in_use (faker_state : Z) : World :=
  {| w_random := 99; w_faker := faker_state; w_files := ∅; w_store := ∅;
     w_log := [EvPrint "an earlier line"] |}.

(** A configuration without users. *)
Definition no_users_config : Config :=
  {| SEED := 42; NUM_USERS := 0; NUM_LISTINGS := 1; NUM_LEADS := 0;
     NUM_TRANSACTIONS := 0 |}.

(** * Proofs *)

(** ** Rules of the monad *)

Section Reasoning.
Context `{Binary64} `{RandomLib}.

Lemma bind_Ok_inv {A B} (m : M A) (k : A → M B) w b w' :
  (m ≫= k) w = (Ok b, w') →
  ∃ a w1, m w = (Ok a, w1) ∧ k a w1 = (Ok b, w').
Proof.
  unfold mbind, M_bind. destruct (m w) as [[a|e] w1]; [eauto|done].
Qed.

Lemma bind_Ok {A B} (m : M A) (k : A → M B) w a w1 :
  m w = (Ok a, w1) → (m ≫= k) w = k a w1.
Proof. unfold mbind, M_bind. by intros ->. Qed.

Lemma bind_Raise {A B} (m : M A) (k : A → M B) w e w1 :
  m w = (Raise e, w1) → (m ≫= k) w = (Raise e, w1).
Proof. unfold mbind, M_bind. by intros ->. Qed.

#[global] Instance quiet_refl : Reflexive quiet.
Proof.
  intros w. repeat split. exists []. by rewrite app_nil_r.
Qed.

#[global] Instance quiet_trans : Transitive quiet.
Proof.
  intros w1 w2 w3 (Hf1 & Hs1 & l1 & Hl1 & Hp1) (Hf2 & Hs2 & l2 & Hl2 & Hp2).
  split; [congruence|]. split; [congruence|].
  exists (l1 ++ l2). rewrite Hl2, Hl1, app_assoc.
  split; [done|]. by apply Forall_app.
Qed.

Lemma gen_ok_ret {A} (a : A) (P : A → Prop) : P a → gen_ok (mret a) P.
Proof. intros HP w. exists a, w. split; [done|]. split; [done|]. reflexivity. Qed.

Lemma gen_ok_bind {A B} (m : M A) (k : A → M B) (P : A → Prop) (Q : B → Prop) :
  gen_ok m P → (∀ a, P a → gen_ok (k a) Q) → gen_ok (m ≫= k) Q.
Proof.
  intros Hm Hk w. destruct (Hm w) as (a & w1 & Hmw & HP & Hq1).
  destruct (Hk a HP w1) as (b & w2 & Hkw & HQ & Hq2).
  exists b, w2. rewrite (bind_Ok _ _ _ _ _ Hmw).
  split; [done|]. split; [done|]. by etrans.
Qed.

Lemma gen_ok_weaken {A} (m : M A) (P Q : A → Prop) :
  gen_ok m P → (∀ a, P a → Q a) → gen_ok m Q.
Proof.
  intros Hm HPQ w. destruct (Hm w) as (a & w1 & ? & ? & ?).
  exists a, w1. auto.
Qed.

Lemma gen_ok_print line : gen_ok (print line) (λ _, True).
Proof.
  intros w. eexists tt, _. split; [reflexivity|]. split; [done|].
  repeat split. exists [EvPrint line]. split; [done|].
  by repeat constructor.
Qed.

Lemma gen_ok_random_seed n : gen_ok (random_seed n) (λ _, True).
Proof.
  intros w. eexists tt, _. split; [reflexivity|]. split; [done|].
  repeat split. exists []. by rewrite app_nil_r.
Qed.

Lemma gen_ok_with_random {A} (f : rng → option (A * rng)) (P : A → Prop) :
  (∀ s, ∃ a s', f s = Some (a, s') ∧ P a) → gen_ok (with_random f) P.
Proof.
  intros Hf w. destruct (Hf (w_random w)) as (a & s' & Hfs & HP).
  eexists a, _. unfold with_random. rewrite Hfs.
  split; [reflexivity|]. split; [done|].
  repeat split. exists []. by rewrite app_nil_r.
Qed.

Lemma gen_ok_with_faker {A} (f : rng → option (A * rng)) (P : A → Prop) :
  (∀ s, ∃ a s', f s = Some (a, s') ∧ P a) → gen_ok (with_faker f) P.
Proof.
  intros Hf w. destruct (Hf (w_faker w)) as (a & s' & Hfs & HP).
  eexists a, _. unfold with_faker. rewrite Hfs.
  split; [reflexivity|]. split; [done|].
  repeat split. exists []. by rewrite app_nil_r.
Qed.

Lemma gen_ok_for_each {A B} (body : A → M B) (P : A → B → Prop) (l : list A) :
  (∀ i, i ∈ l → gen_ok (body i) (P i)) →
  gen_ok (for_each body l) (λ rows, Forall2 P l rows).
Proof.
  induction l as [|i l IH]; intros Hbody; simpl.
  - apply gen_ok_ret. constructor.
  - eapply gen_ok_bind; [apply Hbody; left|]. intros row Hrow.
    eapply gen_ok_bind; [apply IH; intros j Hj; apply Hbody; by right|].
    intros rows Hrows. apply gen_ok_ret. by constructor.
Qed.
End Reasoning.

(** ** Facts about rounding *)

Section FloatFacts.
Context `{Binary64}.

#[global] Instance rnd_proper : Proper (Qeq ==> Qeq) rnd.
Proof.
  intros x y Hxy. apply Qle_antisym; apply rnd_mono; rewrite Hxy; apply Qle_refl.
Qed.

Lemma rnd_int (n : Z) :
  Z.abs n ≤ 2 ^ 53 → (rnd (inject_Z n) == inject_Z n)%Q.
Proof.
  intros Hn. pose proof (rnd_exact n 0 Hn ltac:(lia)) as Hexact.
  change (2 ^ 0)%Q with 1%Q in Hexact. by rewrite Qmult_1_r in Hexact.
Qed.

Lemma rnd_half : (rnd (1 # 2) == 1 # 2)%Q.
Proof. exact (rnd_exact 1 (-1) ltac:(lia) ltac:(lia)). Qed.

Lemma rnd_ge_int (n : Z) (x : Q) :
  Z.abs n ≤ 2 ^ 53 → (inject_Z n <= x)%Q → (inject_Z n <= rnd x)%Q.
Proof.
  intros Hn Hx. rewrite <- (rnd_int n Hn). by apply rnd_mono.
Qed.

Lemma rnd_le_int (n : Z) (x : Q) :
  Z.abs n ≤ 2 ^ 53 → (x <= inject_Z n)%Q → (rnd x <= inject_Z n)%Q.
Proof.
  intros Hn Hx. rewrite <- (rnd_int n Hn). by apply rnd_mono.
Qed.

Lemma rnd_ge_half (x : Q) : (1 # 2 <= x)%Q → (1 # 2 <= rnd x)%Q.
Proof. intros Hx. rewrite <- rnd_half. by apply rnd_mono. Qed.

Lemma round_half_even_floor (x : Q) :
  Qfloor x ≤ round_half_even x ≤ Qfloor x + 1.
Proof.
  unfold round_half_even. cbv zeta.
  destruct (_ ?= _)%Q; [destruct (Z.even _)|..]; lia.
Qed.

Lemma round_half_even_ge (n : Z) (x : Q) :
  (inject_Z n <= x)%Q → n ≤ round_half_even x.
Proof.
  intros Hx. apply Qfloor_resp_le in Hx. rewrite Qfloor_Z in Hx.
  pose proof (round_half_even_floor x). lia.
Qed.

Lemma round_half_even_le (n : Z) (x : Q) :
  (x <= inject_Z n)%Q → round_half_even x ≤ n.
Proof.
  intros Hx. pose proof (Qfloor_resp_le _ _ Hx) as Hf. rewrite Qfloor_Z in Hf.
  destruct (decide (Qfloor x = n)) as [Heq|Hne].
  - unfold round_half_even. cbv zeta. rewrite Heq.
    assert (Hlt : (x - inject_Z n < 1 # 2)%Q).
    { apply Qle_lt_trans with 0%Q; [|done].
      apply (Qplus_le_l _ _ (inject_Z n)). ring_simplify. exact Hx. }
    rewrite (proj1 (Qlt_alt _ _) Hlt). lia.
  - pose proof (round_half_even_floor x). lia.
Qed.

Lemma float_round_ge_int (n : Z) (x : Q) :
  Z.abs n ≤ 2 ^ 53 → (inject_Z n <= x)%Q → (inject_Z n <= float_round x 2)%Q.
Proof.
  intros Hn Hx. unfold float_round. cbv zeta.
  change (inject_Z (10 ^ Z.of_N 2)) with (inject_Z 100).
  apply rnd_ge_int; [done|].
  apply Qle_shift_div_l; [done|].
  rewrite <- inject_Z_mult, <- Zle_Qle.
  apply round_half_even_ge. rewrite inject_Z_mult.
  by apply Qmult_le_compat_r.
Qed.

Lemma float_round_le_int (n : Z) (x : Q) :
  Z.abs n ≤ 2 ^ 53 → (x <= inject_Z n)%Q → (float_round x 2 <= inject_Z n)%Q.
Proof.
  intros Hn Hx. unfold float_round. cbv zeta.
  change (inject_Z (10 ^ Z.of_N 2)) with (inject_Z 100).
  apply rnd_le_int; [done|].
  apply Qle_shift_div_r; [done|].
  rewrite <- inject_Z_mult, <- Zle_Qle.
  apply round_half_even_le. rewrite inject_Z_mult.
  by apply Qmult_le_compat_r.
Qed.

(** A product of two floats that are at least [a >= 0] and [1/2]. *)
Lemma fmul_ge (a : Z) (x y : Q) :
  0 ≤ a → Z.abs a ≤ 2 ^ 53 →
  (inject_Z (2 * a) <= x)%Q → (1 # 2 <= y)%Q → (inject_Z a <= fmul x y)%Q.
Proof.
  intros Ha Hab Hx Hy. unfold fmul. apply rnd_ge_int; [done|].
  apply Qle_trans with (inject_Z (2 * a) * (1 # 2))%Q.
  - rewrite inject_Z_mult. apply Qle_lteq. right. field.
  - apply Qmult_le_compat_nonneg; split; try done.
    rewrite Zle_Qle in Ha. rewrite inject_Z_mult.
    apply Qmult_le_0_compat; done.
Qed.
End FloatFacts.

(** ** [b64_round] is a rounding in the sense of [Binary64] *)

Section Binary64Rounding.
Local Open Scope Q_scope.

Lemma pow2_pos (k : Z) : 0 < 2 ^ k.
Proof. by apply Qpower_0_lt. Qed.

Lemma pow2_le (j k : Z) : (j <= k)%Z → 2 ^ j <= 2 ^ k.
Proof. intros Hjk. by apply Qpower_le_compat_l. Qed.

Lemma pow2_lt_inv (j k : Z) : 2 ^ j < 2 ^ k → (j < k)%Z.
Proof. intros Hjk. by apply (Qpower_lt_compat_l_inv 2). Qed.

Lemma pow2_plus (j k : Z) : 2 ^ (j + k) == 2 ^ j * 2 ^ k.
Proof. by apply Qpower_plus. Qed.

Lemma pow2_inject (n : Z) : (0 <= n)%Z → inject_Z (2 ^ n) == 2 ^ n.
Proof. intros Hn. by rewrite Zpower_Qpower. Qed.

Lemma pow2_opp (k : Z) : 2 ^ (- k) == / 2 ^ k.
Proof. apply Qpower_opp. Qed.

Lemma Qmake_as_div (n : Z) (d : positive) : n # d == inject_Z n / inject_Z (Zpos d).
Proof. apply Qmake_Qdiv. Qed.

(** [2^(log2 n) <= n < 2^(log2 n + 1)] in [Q]. *)
Lemma log2_bounds_Q (n : Z) :
  (0 < n)%Z → 2 ^ Z.log2 n <= inject_Z n ∧ inject_Z n < 2 ^ (Z.log2 n + 1).
Proof.
  intros Hn. destruct (Z.log2_spec n Hn) as [Hlo Hhi].
  pose proof (Z.log2_nonneg n) as Hnn.
  split.
  - rewrite <- pow2_inject by done. by rewrite <- Zle_Qle.
  - rewrite <- pow2_inject by lia. rewrite <- Zlt_Qlt. by rewrite <- Z.add_1_r in Hhi.
Qed.

(** Dividing a smaller numerator by a larger denominator. *)
Lemma Qdiv_lt_le (a b c d : Q) :
  0 < c → c <= d → 0 <= a → a < b → a / d < b / c.
Proof.
  intros Hc Hcd Ha Hab.
  assert (Hd : 0 < d) by exact (Qlt_le_trans _ _ _ Hc Hcd).
  apply Qlt_shift_div_r; [done|].
  apply Qlt_le_trans with b; [done|].
  apply Qle_trans with (b / c * c).
  - apply Qle_lteq. right. field. intros Hc0. rewrite Hc0 in Hc. by apply Qlt_irrefl in Hc.
  - apply Qmult_le_l; [|done]. apply Qlt_shift_div_l; [done|].
    rewrite Qmult_0_l. exact (Qle_lt_trans _ _ _ Ha Hab).
Qed.

Lemma Qdiv_le_lt (a b c d : Q) :
  0 < c → c < d → 0 < a → a <= b → a / d < b / c.
Proof.
  intros Hc Hcd Ha Hab.
  assert (Hd : 0 < d) by exact (Qlt_trans _ _ _ Hc Hcd).
  apply Qlt_shift_div_r; [done|].
  apply Qle_lt_trans with (b / c * c).
  - apply Qle_trans with b; [done|].
    apply Qle_lteq. right. field. intros Hc0. rewrite Hc0 in Hc. by apply Qlt_irrefl in Hc.
  - apply Qmult_lt_l; [|done]. apply Qlt_shift_div_l; [done|].
    rewrite Qmult_0_l. exact (Qlt_le_trans _ _ _ Ha Hab).
Qed.

Lemma pow2_minus (j k : Z) : 2 ^ (j - k) == 2 ^ j / 2 ^ k.
Proof.
  replace (j - k)%Z with (j + - k)%Z by lia. by rewrite pow2_plus, pow2_opp.
Qed.

Lemma floor_log2_spec (a : Q) :
  0 < a → 2 ^ floor_log2 a <= a ∧ a < 2 ^ (floor_log2 a + 1).
Proof.
  intros Ha. unfold floor_log2. cbv zeta.
  destruct a as [n d]. simpl Qnum. simpl Qden.
  assert (Hn : (0 < n)%Z).
  { unfold Qlt in Ha. simpl in Ha. lia. }
  destruct (log2_bounds_Q n Hn) as [Hn1 Hn2].
  destruct (log2_bounds_Q (Zpos d) ltac:(lia)) as [Hd1 Hd2].
  set (ln := Z.log2 n) in *. set (ld := Z.log2 (Z.pos d)) in *.
  assert (Hnpos : 0 < inject_Z n) by (rewrite <- (Zlt_Qlt 0); lia).
  destruct (Qle_bool (2 ^ (ln - ld)) (n # d)) eqn:Hle.
  - apply Qle_bool_iff in Hle. split; [done|].
    rewrite (Qmake_as_div n d).
    replace (ln - ld + 1)%Z with ((ln + 1) - ld)%Z by lia. rewrite pow2_minus.
    apply Qdiv_lt_le; [apply pow2_pos|done|by apply Qlt_le_weak|done].
  - assert (Hlt : n # d < 2 ^ (ln - ld)).
    { apply Qnot_le_lt. intros Hc. apply Qle_bool_iff in Hc. congruence. }
    split; [|by replace (ln - ld - 1 + 1)%Z with (ln - ld)%Z by lia].
    apply Qlt_le_weak. rewrite (Qmake_as_div n d).
    replace (ln - ld - 1)%Z with (ln - (ld + 1))%Z by lia. rewrite pow2_minus.
    apply Qdiv_le_lt; [|done|apply pow2_pos|done].
    rewrite <- (Zlt_Qlt 0). lia.
Qed.

Lemma floor_log2_unique (a : Q) (k : Z) :
  2 ^ k <= a → a < 2 ^ (k + 1) → floor_log2 a = k.
Proof.
  intros Hlo Hhi.
  assert (Ha : 0 < a) by (eapply Qlt_le_trans; [apply (pow2_pos k)|done]).
  destruct (floor_log2_spec a Ha) as [Hlo' Hhi'].
  assert (floor_log2 a < k + 1)%Z.
  { apply pow2_lt_inv. eapply Qle_lt_trans; done. }
  assert (k < floor_log2 a + 1)%Z.
  { apply pow2_lt_inv. eapply Qle_lt_trans; done. }
  lia.
Qed.

Lemma floor_log2_mono (a b : Q) : 0 < a → a <= b → (floor_log2 a <= floor_log2 b)%Z.
Proof.
  intros Ha Hab.
  assert (Hb : 0 < b) by (eapply Qlt_le_trans; done).
  destruct (floor_log2_spec a Ha) as [Hlo _].
  destruct (floor_log2_spec b Hb) as [_ Hhi].
  assert (floor_log2 a < floor_log2 b + 1)%Z; [|lia].
  apply pow2_lt_inv. eapply Qle_lt_trans; [|exact Hhi]. by eapply Qle_trans.
Qed.

Lemma round_half_even_int (n : Z) (x : Q) :
  x == inject_Z n → round_half_even x = n.
Proof.
  intros Hx. apply Z.le_antisymm.
  - apply round_half_even_le. rewrite Hx. apply Qle_refl.
  - apply round_half_even_ge. rewrite Hx. apply Qle_refl.
Qed.

Lemma round_half_even_mono (x y : Q) :
  x <= y → (round_half_even x <= round_half_even y)%Z.
Proof.
  intros Hxy. pose proof (Qfloor_resp_le _ _ Hxy) as Hf.
  destruct (decide (Qfloor x = Qfloor y)) as [Heq|Hne].
  - unfold round_half_even. cbv zeta. rewrite <- Heq.
    assert (Hd : x - inject_Z (Qfloor x) <= y - inject_Z (Qfloor x)).
    { apply Qplus_le_l. exact Hxy. }
    destruct (Qcompare_spec (x - inject_Z (Qfloor x)) (1 # 2)) as [Hx|Hx|Hx];
      destruct (Qcompare_spec (y - inject_Z (Qfloor x)) (1 # 2)) as [Hy|Hy|Hy];
      try (destruct (Z.even (Qfloor x))); try lia; exfalso; lra.
  - pose proof (round_half_even_floor x). pose proof (round_half_even_floor y). lia.
Qed.

Lemma b64_round_pos_unfold (a : Q) :
  b64_round_pos a = inject_Z (round_half_even (a / 2 ^ ulp_exp a)) * 2 ^ ulp_exp a.
Proof. reflexivity. Qed.

Lemma significand_le (a : Q) :
  0 < a → (round_half_even (a / 2 ^ ulp_exp a) <= 2 ^ 53)%Z.
Proof.
  intros Ha. apply round_half_even_le.
  apply Qle_shift_div_r; [apply pow2_pos|].
  rewrite (pow2_inject 53) by lia. rewrite <- pow2_plus.
  destruct (floor_log2_spec a Ha) as [_ Hhi].
  apply Qlt_le_weak. eapply Qlt_le_trans; [exact Hhi|].
  apply pow2_le. unfold ulp_exp. lia.
Qed.

Lemma significand_ge (a : Q) :
  0 < a → (-1074 < ulp_exp a)%Z → (2 ^ 52 <= round_half_even (a / 2 ^ ulp_exp a))%Z.
Proof.
  intros Ha He. apply round_half_even_ge.
  apply Qle_shift_div_l; [apply pow2_pos|].
  rewrite (pow2_inject 52) by lia. rewrite <- pow2_plus.
  destruct (floor_log2_spec a Ha) as [Hlo _].
  eapply Qle_trans; [|exact Hlo].
  apply pow2_le. unfold ulp_exp in *. lia.
Qed.

Lemma b64_round_pos_mono (a b : Q) :
  0 < a → a <= b → b64_round_pos a <= b64_round_pos b.
Proof.
  intros Ha Hab.
  assert (Hb : 0 < b) by exact (Qlt_le_trans _ _ _ Ha Hab).
  pose proof (floor_log2_mono a b Ha Hab) as Hfl.
  rewrite !b64_round_pos_unfold.
  destruct (decide (ulp_exp a = ulp_exp b)) as [Heq|Hne].
  - rewrite Heq. apply Qmult_le_compat_r; [|apply Qlt_le_weak, pow2_pos].
    rewrite <- Zle_Qle. apply round_half_even_mono.
    apply Qmult_le_compat_r; [done|]. apply Qlt_le_weak, Qinv_lt_0_compat, pow2_pos.
  - assert (Hlt : (ulp_exp a < ulp_exp b)%Z) by (unfold ulp_exp in *; lia).
    assert (Hnormal : (-1074 < ulp_exp b)%Z) by (unfold ulp_exp in *; lia).
    apply Qle_trans with (inject_Z (2 ^ 53) * 2 ^ ulp_exp a).
    { apply Qmult_le_compat_r; [|apply Qlt_le_weak, pow2_pos].
      rewrite <- Zle_Qle. by apply significand_le. }
    apply Qle_trans with (inject_Z (2 ^ 52) * 2 ^ ulp_exp b).
    { rewrite (pow2_inject 53), (pow2_inject 52) by lia.
      rewrite <- !pow2_plus. apply pow2_le. lia. }
    apply Qmult_le_compat_r; [|apply Qlt_le_weak, pow2_pos].
    rewrite <- Zle_Qle. by apply significand_ge.
Qed.

Lemma b64_round_pos_nonneg (a : Q) : 0 < a → 0 <= b64_round_pos a.
Proof.
  intros Ha. rewrite b64_round_pos_unfold.
  apply Qmult_le_0_compat; [|apply Qlt_le_weak, pow2_pos].
  rewrite <- (Zle_Qle 0). apply round_half_even_ge.
  apply Qlt_le_weak, Qlt_shift_div_l; [apply pow2_pos|]. by rewrite Qmult_0_l.
Qed.

Lemma Qnum_pos (x : Q) p : Qnum x = Zpos p → 0 < x.
Proof. intros Hx. unfold Qlt. simpl. lia. Qed.

Lemma Qnum_neg (x : Q) p : Qnum x = Zneg p → x < 0.
Proof. intros Hx. unfold Qlt. simpl. lia. Qed.

Lemma Qnum_zero (x : Q) : Qnum x = 0%Z → x == 0.
Proof. intros Hx. unfold Qeq. simpl. lia. Qed.

Lemma Qopp_pos (x : Q) : x < 0 → 0 < - x.
Proof. intros Hx. apply Qopp_lt_compat in Hx. exact Hx. Qed.

Lemma b64_round_mono (x y : Q) : x <= y → b64_round x <= b64_round y.
Proof.
  intros Hxy. unfold b64_round.
  destruct (Qnum x) as [|p|p] eqn:Hx; destruct (Qnum y) as [|q|q] eqn:Hy.
  - apply Qle_refl.
  - by eapply b64_round_pos_nonneg, Qnum_pos.
  - exfalso. apply Qnum_zero in Hx. apply Qnum_neg in Hy.
    rewrite Hx in Hxy. apply (Qlt_irrefl 0). by eapply Qle_lt_trans.
  - exfalso. apply Qnum_pos in Hx. apply Qnum_zero in Hy.
    rewrite Hy in Hxy. apply (Qlt_irrefl 0). by eapply Qlt_le_trans.
  - apply b64_round_pos_mono; [by eapply Qnum_pos|done].
  - exfalso. apply Qnum_pos in Hx. apply Qnum_neg in Hy.
    apply (Qlt_irrefl 0). eapply Qlt_trans; [exact Hx|]. by eapply Qle_lt_trans.
  - apply Qnum_neg, Qopp_pos, b64_round_pos_nonneg in Hx.
    apply (Qopp_le_compat 0) in Hx. exact Hx.
  - apply Qnum_neg, Qopp_pos, b64_round_pos_nonneg in Hx.
    apply Qnum_pos, b64_round_pos_nonneg in Hy.
    apply (Qopp_le_compat 0) in Hx. by eapply Qle_trans.
  - apply Qopp_le_compat. apply b64_round_pos_mono.
    + by eapply Qopp_pos, Qnum_neg.
    + by apply Qopp_le_compat.
Qed.

Lemma pow2_neq_0 (k : Z) : ¬ 2 ^ k == 0.
Proof. intros Hk. pose proof (pow2_pos k) as Hp. rewrite Hk in Hp. by apply Qlt_irrefl in Hp. Qed.

Lemma b64_round_pos_proper (a b : Q) :
  0 < a → a == b → b64_round_pos a == b64_round_pos b.
Proof.
  intros Ha Hab.
  assert (Hb : 0 < b) by by rewrite <- Hab.
  apply Qle_antisym; apply b64_round_pos_mono; try done; rewrite Hab; apply Qle_refl.
Qed.

Lemma b64_round_pos_fixes (a : Q) (k : Z) :
  a / 2 ^ ulp_exp a == inject_Z k → b64_round_pos a == a.
Proof.
  intros Hk. rewrite b64_round_pos_unfold, (round_half_even_int k) by done.
  rewrite <- Hk. field. apply pow2_neq_0.
Qed.

Lemma floor_log2_scaled (m e : Z) :
  (0 < m)%Z → floor_log2 (inject_Z m * 2 ^ e) = (Z.log2 m + e)%Z.
Proof.
  intros Hm. destruct (log2_bounds_Q m Hm) as [Hlo Hhi].
  apply floor_log2_unique.
  - rewrite pow2_plus. apply Qmult_le_compat_r; [done|apply Qlt_le_weak, pow2_pos].
  - replace (Z.log2 m + e + 1)%Z with ((Z.log2 m + 1) + e)%Z by lia.
    rewrite pow2_plus. apply Qmult_lt_compat_r; [apply pow2_pos|done].
Qed.

Lemma b64_round_pos_exact (m e : Z) :
  (0 < m <= 2 ^ 53)%Z → (-1074 <= e)%Z →
  b64_round_pos (inject_Z m * 2 ^ e) == inject_Z m * 2 ^ e.
Proof.
  intros [Hm Hm53] He.
  assert (Hlog : (Z.log2 m <= 53)%Z).
  { change 53%Z with (Z.log2 (2 ^ 53)). by apply Z.log2_le_mono. }
  pose proof (Z.log2_nonneg m) as Hnn.
  set (a := inject_Z m * 2 ^ e).
  assert (Hexp : ulp_exp a = Z.max (Z.log2 m + e - 52) (-1074)).
  { unfold ulp_exp, a. by rewrite floor_log2_scaled. }
  destruct (decide (Z.log2 m <= 52)%Z) as [Hsmall|Hbig].
  - apply (b64_round_pos_fixes a (m * 2 ^ (e - ulp_exp a))).
    assert (Hp : (0 <= e - ulp_exp a)%Z) by lia.
    rewrite inject_Z_mult, (pow2_inject _ Hp), pow2_minus.
    unfold a. field. apply pow2_neq_0.
  - assert (Hm' : m = (2 ^ 53)%Z).
    { destruct (Z.log2_spec m Hm) as [Hlo _].
      replace (Z.log2 m) with 53%Z in Hlo by lia. lia. }
    assert (Hexp' : ulp_exp a = (e + 1)%Z).
    { rewrite Hexp, Hm'. change (Z.log2 (2 ^ 53)) with 53%Z. lia. }
    apply (b64_round_pos_fixes a (2 ^ 52)).
    rewrite Hexp', pow2_plus. unfold a. rewrite Hm'.
    change (2 ^ 1) with 2. change (inject_Z (2 ^ 53)) with (inject_Z (2 ^ 52) * 2).
    field. apply pow2_neq_0.
Qed.

Lemma scaled_pos_inv (m e : Z) : 0 < inject_Z m * 2 ^ e → (0 < m)%Z.
Proof.
  intros Hx. destruct (decide (0 < m)%Z) as [|Hm]; [done|]. exfalso.
  assert (Hle : inject_Z m * 2 ^ e <= 0).
  { rewrite <- (Qmult_0_l (2 ^ e)).
    apply Qmult_le_compat_r; [|apply Qlt_le_weak, pow2_pos].
    change (inject_Z m <= inject_Z 0). rewrite <- Zle_Qle. lia. }
  apply (Qlt_irrefl 0). by eapply Qlt_le_trans.
Qed.

Lemma b64_round_exact (m e : Z) :
  (Z.abs m <= 2 ^ 53)%Z → (-1074 <= e <= 970)%Z →
  b64_round (inject_Z m * 2 ^ e) == inject_Z m * 2 ^ e.
Proof.
  intros Hm [He _]. unfold b64_round.
  destruct (Qnum (inject_Z m * 2 ^ e)) as [|p|p] eqn:Hx.
  - symmetry. by apply Qnum_zero.
  - apply Qnum_pos, scaled_pos_inv in Hx. apply b64_round_pos_exact; lia.
  - apply Qnum_neg in Hx.
    assert (Hopp : - (inject_Z m * 2 ^ e) == inject_Z (- m) * 2 ^ e).
    { rewrite inject_Z_opp. ring. }
    assert (Hpos : 0 < inject_Z (- m) * 2 ^ e).
    { rewrite <- Hopp. by apply Qopp_pos. }
    rewrite (b64_round_pos_proper _ _ (Qopp_pos _ Hx) Hopp).
    rewrite b64_round_pos_exact; [by rewrite <- Hopp, Qopp_involutive| |done].
    apply scaled_pos_inv in Hpos. lia.
Qed.
End Binary64Rounding.

#[export] Instance IEEE754 : Binary64 :=
  {| rnd := b64_round; rnd_mono := b64_round_mono; rnd_exact := b64_round_exact |}.

(** ** Facts about lists and the lookup tables *)

Lemma filter_unique_key {A K : Type} `{EqDecision K} (f : A → K) (l : list A) (r : A) :
  NoDup (f <$> l) → r ∈ l → filter (λ x, f x = f r) l = [r].
Proof.
  induction l as [|a l IH]; intros Hnd Hin; [by apply elem_of_nil in Hin|].
  rewrite fmap_cons in Hnd. apply NoDup_cons in Hnd as [Hnotin Hnd].
  apply elem_of_cons in Hin as [->|Hin].
  - rewrite filter_cons_True by done. f_equal.
    destruct (filter (λ x, f x = f a) l) as [|b l'] eqn:Hfil; [done|].
    assert (Hb : b ∈ filter (λ x, f x = f a) l) by (rewrite Hfil; left).
    apply list_elem_of_filter in Hb as [Hfb Hbl]. destruct Hnotin.
    rewrite <- Hfb. by apply list_elem_of_fmap_2.
  - rewrite filter_cons_False; [by apply IH|].
    intros Heq. destruct Hnotin. rewrite Heq. by apply list_elem_of_fmap_2.
Qed.

Lemma Forall2_key_fmap {A : Type} (f : A → Z) (P : Z → A → Prop) (ks : list Z) (l : list A) :
  (∀ k a, P k a → f a = k) → Forall2 P ks l → f <$> l = ks.
Proof.
  intros HP. induction 1 as [|k a ks l Hka _ IH]; [done|].
  rewrite fmap_cons, IH. f_equal. by apply HP.
Qed.

Lemma Forall2_elem_r {A B : Type} (P : A → B → Prop) (l : list A) (k : list B) (y : B) :
  Forall2 P l k → y ∈ k → ∃ x, x ∈ l ∧ P x y.
Proof.
  induction 1 as [|a b l k Hab _ IH]; intros Hy; [by apply elem_of_nil in Hy|].
  apply elem_of_cons in Hy as [->|Hy].
  - exists a. split; [left|done].
  - destruct (IH Hy) as (x & Hx & HP). exists x. split; [by right|done].
Qed.

Lemma elem_of_range (a b k : Z) : k ∈ range a b ↔ a ≤ k < b.
Proof. unfold range. rewrite elem_of_seqZ. lia. Qed.

Lemma base_price_table_bounds (c : string) (b : Z) :
  base_price_table !! c = Some b → 800000 ≤ b ≤ 5000000.
Proof.
  intros Hb. apply elem_of_list_to_map_2 in Hb.
  repeat (apply elem_of_cons in Hb as [[= _ ->]|Hb]; [lia|]).
  by apply elem_of_nil in Hb.
Qed.

Lemma base_price_table_total (c : string) :
  c ∈ CATEGORIES → ∃ b, base_price_table !! c = Some b.
Proof.
  intros Hc. unfold CATEGORIES in Hc.
  repeat (apply elem_of_cons in Hc as [->|Hc]; [eexists; vm_compute; reflexivity|]).
  by apply elem_of_nil in Hc.
Qed.

Section TableFacts.
Context `{Binary64}.

Lemma emirate_multiplier_table_total (e : string) :
  e ∈ EMIRATES → ∃ m, emirate_multiplier_table !! e = Some m.
Proof.
  intros He. unfold EMIRATES in He.
  repeat (apply elem_of_cons in He as [->|He]; [eexists; vm_compute; reflexivity|]).
  by apply elem_of_nil in He.
Qed.

Lemma emirate_multiplier_table_ge_half (e : string) (m : Q) :
  emirate_multiplier_table !! e = Some m → (1 # 2 <= m)%Q.
Proof.
  intros Hm. apply elem_of_list_to_map_2 in Hm.
  repeat (apply elem_of_cons in Hm as [[= _ ->]|Hm];
          [unfold float_lit; by apply rnd_ge_half|]).
  by apply elem_of_nil in Hm.
Qed.
End TableFacts.

(** ** The four loops *)

Section GeneratorFacts.
Context `{Binary64} `{RandomLib}.

Lemma window_nonempty (env : Env) :
  clock_monotone env →
  datetime_date (START_DATE env) ≤ datetime_date (END_DATE env).
Proof.
  unfold clock_monotone, datetime_le, START_DATE, END_DATE, datetime_date,
    datetime_sub_days. simpl. lia.
Qed.

Lemma gen_ok_item0 {A} (x : A) : gen_ok (item0 [x]) (λ y, y = x).
Proof. by apply gen_ok_ret. Qed.

Lemma gen_ok_choices0 {A} (pop : list A) (ws : list Z) :
  pop ≠ [] → length ws = length pop →
  Forall (λ w, 0 ≤ w) ws → 0 < foldr Z.add 0 ws →
  gen_ok (with_random (choices pop ws) ≫= item0) (λ x, x ∈ pop).
Proof.
  intros Hne Hlen Hpos Hsum.
  eapply (gen_ok_bind _ _ (λ xs, ∃ x, xs = [x] ∧ x ∈ pop)).
  - apply gen_ok_with_random. intros s.
    destruct (choices_spec A pop ws s Hne Hlen Hpos Hsum) as (x & s' & Hc & Hx).
    exists [x], s'. eauto.
  - intros xs (x & -> & Hx). eapply gen_ok_weaken; [apply gen_ok_item0|].
    by intros y ->.
Qed.

Lemma gen_ok_randint (a b : Z) :
  a ≤ b → gen_ok (with_random (randint a b)) (λ r, a ≤ r ≤ b).
Proof.
  intros Hab. apply gen_ok_with_random. intros s.
  destruct (randint_spec a b s Hab) as (r & s' & ? & ?). eauto.
Qed.

Lemma gen_ok_uniform (a b : Q) :
  (a <= b)%Q →
  gen_ok (with_random (uniform a b)) (λ r, (a <= r)%Q ∧ (r <= b)%Q).
Proof.
  intros Hab. apply gen_ok_with_random. intros s.
  destruct (uniform_spec a b s Hab) as (r & s' & ? & ?). eauto.
Qed.

Lemma gen_ok_choice {A} (l : list A) :
  l ≠ [] → gen_ok (with_random (choice l)) (λ x, x ∈ l).
Proof.
  intros Hne. apply gen_ok_with_random. intros s.
  destruct (choice_spec A l s Hne) as (x & s' & ? & ?). eauto.
Qed.

Lemma gen_ok_date_between (a b : datetime) :
  datetime_date a ≤ datetime_date b →
  gen_ok (fake_date_between a b)
    (λ d, datetime_date a ≤ d ≤ datetime_date b).
Proof.
  intros Hab. apply gen_ok_with_faker. intros s.
  destruct (date_between_spec _ _ s Hab) as (r & s' & ? & ?). eauto.
Qed.

Lemma gen_ok_dict_get {V} (d : gmap string V) (k : string) (v : V) :
  d !! k = Some v → gen_ok (dict_get d k) (λ x, x = v).
Proof. intros Hk. unfold dict_get. rewrite Hk. by apply gen_ok_ret. Qed.

Ltac weights := first [done | lia | by repeat constructor].

Lemma gen_user_ok (env : Env) (i : Z) :
  clock_monotone env → gen_ok (gen_user env i) (user_ok env i).
Proof.
  intros Hclock. unfold gen_user.
  eapply gen_ok_bind; [apply gen_ok_date_between, window_nonempty, Hclock|].
  intros d Hd.
  eapply gen_ok_bind; [apply gen_ok_choices0; weights|]. intros e He.
  eapply gen_ok_bind; [apply gen_ok_choices0; weights|]. intros u Hu.
  apply gen_ok_ret. by repeat split; simpl; try apply Hd.
Qed.

Lemma gen_listing_ok (cfg : Config) (env : Env) (i : Z) :
  1 ≤ NUM_USERS cfg → clock_monotone env →
  gen_ok (gen_listing cfg env i) (listing_ok cfg env i).
Proof.
  intros Husers Hclock. unfold gen_listing.
  eapply gen_ok_bind; [by apply gen_ok_randint|]. intros uid Huid.
  eapply gen_ok_bind; [apply gen_ok_choices0; weights|]. intros c Hc.
  eapply gen_ok_bind; [apply gen_ok_choices0; weights|]. intros e He.
  destruct (base_price_table_total c Hc) as [base Hbase].
  destruct (emirate_multiplier_table_total e He) as [mult Hmult].
  eapply gen_ok_bind; [by apply gen_ok_dict_get|]. intros ? ->.
  eapply gen_ok_bind; [by apply gen_ok_dict_get|]. intros ? ->.
  eapply gen_ok_bind.
  { apply gen_ok_uniform. unfold float_lit. by apply rnd_mono. }
  intros u [Hu1 Hu2].
  eapply gen_ok_bind; [apply gen_ok_date_between, window_nonempty, Hclock|].
  intros d Hd.
  eapply gen_ok_bind; [apply gen_ok_choices0; weights|]. intros st Hst.
  apply gen_ok_ret. unfold listing_ok; simpl.
  split; [done|]. split; [done|]. split; [done|]. split; [done|].
  split; [by exists base, mult, u|]. done.
Qed.

(** The lookup of a listing's creation date finds exactly one row. *)
Lemma created_dates_of_listing (cfg : Config) (env : Env)
    (listings : list Listing.row) (id : Z) :
  Forall2 (listing_ok cfg env) (range 1 (NUM_LISTINGS cfg + 1)) listings →
  1 ≤ id ≤ NUM_LISTINGS cfg →
  ∃ r, r ∈ listings ∧ Listing.listing_id r = id ∧
       filter (λ x, Listing.listing_id x = id) listings = [r] ∧
       created_dates_of listings id = [Listing.created_date r] ∧
       Listing.created_date r ≤ datetime_date (END_DATE env).
Proof.
  intros Hall Hid.
  assert (Hids : Listing.listing_id <$> listings = range 1 (NUM_LISTINGS cfg + 1)).
  { eapply Forall2_key_fmap; [|exact Hall]. by intros k a (-> & _). }
  assert (Hin : id ∈ Listing.listing_id <$> listings).
  { rewrite Hids. apply elem_of_range. lia. }
  apply list_elem_of_fmap in Hin as (r & -> & Hr).
  assert (Hfil : filter (λ x, Listing.listing_id x = Listing.listing_id r) listings = [r]).
  { apply filter_unique_key; [|done]. rewrite Hids. apply NoDup_seqZ. }
  exists r. split; [done|]. split; [done|]. split; [done|].
  split; [unfold created_dates_of; by rewrite Hfil|].
  destruct (Forall2_elem_r _ _ _ _ Hall Hr) as (k & _ & Hok).
  destruct Hok as (_ & _ & _ & _ & _ & Hd & _). lia.
Qed.

Lemma gen_lead_ok (cfg : Config) (env : Env) (listings : list Listing.row) (i : Z) :
  valid_config cfg →
  Forall2 (listing_ok cfg env) (range 1 (NUM_LISTINGS cfg + 1)) listings →
  gen_ok (gen_lead cfg env listings i) (lead_ok cfg env listings i).
Proof.
  intros [Husers Hlistings] Hall. unfold gen_lead.
  eapply gen_ok_bind; [by apply gen_ok_randint|]. intros lid Hlid.
  eapply gen_ok_bind; [by apply gen_ok_randint|]. intros uid Huid.
  destruct (created_dates_of_listing cfg env listings lid Hall Hlid)
    as (r & Hr & Hrid & _ & Hdates & Hend).
  rewrite Hdates.
  eapply gen_ok_bind; [apply gen_ok_item0|]. intros ? ->.
  eapply gen_ok_bind; [by apply gen_ok_date_between|]. intros d Hd.
  apply gen_ok_ret. unfold lead_ok; simpl.
  split; [done|]. split; [done|]. split; [done|].
  exists (Listing.created_date r). rewrite Hdates. done.
Qed.

Lemma gen_transaction_ok (cfg : Config) (env : Env) (i : Z) :
  1 ≤ NUM_USERS cfg → clock_monotone env →
  gen_ok (gen_transaction cfg env i) (transaction_ok cfg env i).
Proof.
  intros Husers Hclock. unfold gen_transaction.
  eapply gen_ok_bind; [by apply gen_ok_randint|]. intros uid Huid.
  eapply gen_ok_bind; [apply gen_ok_choices0; weights|]. intros ty Hty.
  eapply (gen_ok_bind _ _ (λ amount,
    (ty = "subscription" ∧ ∃ n, n ∈ [500; 1000; 2000; 5000] ∧ amount = PyInt n) ∨
    (ty = "featured_listing" ∧
     ∃ u, (float_of_int 100 <= u)%Q ∧ (u <= float_of_int 500)%Q ∧ amount = PyFloat u))).
  { destruct (decide (ty = "subscription")) as [->|Hne].
    - eapply gen_ok_bind; [by apply gen_ok_choice|]. intros n Hn.
      apply gen_ok_ret. left. split; [done|]. by exists n.
    - eapply gen_ok_bind.
      { apply gen_ok_uniform. unfold float_of_int. by apply rnd_mono. }
      intros u [Hu1 Hu2]. apply gen_ok_ret. right.
      split; [|by exists u].
      apply elem_of_cons in Hty as [->|Hty]; [done|].
      by apply list_elem_of_singleton in Hty. }
  intros amount Hamount.
  eapply gen_ok_bind; [apply gen_ok_date_between, window_nonempty, Hclock|].
  intros d Hd.
  apply gen_ok_ret. unfold transaction_ok; simpl.
  split; [done|]. split; [done|]. split; [done|].
  destruct Hamount as [(-> & n & Hn & ->)|(-> & u & Hu1 & Hu2 & ->)].
  - left. split; [done|]. by exists n.
  - right. split; [done|]. by exists (float_round u 2), u.
Qed.

(** Generation returns, leaves files and store alone, and every row is
    as its loop body builds it. *)
Lemma generate_ok (cfg : Config) (env : Env) :
  valid_config cfg → clock_monotone env →
  gen_ok (generate cfg env) (tables_ok cfg env).
Proof.
  intros Hcfg Hclock. pose proof Hcfg as [Husers Hlistings]. unfold generate.
  eapply gen_ok_bind; [apply gen_ok_random_seed|]. intros _ _.
  do 3 (eapply gen_ok_bind; [apply gen_ok_print|]; intros _ _).
  eapply gen_ok_bind.
  { apply gen_ok_for_each. intros i _. by apply gen_user_ok. }
  intros users Hu.
  do 2 (eapply gen_ok_bind; [apply gen_ok_print|]; intros _ _).
  eapply gen_ok_bind.
  { apply gen_ok_for_each. intros i _. by apply gen_listing_ok. }
  intros listings Hl.
  do 2 (eapply gen_ok_bind; [apply gen_ok_print|]; intros _ _).
  eapply gen_ok_bind.
  { apply gen_ok_for_each. intros i _. by apply gen_lead_ok. }
  intros leads Hle.
  do 2 (eapply gen_ok_bind; [apply gen_ok_print|]; intros _ _).
  eapply gen_ok_bind.
  { apply gen_ok_for_each. intros i _. by apply gen_transaction_ok. }
  intros transactions Ht.
  eapply gen_ok_bind; [apply gen_ok_print|]; intros _ _.
  apply gen_ok_ret. by repeat split.
Qed.
End GeneratorFacts.

(** ** Properties of the generated tables *)

Section TableProperties.
Context `{Binary64} `{RandomLib}.

Lemma len_pd_DataFrame {A} (f : A → list (string * cell)) (l : list A) :
  len (pd_DataFrame (f <$> l)) = Z.of_nat (length l).
Proof. unfold len, pd_DataFrame. simpl. by rewrite !length_fmap. Qed.

Lemma range_1_succ (n : Z) : range 1 (n + 1) = seqZ 1 n.
Proof. unfold range. f_equal. lia. Qed.

Lemma listing_price_lower_bound (cfg : Config) (env : Env) (i : Z) (r : Listing.row) :
  listing_ok cfg env i r → (inject_Z 200000 <= Listing.price r)%Q.
Proof.
  intros (_ & _ & _ & _ & (base & mult & u & Hb & Hm & Hu & _ & ->) & _).
  apply base_price_table_bounds in Hb.
  apply emirate_multiplier_table_ge_half in Hm.
  assert (Hu' : (1 # 2 <= u)%Q).
  { apply Qle_trans with (float_lit (7 # 10)); [|done].
    unfold float_lit. by apply rnd_ge_half. }
  apply float_round_ge_int; [lia|].
  apply (fmul_ge 200000); [lia|lia| |done].
  apply (fmul_ge 400000); [lia|lia| |done].
  unfold float_of_int. apply rnd_ge_int; [lia|].
  rewrite <- Zle_Qle. lia.
Qed.

(** C1: every lead is dated on or after the creation date of the listing
    it references and on or before the day of [END_DATE] (now). *)
Theorem lead_date_within_listing_window (cfg : Config) (env : Env) (w : World) :
  valid_config cfg → clock_monotone env →
  ∃ t w', generate cfg env w = (Ok t, w') ∧
    ∀ lead, lead ∈ leads_data t →
      (∃ listing, listing ∈ listings_data t ∧
         Listing.listing_id listing = Lead.listing_id lead) ∧
      (∀ listing, listing ∈ listings_data t →
         Listing.listing_id listing = Lead.listing_id lead →
         Listing.created_date listing ≤ Lead.lead_date lead) ∧
      Lead.lead_date lead ≤ datetime_date (END_DATE env).
Proof.
  intros Hcfg Hclock.
  destruct (generate_ok cfg env Hcfg Hclock w)
    as (t & w' & Hgen & (_ & Hl & Hle & _) & _).
  exists t, w'. split; [done|]. intros lead Hlead.
  destruct (Forall2_elem_r _ _ _ _ Hle Hlead)
    as (i & _ & _ & Hlid & _ & created & Hhead & Hdate).
  destruct (created_dates_of_listing cfg env _ _ Hl Hlid)
    as (r & Hr & Hrid & Hfil & Hdates & _).
  rewrite Hdates in Hhead. simpl in Hhead. injection Hhead as <-.
  split; [by exists r|]. split; [|lia].
  intros listing Hin Hid.
  assert (Hmem : listing ∈ filter (λ x, Listing.listing_id x = Lead.listing_id lead)
                   (listings_data t)) by by apply list_elem_of_filter.
  rewrite Hfil in Hmem. apply list_elem_of_singleton in Hmem as ->. lia.
Qed.

(** C3: the price of every listing is the float product of the base price
    of its category, the multiplier of its emirate and a draw [u] of
    [uniform(0.7, 1.5)], rounded to two decimals. *)
Theorem listing_price_formula (cfg : Config) (env : Env) (w : World) :
  valid_config cfg → clock_monotone env →
  ∃ t w', generate cfg env w = (Ok t, w') ∧
    ∀ listing, listing ∈ listings_data t →
      ∃ base mult u,
        base_price_table !! Listing.category listing = Some base ∧
        emirate_multiplier_table !! Listing.emirate listing = Some mult ∧
        (float_lit (7 # 10) <= u)%Q ∧ (u <= float_lit (15 # 10))%Q ∧
        Listing.price listing =
          float_round (fmul (fmul (float_of_int base) mult) u) 2 ∧
        ∃ cents : Z, Listing.price listing = rnd (inject_Z cents / inject_Z 100).
Proof.
  intros Hcfg Hclock.
  destruct (generate_ok cfg env Hcfg Hclock w)
    as (t & w' & Hgen & (_ & Hl & _) & _).
  exists t, w'. split; [done|]. intros listing Hin.
  destruct (Forall2_elem_r _ _ _ _ Hl Hin)
    as (i & _ & _ & _ & _ & _ & (base & mult & u & Hb & Hm & Hu1 & Hu2 & Hp) & _).
  exists base, mult, u. repeat (split; [done|]).
  rewrite Hp. unfold float_round. cbv zeta. eauto.
Qed.

(** C4: a subscription costs one of 500, 1000, 2000, 5000; the amount of
    a featured listing, after rounding to two decimals, lies in
    [100, 500]. *)
Theorem transaction_amount_by_kind (cfg : Config) (env : Env) (w : World) :
  valid_config cfg → clock_monotone env →
  ∃ t w', generate cfg env w = (Ok t, w') ∧
    ∀ tr, tr ∈ transactions_data t →
      (Transaction.transaction_type tr = "subscription" →
         ∃ n, Transaction.amount tr = PyInt n ∧ n ∈ [500; 1000; 2000; 5000]) ∧
      (Transaction.transaction_type tr = "featured_listing" →
         ∃ x, Transaction.amount tr = PyFloat x ∧
              (inject_Z 100 <= x)%Q ∧ (x <= inject_Z 500)%Q).
Proof.
  intros Hcfg Hclock.
  destruct (generate_ok cfg env Hcfg Hclock w)
    as (t & w' & Hgen & (_ & _ & _ & Ht) & _).
  exists t, w'. split; [done|]. intros tr Hin.
  destruct (Forall2_elem_r _ _ _ _ Ht Hin) as (i & _ & _ & _ & _ & Hkind).
  destruct Hkind as [(Hty & n & Hn & Ha)|(Hty & x & u & Hu1 & Hu2 & -> & Ha)];
    rewrite Hty; (split; [intros Hs|intros Hf]); try done.
  - by exists n.
  - exists (float_round u 2). split; [done|].
    unfold float_of_int in Hu1, Hu2.
    rewrite (rnd_int 100) in Hu1 by lia. rewrite (rnd_int 500) in Hu2 by lia.
    split; [apply float_round_ge_int|apply float_round_le_int]; (done || lia).
Qed.

(** C5: the ids of each table are 1, 2, ..., count in this order, without
    repetition; the default configuration gives 5000, 8000, 15000 and 2000
    rows. *)
Theorem ids_are_sequential (cfg : Config) (env : Env) (w : World) :
  valid_config cfg → clock_monotone env →
  ∃ t w', generate cfg env w = (Ok t, w') ∧
    User.user_id <$> users_data t = seqZ 1 (NUM_USERS cfg) ∧
    Listing.listing_id <$> listings_data t = seqZ 1 (NUM_LISTINGS cfg) ∧
    Lead.lead_id <$> leads_data t = seqZ 1 (NUM_LEADS cfg) ∧
    Transaction.transaction_id <$> transactions_data t
      = seqZ 1 (NUM_TRANSACTIONS cfg) ∧
    NoDup (User.user_id <$> users_data t) ∧
    NoDup (Listing.listing_id <$> listings_data t) ∧
    NoDup (Lead.lead_id <$> leads_data t) ∧
    NoDup (Transaction.transaction_id <$> transactions_data t) ∧
    (cfg = default_config →
       len (users_df t) = 5000 ∧ len (listings_df t) = 8000 ∧
       len (leads_df t) = 15000 ∧ len (transactions_df t) = 2000).
Proof.
  intros Hcfg Hclock.
  destruct (generate_ok cfg env Hcfg Hclock w)
    as (t & w' & Hgen & (Hu & Hl & Hle & Ht) & _).
  exists t, w'. split; [done|].
  assert (Hu' : User.user_id <$> users_data t = seqZ 1 (NUM_USERS cfg)).
  { rewrite <- range_1_succ. eapply Forall2_key_fmap; [|exact Hu].
    by intros k a (-> & _). }
  assert (Hl' : Listing.listing_id <$> listings_data t = seqZ 1 (NUM_LISTINGS cfg)).
  { rewrite <- range_1_succ. eapply Forall2_key_fmap; [|exact Hl].
    by intros k a (-> & _). }
  assert (Hle' : Lead.lead_id <$> leads_data t = seqZ 1 (NUM_LEADS cfg)).
  { rewrite <- range_1_succ. eapply Forall2_key_fmap; [|exact Hle].
    by intros k a (-> & _). }
  assert (Ht' : Transaction.transaction_id <$> transactions_data t
                = seqZ 1 (NUM_TRANSACTIONS cfg)).
  { rewrite <- range_1_succ. eapply Forall2_key_fmap; [|exact Ht].
    by intros k a (-> & _). }
  repeat (split; [done|]).
  repeat (split; [first [rewrite Hu'|rewrite Hl'|rewrite Hle'|rewrite Ht'];
                  apply NoDup_seqZ|]).
  intros ->. unfold users_df, listings_df, leads_df, transactions_df.
  rewrite !len_pd_DataFrame.
  rewrite <- (length_fmap User.user_id), <- (length_fmap Listing.listing_id),
    <- (length_fmap Lead.lead_id), <- (length_fmap Transaction.transaction_id).
  rewrite Hu', Hl', Hle', Ht', !length_seqZ. simpl. lia.
Qed.

(** C6: every listing has a positive price and an owner among the users
    1..NUM_USERS. *)
Theorem listing_price_positive_owner_valid (cfg : Config) (env : Env) (w : World) :
  valid_config cfg → clock_monotone env →
  ∃ t w', generate cfg env w = (Ok t, w') ∧
    ∀ listing, listing ∈ listings_data t →
      (0 < Listing.price listing)%Q ∧
      1 ≤ Listing.user_id listing ≤ NUM_USERS cfg.
Proof.
  intros Hcfg Hclock.
  destruct (generate_ok cfg env Hcfg Hclock w)
    as (t & w' & Hgen & (_ & Hl & _) & _).
  exists t, w'. split; [done|]. intros listing Hin.
  destruct (Forall2_elem_r _ _ _ _ Hl Hin) as (i & _ & Hok).
  split.
  - apply Qlt_le_trans with (inject_Z 200000); [done|].
    by eapply listing_price_lower_bound.
  - by destruct Hok as (_ & ? & _).
Qed.

(** C10: for every id in 1..NUM_LISTINGS the listings table has exactly
    one row with that id, so the lookup of its creation date returns. *)
Theorem listing_lookup_total (cfg : Config) (env : Env) (w : World) :
  valid_config cfg → clock_monotone env →
  ∃ t w', generate cfg env w = (Ok t, w') ∧
    ∀ id, 1 ≤ id ≤ NUM_LISTINGS cfg →
      length (filter (λ r, Listing.listing_id r = id) (listings_data t)) = 1%nat ∧
      ∃ r, r ∈ listings_data t ∧ Listing.listing_id r = id ∧
        ∀ w1, item0 (created_dates_of (listings_data t) id) w1
              = (Ok (Listing.created_date r), w1).
Proof.
  intros Hcfg Hclock.
  destruct (generate_ok cfg env Hcfg Hclock w)
    as (t & w' & Hgen & (_ & Hl & _) & _).
  exists t, w'. split; [done|]. intros id Hid.
  destruct (created_dates_of_listing cfg env _ _ Hl Hid)
    as (r & Hr & Hrid & Hfil & Hdates & _).
  split; [by rewrite Hfil|].
  exists r. split; [done|]. split; [done|]. intros w1. by rewrite Hdates.
Qed.
End TableProperties.

(** ** The two sinks *)

Section SinkFacts.
Context `{Binary64} `{RandomLib}.

Lemma always_ret {A} (a : A) (R : World → World → Prop) :
  Reflexive R → always (mret a) R.
Proof. intros HR w. apply HR. Qed.

Lemma always_raise {A} (e : exn) (R : World → World → Prop) :
  Reflexive R → always (raise (A:=A) e) R.
Proof. intros HR w. apply HR. Qed.

Lemma always_bind {A B} (m : M A) (k : A → M B) (R : World → World → Prop) :
  Transitive R → always m R → (∀ a, always (k a) R) → always (m ≫= k) R.
Proof.
  intros HR Hm Hk w. specialize (Hm w). unfold mbind, M_bind.
  destruct (m w) as [[a|e] w1]; simpl in *; [|done].
  etrans; [exact Hm|apply Hk].
Qed.

Lemma always_try_except {A} (body : M A) (handler : exn → M A)
    (R : World → World → Prop) :
  Transitive R → always body R → (∀ e, always (handler e) R) →
  always (try_except body handler) R.
Proof.
  intros HR Hm Hk w. specialize (Hm w). unfold try_except.
  destruct (body w) as [[a|e] w1]; simpl in *; [done|].
  etrans; [exact Hm|apply Hk].
Qed.

Lemma always_for_each {A B} (body : A → M B) (l : list A)
    (R : World → World → Prop) :
  Reflexive R → Transitive R → (∀ i, always (body i) R) →
  always (for_each body l) R.
Proof.
  intros HR1 HR2 Hbody. induction l as [|i l IH]; simpl.
  - by apply always_ret.
  - apply always_bind; [done|apply Hbody|]. intros row.
    apply always_bind; [done|apply IH|]. intros rows. by apply always_ret.
Qed.

(** *** Generation is quiet, whatever its outcome *)

Lemma always_print line : always (print line) quiet.
Proof.
  intros w. simpl. repeat split. exists [EvPrint line].
  split; [done|]. by repeat constructor.
Qed.

Lemma always_with_random {A} (f : rng → option (A * rng)) :
  always (with_random f) quiet.
Proof.
  intros w. unfold with_random. destruct (f (w_random w)) as [[a s]|]; simpl;
    repeat split; exists []; by rewrite app_nil_r.
Qed.

Lemma always_with_faker {A} (f : rng → option (A * rng)) :
  always (with_faker f) quiet.
Proof.
  intros w. unfold with_faker. destruct (f (w_faker w)) as [[a s]|]; simpl;
    repeat split; exists []; by rewrite app_nil_r.
Qed.

Lemma always_item0 {A} (xs : list A) : always (item0 xs) quiet.
Proof. destruct xs; [apply always_raise|apply always_ret]; apply _. Qed.

Lemma always_dict_get {V} (d : gmap string V) k : always (dict_get d k) quiet.
Proof.
  unfold dict_get. destruct (d !! k); [apply always_ret|apply always_raise]; apply _.
Qed.

Ltac quiet_steps :=
  repeat first
    [ apply always_bind; [apply _| |intros ?]
    | apply always_ret; apply _
    | apply always_print
    | apply always_with_random
    | apply always_with_faker
    | apply always_item0
    | apply always_dict_get
    | apply always_for_each; [apply _|apply _|intros ?] ].

Lemma always_generate (cfg : Config) (env : Env) :
  always (generate cfg env) quiet.
Proof.
  unfold generate.
  apply always_bind; [apply _| |intros ?].
  { intros w. simpl. repeat split. exists []. by rewrite app_nil_r. }
  unfold gen_user, gen_listing, gen_lead, gen_transaction, fake_date_between.
  quiet_steps.
  case_decide; quiet_steps.
Qed.
End SinkFacts.

Section LoadFacts.
Context `{Binary64} `{RandomLib}.

Lemma to_sql_append_cases (env : Env) (df : DataFrame) (tb engine : string) (w : World) :
  to_sql env df tb engine if_exists_append w =
  match sql_failure env tb with
  | Some msg =>
      (Raise (OperationalError msg),
       {| w_random := w_random w; w_faker := w_faker w; w_files := w_files w;
          w_store := w_store w; w_log := w_log w ++ [EvToSql tb] |})
  | None =>
      (Ok tt,
       {| w_random := w_random w; w_faker := w_faker w; w_files := w_files w;
          w_store := <[tb := default [] (w_store w !! tb) ++ values df]> (w_store w);
          w_log := w_log w ++ [EvToSql tb] |})
  end.
Proof.
  unfold to_sql. destruct (sql_failure env tb); [done|].
  by destruct (w_store w !! tb).
Qed.

Ltac run_script_steps :=
  cbv beta iota zeta delta
    [mbind M_bind mret M_ret print log_event raise try_except create_engine
     load_body load_handler load_postgres
     w_log w_files w_store w_random w_faker].

Ltac to_sql_step H :=
  rewrite to_sql_append_cases;
  match goal with
  | |- context [sql_failure ?env ?tb] =>
      destruct (sql_failure env tb) as [?msg|] eqn:H
  end;
  run_script_steps.

Ltac finish_log :=
  eexists _, _; split; [reflexivity|];
  cbv beta iota delta [w_log]; rewrite <- !app_assoc; cbn [app];
  split; [reflexivity|].

Ltac compute_lists :=
  repeat match goal with
  | |- context [format_comma ?n] => generalize (format_comma n); intros ?
  end;
  repeat match goal with
  | |- context [sql_attempts ?l] =>
      let v := eval vm_compute in (sql_attempts l) in
      let E := fresh "E" in
      assert (E : sql_attempts l = v) by (vm_compute; reflexivity);
      rewrite !E; clear E
  | |- context [printed ?l] =>
      let v := eval vm_compute in (printed l) in
      let E := fresh "E" in
      assert (E : printed l = v) by (vm_compute; reflexivity);
      rewrite !E; clear E
  end.

Ltac not_in_list :=
  let Hin := fresh "Hin" in
  intros Hin;
  repeat (apply elem_of_cons in Hin as [Hin|Hin]; [by vm_compute in Hin|]);
  by apply elem_of_nil in Hin.

Ltac in_list :=
  vm_compute; repeat first [by left | right].

Ltac prove_store_fails :=
  first
    [ left; congruence
    | right;
      first [ exists "users"; split; [in_list|congruence]
            | exists "listings"; split; [in_list|congruence]
            | exists "leads"; split; [in_list|congruence]
            | exists "transactions"; split; [in_list|congruence] ] ].

(** One failing outcome of the database. *)
Ltac failure_path :=
  compute_lists;
  split; [by eexists|];
  split;
  [ intros tb Hin Hfail;
    repeat (apply elem_of_cons in Hin as [->|Hin]; [by (congruence || done)|]);
    by apply elem_of_nil in Hin | ];
  split;
  [ intros _; split; [by vm_compute|]; split; [not_in_list|done]
  | intros Hok; destruct Hok; prove_store_fails ].

Lemma load_postgres_log (env : Env) (t : Tables) (w : World) :
  ∃ w' l, load_postgres env t w = (Ok tt, w') ∧ w_log w' = w_log w ++ l ∧
    sql_attempts l `prefix_of` store_tables ∧
    (∀ tb, tb ∈ sql_attempts l → sql_failure env tb ≠ None →
           last (sql_attempts l) = Some tb) ∧
    (store_fails env →
       (length (filter (λ s, s = error_banner) (printed l)) = 1%nat) ∧
       (success_banner ∉ printed l) ∧
       last (printed l) = Some "   You can import them manually into PostgreSQL") ∧
    (¬ store_fails env →
       sql_attempts l = store_tables ∧
       success_banner ∈ printed l ∧ (error_banner ∉ printed l) ∧
       last (printed l) = Some "   4. Build your dashboard!").
Proof.
  run_script_steps.
  destruct (engine_failure env) as [msg|] eqn:Hengine; run_script_steps.
  { finish_log. failure_path. }
  to_sql_step Hu. { finish_log. failure_path. }
  to_sql_step Hl. { finish_log. failure_path. }
  to_sql_step Hle. { finish_log. failure_path. }
  to_sql_step Ht. { finish_log. failure_path. }
  finish_log. compute_lists.
  split; [by eexists|].
  split.
  { intros tb Hin Hfail.
    repeat (apply elem_of_cons in Hin as [->|Hin]; [congruence|]).
    by apply elem_of_nil in Hin. }
  split.
  - intros [He|(tb & Hin & Hfail)]; [congruence|]. unfold store_tables in Hin.
    repeat (apply elem_of_cons in Hin as [->|Hin]; [congruence|]).
    by apply elem_of_nil in Hin.
  - intros _. split; [done|]. split; [in_list|]. split; [not_in_list|done].
Qed.
End LoadFacts.

Section ScriptFacts.
Context `{Binary64} `{RandomLib}.

Ltac in_list :=
  vm_compute; repeat first [by left | right].

#[global] Instance store_extends_refl : Reflexive store_extends.
Proof. intros s tb rows Hs. exists []. by rewrite app_nil_r. Qed.

#[global] Instance store_extends_trans : Transitive store_extends.
Proof.
  intros s1 s2 s3 H12 H23 tb rows Hs.
  destruct (H12 tb rows Hs) as [more1 H1].
  destruct (H23 tb _ H1) as [more2 H2].
  exists (more1 ++ more2). by rewrite app_assoc.
Qed.

#[global] Instance load_step_refl : Reflexive load_step.
Proof.
  intros w. split; [done|]. split; [done|]. exists []. by rewrite app_nil_r.
Qed.

#[global] Instance load_step_trans : Transitive load_step.
Proof.
  intros w1 w2 w3 (Hf1 & Hs1 & l1 & Hl1 & Hp1) (Hf2 & Hs2 & l2 & Hl2 & Hp2).
  split; [congruence|]. split; [by etrans|].
  exists (l1 ++ l2). rewrite Hl2, Hl1, app_assoc.
  split; [done|]. by apply Forall_app.
Qed.

Lemma always_print_load line : always (print line) load_step.
Proof.
  intros w. simpl. split; [done|]. split; [done|]. exists [EvPrint line].
  split; [done|]. repeat constructor. by intros [].
Qed.

Lemma always_to_sql_append (env : Env) (df : DataFrame) (tb engine : string) :
  always (to_sql env df tb engine if_exists_append) load_step.
Proof.
  intros w. rewrite to_sql_append_cases.
  assert (Hlog : Forall (λ ev, ¬ is_csv ev) [EvToSql tb]).
  { repeat constructor. by intros []. }
  destruct (sql_failure env tb); simpl.
  - split; [done|]. split; [done|]. by exists [EvToSql tb].
  - split; [done|]. split; [|by exists [EvToSql tb]].
    intros tb' rows Hrows. simpl. destruct (decide (tb = tb')) as [->|Hne].
    + rewrite lookup_insert_eq, Hrows. by eexists.
    + rewrite lookup_insert_ne by done. exists []. by rewrite app_nil_r.
Qed.

Lemma always_load_postgres (env : Env) (t : Tables) :
  always (load_postgres env t) load_step.
Proof.
  unfold load_postgres, load_body, load_handler, create_engine.
  repeat lazymatch goal with
  | |- always (mbind _ _) _ => apply always_bind; [apply _| |intros ?]
  | |- always (try_except _ _) _ => apply always_try_except; [apply _| |intros ?]
  | |- always (print _) _ => apply always_print_load
  | |- always (to_sql _ _ _ _ _) _ => apply always_to_sql_append
  end.
  destruct (engine_failure env); [apply always_raise|apply always_ret]; apply _.
Qed.

Lemma save_csv_cases (env : Env) (t : Tables) (w : World) :
  (∃ w', save_csv env t w = (Ok tt, w') ∧
     w_files w' =
       <["transactions.csv" := transactions_df t]>
         (<["leads.csv" := leads_df t]>
            (<["listings.csv" := listings_df t]>
               (<["users.csv" := users_df t]> (w_files w)))) ∧
     w_store w' = w_store w ∧
     w_log w' = w_log w ++ csv_events)
  ∨ (∃ e w' l, save_csv env t w = (Raise e, w') ∧
       (∃ p, p ∈ csv_paths ∧ csv_failure env p ≠ None) ∧
       w_store w' = w_store w ∧
       w_log w' = w_log w ++ l ∧ Forall (λ ev, ¬ is_sql ev) l).
Proof.
  cbv beta iota zeta delta
    [save_csv to_csv mbind M_bind mret M_ret print log_event
     w_log w_files w_store w_random w_faker].
  destruct (csv_failure env "users.csv") eqn:H1;
    [|destruct (csv_failure env "listings.csv") eqn:H2;
      [|destruct (csv_failure env "leads.csv") eqn:H3;
        [|destruct (csv_failure env "transactions.csv") eqn:H4]]];
    cbv beta iota zeta delta [w_log w_files w_store w_random w_faker].
  5: { left. eexists. split; [reflexivity|].
       cbv beta iota zeta delta [w_log w_files w_store w_random w_faker].
       split; [done|]. split; [done|]. by rewrite <- !app_assoc. }
  all: right; eexists _, _, _; split; [reflexivity|];
    cbv beta iota zeta delta [w_log w_files w_store w_random w_faker];
    (split;
     [first [ exists "users.csv"; split; [in_list|congruence]
            | exists "listings.csv"; split; [in_list|congruence]
            | exists "leads.csv"; split; [in_list|congruence]
            | exists "transactions.csv"; split; [in_list|congruence] ]|]);
    split; [done|]; rewrite <- ?app_assoc; cbn [app]; split; [reflexivity|];
    repeat constructor; by intros [].
Qed.

Lemma main_generate_raises (cfg : Config) (env : Env) (w : World) e w1 :
  generate cfg env w = (Raise e, w1) → main cfg env w = (Raise e, w1).
Proof. intros Hgen. unfold main. by rewrite (bind_Raise _ _ _ _ _ Hgen). Qed.

Lemma main_save_csv_raises (cfg : Config) (env : Env) (w : World) t w1 e w2 :
  generate cfg env w = (Ok t, w1) → save_csv env t w1 = (Raise e, w2) →
  main cfg env w = (Raise e, w2).
Proof.
  intros Hgen Hcsv. unfold main. rewrite (bind_Ok _ _ _ _ _ Hgen).
  by rewrite (bind_Raise _ _ _ _ _ Hcsv).
Qed.

Lemma main_reaches_load (cfg : Config) (env : Env) (w : World) t w1 w2 :
  generate cfg env w = (Ok t, w1) → save_csv env t w1 = (Ok tt, w2) →
  main cfg env w = load_postgres env t w2.
Proof.
  intros Hgen Hcsv. unfold main. rewrite (bind_Ok _ _ _ _ _ Hgen).
  by rewrite (bind_Ok _ _ _ _ _ Hcsv).
Qed.
End ScriptFacts.

Lemma split_after_prefix {A} (a b pre post : list A) (x : A) :
  x ∉ a → pre ++ x :: post = a ++ b →
  ∃ b1, pre = a ++ b1 ∧ b = b1 ++ x :: post.
Proof.
  revert pre. induction a as [|y a IH]; intros pre Hx Heq.
  - by exists pre.
  - apply not_elem_of_cons in Hx as [Hxy Hx]. destruct pre as [|z pre].
    + simpl in Heq. injection Heq as -> _. done.
    + simpl in Heq. injection Heq as -> Heq.
      destruct (IH pre Hx Heq) as (b1 & -> & ->). by exists b1.
Qed.

Lemma no_sql_export_precedes (l : list event) :
  Forall (λ ev, ¬ is_sql ev) l → export_precedes_store l.
Proof.
  intros Hl pre tb post ->. apply Forall_app in Hl as [_ Hl].
  apply Forall_cons in Hl as [Hl _]. by destruct Hl.
Qed.

Lemma export_precedes_app (a b : list event) :
  Forall (λ ev, ¬ is_sql ev) a → (∀ f, f ∈ csv_paths → EvToCsv f ∈ a) →
  Forall (λ ev, ¬ is_csv ev) b → export_precedes_store (a ++ b).
Proof.
  intros Ha Hcsv Hb pre tb post Heq.
  assert (Hnot : EvToSql tb ∉ a).
  { intros Hin. rewrite Forall_forall in Ha. by apply (Ha _ Hin). }
  destruct (split_after_prefix a b pre post _ Hnot (eq_sym Heq)) as (b1 & -> & ->).
  split.
  - intros f Hf. apply elem_of_app. left. by apply Hcsv.
  - intros f Hin. rewrite Forall_forall in Hb. apply (Hb (EvToCsv f)); [|done].
    apply elem_of_app. right. by right.
Qed.

Lemma is_print_not_sql (l : list event) :
  Forall is_print l → Forall (λ ev, ¬ is_sql ev) l.
Proof. intros Hl. eapply Forall_impl; [exact Hl|]. by intros [] ? ?. Qed.

Section ScriptProperties.
Context `{Binary64} `{RandomLib}.

Ltac in_list :=
  vm_compute; repeat first [by left | right].

(** The files a run leaves behind are those of its first two phases. *)
Lemma files_after_main (cfg : Config) (env : Env) (w : World) :
  w_files (main cfg env w).2 =
  w_files ((generate cfg env ≫= save_csv env) w).2.
Proof.
  destruct (generate cfg env w) as [[t|e] w1] eqn:Hgen.
  - rewrite (bind_Ok _ _ _ _ _ Hgen).
    destruct (save_csv env t w1) as [[[]|e] w2] eqn:Hcsv.
    + rewrite (main_reaches_load _ _ _ _ _ _ Hgen Hcsv).
      apply (always_load_postgres env t w2).
    + by rewrite (main_save_csv_raises _ _ _ _ _ _ _ Hgen Hcsv).
  - by rewrite (main_generate_raises _ _ _ _ _ Hgen), (bind_Raise _ _ _ _ _ Hgen).
Qed.

Lemma run_script_world (cfg : Config) (env : Env) (w : World) :
  (run_script cfg env w).2 = (main cfg env w).2.
Proof. unfold run_script. by destruct (main cfg env w) as [[[]|e] w']. Qed.

(** C8: in every run [to_sql] is called only after the four CSV files
    have been written; every table of the store keeps the rows it had,
    followed by the appended ones; and the files the run leaves behind do
    not depend on what the database does. *)
Theorem export_completes_before_additive_store_append
    (cfg : Config) (env : Env) (w : World) :
  (∃ l, w_log (run_script cfg env w).2 = w_log w ++ l ∧ export_precedes_store l) ∧
  store_extends (w_store w) (w_store (run_script cfg env w).2) ∧
  (∀ ef sf, w_files (run_script cfg (with_store_outcome env ef sf) w).2
            = w_files (run_script cfg env w).2) ∧
  (∀ t w1, w_files (load_postgres env t w1).2 = w_files w1 ∧
           store_extends (w_store w1) (w_store (load_postgres env t w1).2)).
Proof.
  split; [|split; [|split]].
  - rewrite run_script_world.
    destruct (always_generate cfg env w) as (_ & _ & l1 & Hl1 & Hp1).
    destruct (generate cfg env w) as [[t|e] w1] eqn:Hgen; simpl in *.
    + destruct (save_csv_cases env t w1)
        as [(w2 & Hcsv & _ & _ & Hl2)|(e & w2 & l2 & Hcsv & _ & _ & Hl2 & Hp2)].
      * rewrite (main_reaches_load _ _ _ _ _ _ Hgen Hcsv).
        destruct (always_load_postgres env t w2) as (_ & _ & l3 & Hl3 & Hp3).
        eexists. rewrite Hl3, Hl2, Hl1, <- !app_assoc. split; [done|].
        rewrite app_assoc. apply export_precedes_app; [| |done].
        -- apply Forall_app. split; [by apply is_print_not_sql|].
           repeat constructor; by intros [].
        -- intros f Hf. apply elem_of_app. right. unfold csv_paths in Hf.
           repeat (apply elem_of_cons in Hf as [->|Hf]; [in_list|]).
           by apply elem_of_nil in Hf.
      * rewrite (main_save_csv_raises _ _ _ _ _ _ _ Hgen Hcsv). simpl.
        eexists. rewrite Hl2, Hl1, <- !app_assoc. split; [done|].
        apply no_sql_export_precedes, Forall_app.
        split; [by apply is_print_not_sql|done].
    + rewrite (main_generate_raises _ _ _ _ _ Hgen). simpl.
      exists l1. split; [done|].
      by apply no_sql_export_precedes, is_print_not_sql.
  - rewrite run_script_world.
    destruct (always_generate cfg env w) as (_ & Hs1 & _).
    destruct (generate cfg env w) as [[t|e] w1] eqn:Hgen; simpl in *.
    + destruct (save_csv_cases env t w1)
        as [(w2 & Hcsv & _ & Hs2 & _)|(e & w2 & l2 & Hcsv & _ & Hs2 & _)].
      * rewrite (main_reaches_load _ _ _ _ _ _ Hgen Hcsv).
        destruct (always_load_postgres env t w2) as (_ & Hs3 & _).
        by rewrite <- Hs1, <- Hs2.
      * rewrite (main_save_csv_raises _ _ _ _ _ _ _ Hgen Hcsv). simpl.
        by rewrite Hs2, Hs1.
    + rewrite (main_generate_raises _ _ _ _ _ Hgen). simpl. by rewrite Hs1.
  - intros ef sf. rewrite !run_script_world, !files_after_main. reflexivity.
  - intros t w1. destruct (always_load_postgres env t w1) as (Hf & Hs & _).
    done.
Qed.

(** C9: when generation and the CSV step succeed, the run ends with exit
    status 0 whatever the database does.  No table is tried twice, no
    table is tried after a failure, and a failure prints the error banner
    exactly once and never the success banner. *)
Theorem store_failure_is_caught_once_at_top_level
    (cfg : Config) (env : Env) (w : World) :
  valid_config cfg → clock_monotone env →
  (∀ p, p ∈ csv_paths → csv_failure env p = None) →
  ∃ w' l0 l,
    run_script cfg env w = (0, w') ∧
    w_log w' = w_log w ++ l0 ++ l ∧
    Forall (λ ev, ¬ is_sql ev) l0 ∧
    NoDup (sql_attempts l) ∧
    sql_attempts l `prefix_of` store_tables ∧
    (∀ tb, tb ∈ sql_attempts l → sql_failure env tb ≠ None →
           last (sql_attempts l) = Some tb) ∧
    (store_fails env →
       (length (filter (λ s, s = error_banner) (printed l)) = 1%nat) ∧
       (success_banner ∉ printed l) ∧
       last (printed l) = Some "   You can import them manually into PostgreSQL") ∧
    (¬ store_fails env →
       sql_attempts l = store_tables ∧
       success_banner ∈ printed l ∧ (error_banner ∉ printed l) ∧
       last (printed l) = Some "   4. Build your dashboard!").
Proof.
  intros Hcfg Hclock Hcsv.
  destruct (generate_ok cfg env Hcfg Hclock w)
    as (t & w1 & Hgen & _ & _ & _ & l1 & Hl1 & Hp1).
  destruct (save_csv_cases env t w1)
    as [(w2 & Hsave & _ & _ & Hl2)|(e & w2 & l2 & _ & (p & Hp & Hfail) & _)];
    [|by destruct Hfail; apply Hcsv].
  destruct (load_postgres_log env t w2)
    as (w3 & l3 & Hload & Hl3 & Hprefix & Hlast & Hfails & Hok).
  exists w3, (l1 ++ csv_events), l3. split.
  { unfold run_script.
    by rewrite (main_reaches_load _ _ _ _ _ _ Hgen Hsave), Hload. }
  split; [rewrite Hl3, Hl2, Hl1, <- !app_assoc; reflexivity|].
  split.
  { apply Forall_app. split; [by apply is_print_not_sql|].
    repeat constructor; by intros []. }
  split; [|exact (conj Hprefix (conj Hlast (conj Hfails Hok)))].
  destruct Hprefix as [k Hk].
  assert (Hnd : NoDup store_tables) by (apply (bool_decide_unpack _); by vm_compute).
  rewrite Hk in Hnd. by apply NoDup_app in Hnd as [Hnd _].
Qed.

Lemma Forall2_range_cons {A} (P : Z → A → Prop) (n : Z) (l : list A) :
  1 ≤ n → Forall2 P (range 1 (n + 1)) l → ∃ r l', l = r :: l' ∧ P 1 r.
Proof.
  intros Hn. rewrite range_1_succ, seqZ_cons by lia.
  intros Hall. apply Forall2_cons_inv_l in Hall as (r & l' & Hr & _ & ->).
  by exists r, l'.
Qed.

Lemma print_faker (line : string) (w w' : World) a :
  print line w = (Ok a, w') → w_faker w = w_faker w'.
Proof. by intros [= _ <-]. Qed.

Lemma with_faker_Ok_inv {A} (f : rng → option (A * rng)) (w w' : World) (a : A) :
  with_faker f w = (Ok a, w') → ∃ s, f (w_faker w) = Some (a, s).
Proof.
  unfold with_faker. destruct (f (w_faker w)) as [[a' s]|]; [|done].
  intros [= -> _]. by exists s.
Qed.

(** The first user's signup date is the first date Faker's generator
    yields; the seed of the [random] module has no part in it. *)
Lemma generate_first_signup_date (cfg : Config) (env : Env) (w w' : World)
    (t : Tables) (d : date) (s : rng) :
  1 ≤ NUM_USERS cfg →
  generate cfg env w = (Ok t, w') →
  date_between (datetime_date (START_DATE env)) (datetime_date (END_DATE env))
    (w_faker w) = Some (d, s) →
  ∃ r rest, users_data t = r :: rest ∧ User.signup_date r = d.
Proof.
  intros Hn Hgen Hdate. unfold generate in Hgen.
  apply bind_Ok_inv in Hgen as (? & w1 & Hseed & Hgen).
  assert (Hf : w_faker w1 = w_faker w) by by injection Hseed as _ <-.
  clear Hseed.
  do 3 (apply bind_Ok_inv in Hgen as (? & ?w & Hprint & Hgen);
        apply print_faker in Hprint; rewrite Hprint in Hf; clear Hprint).
  apply bind_Ok_inv in Hgen as (users & wu & Husers & Hgen).
  assert (Ht : users_data t = users).
  { repeat (apply bind_Ok_inv in Hgen as (? & ? & _ & Hgen)).
    by injection Hgen as <- _. }
  rewrite Ht. clear Hgen Ht.
  rewrite range_1_succ, seqZ_cons in Husers by lia.
  cbn [for_each] in Husers.
  apply bind_Ok_inv in Husers as (r & wr & Hrow & Husers).
  apply bind_Ok_inv in Husers as (rest & wrest & _ & Husers).
  injection Husers as <- _. exists r, rest. split; [done|].
  unfold gen_user in Hrow.
  apply bind_Ok_inv in Hrow as (d' & wd & Hd & Hrow).
  apply with_faker_Ok_inv in Hd as [s' Hd].
  rewrite Hf, Hdate in Hd. injection Hd as <- _.
  repeat (apply bind_Ok_inv in Hrow as (? & ? & _ & Hrow)).
  by injection Hrow as <- _.
Qed.

Lemma deterministic_ret {A} (a : A) : deterministic (mret a).
Proof. by intros w1 w2 Hw. Qed.

Lemma deterministic_raise {A} (e : exn) : deterministic (raise (A:=A) e).
Proof. by intros w1 w2 Hw. Qed.

Lemma deterministic_bind {A B} (m : M A) (k : A → M B) :
  deterministic m → (∀ a, deterministic (k a)) → deterministic (m ≫= k).
Proof.
  intros Hm Hk w1 w2 Hw. destruct (Hm w1 w2 Hw) as [Ho Hw']. unfold mbind, M_bind.
  destruct (m w1) as [[a1|e1] w1'], (m w2) as [[a2|e2] w2']; simpl in *; try done.
  - injection Ho as ->. by apply Hk.
  - by injection Ho as ->.
Qed.

Lemma deterministic_for_each {A B} (body : A → M B) (l : list A) :
  (∀ i, deterministic (body i)) → deterministic (for_each body l).
Proof.
  intros Hbody. induction l as [|i l IH]; simpl; [apply deterministic_ret|].
  apply deterministic_bind; [apply Hbody|]. intros row.
  apply deterministic_bind; [apply IH|]. intros rows. apply deterministic_ret.
Qed.

Lemma deterministic_print line : deterministic (print line).
Proof. by intros w1 w2 Hw. Qed.

Lemma deterministic_with_random {A} (f : rng → option (A * rng)) :
  deterministic (with_random f).
Proof.
  intros w1 w2 [Hr Hf]. unfold with_random. rewrite Hr.
  by destruct (f (w_random w2)) as [[a s]|].
Qed.

Lemma deterministic_with_faker {A} (f : rng → option (A * rng)) :
  deterministic (with_faker f).
Proof.
  intros w1 w2 [Hr Hf]. unfold with_faker. rewrite Hf.
  by destruct (f (w_faker w2)) as [[a s]|].
Qed.

Lemma deterministic_item0 {A} (xs : list A) : deterministic (item0 xs).
Proof. destruct xs; [apply deterministic_raise|apply deterministic_ret]. Qed.

Lemma deterministic_dict_get {V} (d : gmap string V) k : deterministic (dict_get d k).
Proof.
  unfold dict_get. destruct (d !! k); [apply deterministic_ret|apply deterministic_raise].
Qed.

Ltac deterministic_steps :=
  repeat lazymatch goal with
  | |- deterministic (mbind _ _) => apply deterministic_bind; [|intros ?]
  | |- deterministic (mret _) => apply deterministic_ret
  | |- deterministic (print _) => apply deterministic_print
  | |- deterministic (with_random _) => apply deterministic_with_random
  | |- deterministic (with_faker _) => apply deterministic_with_faker
  | |- deterministic (item0 _) => apply deterministic_item0
  | |- deterministic (dict_get _ _) => apply deterministic_dict_get
  | |- deterministic (for_each _ _) => apply deterministic_for_each; intros ?
  end.

(** What does hold: the tables are a function of the seed, the
    configuration, the two clock readings and the state of Faker's
    generator.  Files, store, log and the former state of the [random]
    module have no influence. *)
Lemma tables_determined_by_faker_state (cfg : Config) (env : Env) (w1 w2 : World) :
  w_faker w1 = w_faker w2 →
  (generate cfg env w1).1 = (generate cfg env w2).1.
Proof.
  intros Hf. unfold generate.
  rewrite !(bind_Ok (random_seed (SEED cfg)) _ _ tt _ eq_refl).
  match goal with
  | |- (?m ?a).1 = (?m ?b).1 =>
      assert (Hm : deterministic m); [|by apply (Hm a b)]
  end.
  unfold gen_user, gen_listing, gen_lead, gen_transaction, fake_date_between.
  deterministic_steps. case_decide; deterministic_steps.
Qed.

(** C2 (the code departs from it): two runs with the same seed, the same
    configuration and the same clock produce different users tables as
    soon as Faker's generator, which the script never seeds, starts in
    two states whose first dates differ. *)
Theorem same_seed_runs_differ_with_faker_state
    (cfg : Config) (env : Env) (w : World) (f1 f2 : rng) (d1 d2 : date)
    (s1 s2 : rng) :
  valid_config cfg → clock_monotone env →
  date_between (datetime_date (START_DATE env)) (datetime_date (END_DATE env)) f1
    = Some (d1, s1) →
  date_between (datetime_date (START_DATE env)) (datetime_date (END_DATE env)) f2
    = Some (d2, s2) →
  d1 ≠ d2 →
  ∃ t1 t2 w1' w2',
    generate cfg env (with_faker_state w f1) = (Ok t1, w1') ∧
    generate cfg env (with_faker_state w f2) = (Ok t2, w2') ∧
    users_data t1 ≠ users_data t2 ∧ users_df t1 ≠ users_df t2.
Proof.
  intros Hcfg Hclock Hd1 Hd2 Hne.
  destruct (generate_ok cfg env Hcfg Hclock (with_faker_state w f1))
    as (t1 & w1' & Hgen1 & _).
  destruct (generate_ok cfg env Hcfg Hclock (with_faker_state w f2))
    as (t2 & w2' & Hgen2 & _).
  exists t1, t2, w1', w2'. split; [done|]. split; [done|].
  destruct Hcfg as [Hn _].
  destruct (generate_first_signup_date _ _ _ _ _ _ _ Hn Hgen1 Hd1)
    as (r1 & rest1 & Hu1 & Hr1).
  destruct (generate_first_signup_date _ _ _ _ _ _ _ Hn Hgen2 Hd2)
    as (r2 & rest2 & Hu2 & Hr2).
  split.
  - rewrite Hu1, Hu2. intros [= -> _]. congruence.
  - unfold users_df. rewrite Hu1, Hu2. intros Heq.
    apply (f_equal (λ df, values df !! 0%nat ≫= (.!! 1%nat))) in Heq.
    simpl in Heq. congruence.
Qed.

(** C7 (as amended): the four files are named after their tables and,
    for tables with at least one row, start with the column names the
    script uses, which are the attribute names of the data model under
    the renaming [column_of_attribute]; no other file is touched. *)
Theorem csv_files_named_by_table_with_code_headers
    (cfg : Config) (env : Env) (w : World) :
  valid_config cfg → 1 ≤ NUM_LEADS cfg → 1 ≤ NUM_TRANSACTIONS cfg →
  clock_monotone env →
  (∀ p, p ∈ csv_paths → csv_failure env p = None) →
  ∃ w' users listings leads transactions,
    run_script cfg env w = (0, w') ∧
    csv_paths = (λ tb, tb +:+ ".csv") <$> store_tables ∧
    w_files w' !! "users.csv" = Some users ∧
    w_files w' !! "listings.csv" = Some listings ∧
    w_files w' !! "leads.csv" = Some leads ∧
    w_files w' !! "transactions.csv" = Some transactions ∧
    columns users = ["user_id"; "signup_date"; "emirate"; "user_type"] ∧
    columns listings =
      ["listing_id"; "user_id"; "category"; "emirate"; "price"; "created_date";
       "status"] ∧
    columns leads = ["lead_id"; "listing_id"; "user_id"; "lead_date"] ∧
    columns transactions =
      ["transaction_id"; "user_id"; "amount"; "transaction_date";
       "transaction_type"] ∧
    columns users = column_of_attribute "users" <$> spec_attributes "users" ∧
    columns listings = column_of_attribute "listings" <$> spec_attributes "listings" ∧
    columns leads = column_of_attribute "leads" <$> spec_attributes "leads" ∧
    columns transactions
      = column_of_attribute "transactions" <$> spec_attributes "transactions" ∧
    (∀ p, p ∉ csv_paths → w_files w' !! p = w_files w !! p).
Proof.
  intros Hcfg Hleads Htrans Hclock Hcsv.
  destruct (generate_ok cfg env Hcfg Hclock w)
    as (t & w1 & Hgen & (Hu & Hl & Hle & Ht) & Hf1 & _).
  destruct (save_csv_cases env t w1)
    as [(w2 & Hsave & Hf2 & _)|(e & w2 & l2 & _ & (p & Hp & Hfail) & _)];
    [|by destruct Hfail; apply Hcsv].
  destruct (load_postgres_log env t w2) as (w3 & l3 & Hload & _).
  pose proof (always_load_postgres env t w2) as (Hf3 & _).
  rewrite Hload in Hf3. simpl in Hf3.
  destruct Hcfg as [Hnu Hnl].
  destruct (Forall2_range_cons _ _ _ Hnu Hu) as (ru & ? & Hru & _).
  destruct (Forall2_range_cons _ _ _ Hnl Hl) as (rl & ? & Hrl & _).
  destruct (Forall2_range_cons _ _ _ Hleads Hle) as (rle & ? & Hrle & _).
  destruct (Forall2_range_cons _ _ _ Htrans Ht) as (rt & ? & Hrt & _).
  exists w3, (users_df t), (listings_df t), (leads_df t), (transactions_df t).
  split.
  { unfold run_script.
    by rewrite (main_reaches_load _ _ _ _ _ _ Hgen Hsave), Hload. }
  split; [done|].
  rewrite Hf3, Hf2, Hf1.
  split; [by rewrite !lookup_insert_ne, lookup_insert_eq by done|].
  split; [by rewrite !lookup_insert_ne, lookup_insert_eq by done|].
  split; [by rewrite !lookup_insert_ne, lookup_insert_eq by done|].
  split; [by rewrite lookup_insert_eq|].
  unfold users_df, listings_df, leads_df, transactions_df.
  rewrite Hru, Hrl, Hrle, Hrt.
  repeat (split; [done|]).
  intros p Hp. unfold csv_paths in Hp.
  rewrite !not_elem_of_cons in Hp. destruct Hp as (? & ? & ? & ? & _).
  by rewrite !lookup_insert_ne by done.
Qed.
End ScriptProperties.

(** * Further properties of the script *)

(** ** Rows of the four loops *)

Section RowProperties.
Context `{Binary64} `{RandomLib}.

Lemma generate_tables (cfg : Config) (env : Env) (w : World) :
  valid_config cfg → clock_monotone env →
  ∃ t w1, generate cfg env w = (Ok t, w1) ∧ tables_ok cfg env t ∧ quiet w w1.
Proof.
  intros Hcfg Hclock.
  destruct (generate_ok cfg env Hcfg Hclock w) as (t & w1 & Hgen & Hok & Hq).
  by exists t, w1.
Qed.

Lemma unique_row_with_id {A} (f : A → Z) (l : list A) (n id : Z) :
  f <$> l = seqZ 1 n → 1 ≤ id ≤ n →
  ∃ r, r ∈ l ∧ f r = id ∧ filter (λ x, f x = id) l = [r].
Proof.
  intros Hids Hid.
  assert (Hin : id ∈ f <$> l) by (rewrite Hids, elem_of_seqZ; lia).
  apply list_elem_of_fmap in Hin as (r & -> & Hr).
  exists r. split; [done|]. split; [done|].
  apply filter_unique_key; [|done]. rewrite Hids. apply NoDup_seqZ.
Qed.

Lemma user_ids_of_tables (cfg : Config) (env : Env) (t : Tables) :
  tables_ok cfg env t → User.user_id <$> users_data t = seqZ 1 (NUM_USERS cfg).
Proof.
  intros (Hu & _). rewrite <- range_1_succ.
  eapply Forall2_key_fmap; [|exact Hu]. by intros k a (-> & _).
Qed.

(** X1: every user signs up inside the window [START_DATE, END_DATE], in
    one of the seven emirates, as buyer, seller or agent. *)
Theorem users_are_well_formed (cfg : Config) (env : Env) (w : World) :
  valid_config cfg → clock_monotone env →
  ∃ t w', generate cfg env w = (Ok t, w') ∧
    ∀ u, u ∈ users_data t →
      datetime_date (START_DATE env) ≤ User.signup_date u
        ≤ datetime_date (END_DATE env) ∧
      User.emirate u ∈ EMIRATES ∧
      User.user_type u ∈ USER_TYPES.
Proof.
  intros Hcfg Hclock.
  destruct (generate_tables cfg env w Hcfg Hclock) as (t & w' & Hgen & (Hu & _) & _).
  exists t, w'. split; [done|]. intros u Hin.
  by destruct (Forall2_elem_r _ _ _ _ Hu Hin) as (i & _ & _ & ? & ? & ?).
Qed.

(** X2: every listing has one of the six categories, one of the seven
    emirates, a status among active, sold and expired, and a creation date
    inside the window. *)
Theorem listings_are_well_formed (cfg : Config) (env : Env) (w : World) :
  valid_config cfg → clock_monotone env →
  ∃ t w', generate cfg env w = (Ok t, w') ∧
    ∀ l, l ∈ listings_data t →
      Listing.category l ∈ CATEGORIES ∧
      Listing.emirate l ∈ EMIRATES ∧
      Listing.status l ∈ ["active"; "sold"; "expired"] ∧
      datetime_date (START_DATE env) ≤ Listing.created_date l
        ≤ datetime_date (END_DATE env).
Proof.
  intros Hcfg Hclock.
  destruct (generate_tables cfg env w Hcfg Hclock) as (t & w' & Hgen & (_ & Hl & _) & _).
  exists t, w'. split; [done|]. intros l Hin.
  by destruct (Forall2_elem_r _ _ _ _ Hl Hin) as (i & _ & _ & _ & ? & ? & _ & ? & ?).
Qed.

(** X5: every lead names a listing id in 1..NUM_LISTINGS and a user id in
    1..NUM_USERS, and is dated inside the window. *)
Theorem leads_are_well_formed (cfg : Config) (env : Env) (w : World) :
  valid_config cfg → clock_monotone env →
  ∃ t w', generate cfg env w = (Ok t, w') ∧
    ∀ lead, lead ∈ leads_data t →
      1 ≤ Lead.listing_id lead ≤ NUM_LISTINGS cfg ∧
      1 ≤ Lead.user_id lead ≤ NUM_USERS cfg ∧
      datetime_date (START_DATE env) ≤ Lead.lead_date lead
        ≤ datetime_date (END_DATE env).
Proof.
  intros Hcfg Hclock.
  destruct (generate_tables cfg env w Hcfg Hclock)
    as (t & w' & Hgen & (_ & Hl & Hle & _) & _).
  exists t, w'. split; [done|]. intros lead Hin.
  destruct (Forall2_elem_r _ _ _ _ Hle Hin)
    as (i & _ & _ & Hlid & Huid & created & Hhead & Hdate).
  split; [done|]. split; [done|].
  destruct (created_dates_of_listing cfg env _ _ Hl Hlid)
    as (r & Hr & _ & _ & Hdates & _).
  rewrite Hdates in Hhead. injection Hhead as <-.
  destruct (Forall2_elem_r _ _ _ _ Hl Hr) as (k & _ & _ & _ & _ & _ & _ & Hcreated & _).
  lia.
Qed.

(** X6: every transaction names a user id in 1..NUM_USERS, is dated inside
    the window, is a subscription or a featured listing, and its amount is
    an int among the four tiers or a float that is a whole number of
    hundredths between 100.00 and 500.00. *)
Theorem transactions_are_well_formed (cfg : Config) (env : Env) (w : World) :
  valid_config cfg → clock_monotone env →
  ∃ t w', generate cfg env w = (Ok t, w') ∧
    ∀ tr, tr ∈ transactions_data t →
      1 ≤ Transaction.user_id tr ≤ NUM_USERS cfg ∧
      datetime_date (START_DATE env) ≤ Transaction.transaction_date tr
        ≤ datetime_date (END_DATE env) ∧
      Transaction.transaction_type tr ∈ ["subscription"; "featured_listing"] ∧
      ((∃ n, Transaction.amount tr = PyInt n ∧ 500 ≤ n ≤ 5000) ∨
       (∃ cents, Transaction.amount tr = PyFloat (rnd (inject_Z cents / inject_Z 100)) ∧
                 10000 ≤ cents ≤ 50000)).
Proof.
  intros Hcfg Hclock.
  destruct (generate_tables cfg env w Hcfg Hclock)
    as (t & w' & Hgen & (_ & _ & _ & Ht) & _).
  exists t, w'. split; [done|]. intros tr Hin.
  destruct (Forall2_elem_r _ _ _ _ Ht Hin) as (i & _ & _ & Huid & Hdate & Hkind).
  split; [done|]. split; [done|].
  destruct Hkind as [(Hty & n & Hn & Ha)|(Hty & x & u & Hu1 & Hu2 & -> & Ha)];
    rewrite Hty.
  - split; [by left|]. left. exists n. split; [done|].
    repeat (apply elem_of_cons in Hn as [->|Hn]; [lia|]).
    by apply elem_of_nil in Hn.
  - split; [by right; left|]. right.
    unfold float_of_int in Hu1, Hu2.
    rewrite (rnd_int 100) in Hu1 by lia. rewrite (rnd_int 500) in Hu2 by lia.
    exists (round_half_even (u * inject_Z 100)). split; [done|]. split.
    + apply round_half_even_ge. change (inject_Z 10000) with (inject_Z 100 * inject_Z 100)%Q.
      by apply Qmult_le_compat_r.
    + apply round_half_even_le. change (inject_Z 50000) with (inject_Z 500 * inject_Z 100)%Q.
      by apply Qmult_le_compat_r.
Qed.

(** X7: the user id of every listing, lead and transaction is the id of
    exactly one row of the users table. *)
Theorem user_references_resolve (cfg : Config) (env : Env) (w : World) :
  valid_config cfg → clock_monotone env →
  ∃ t w', generate cfg env w = (Ok t, w') ∧
    (∀ l, l ∈ listings_data t →
       ∃ u, filter (λ x, User.user_id x = Listing.user_id l) (users_data t) = [u]) ∧
    (∀ lead, lead ∈ leads_data t →
       ∃ u, filter (λ x, User.user_id x = Lead.user_id lead) (users_data t) = [u]) ∧
    (∀ tr, tr ∈ transactions_data t →
       ∃ u, filter (λ x, User.user_id x = Transaction.user_id tr) (users_data t) = [u]).
Proof.
  intros Hcfg Hclock.
  destruct (generate_tables cfg env w Hcfg Hclock) as (t & w' & Hgen & Hok & _).
  pose proof (user_ids_of_tables cfg env t Hok) as Hids.
  destruct Hok as (_ & Hl & Hle & Ht).
  exists t, w'. split; [done|]. split; [|split].
  - intros l Hin. destruct (Forall2_elem_r _ _ _ _ Hl Hin) as (i & _ & _ & Huid & _).
    destruct (unique_row_with_id _ _ _ _ Hids Huid) as (u & _ & _ & Hfil). by exists u.
  - intros lead Hin.
    destruct (Forall2_elem_r _ _ _ _ Hle Hin) as (i & _ & _ & _ & Huid & _).
    destruct (unique_row_with_id _ _ _ _ Hids Huid) as (u & _ & _ & Hfil). by exists u.
  - intros tr Hin. destruct (Forall2_elem_r _ _ _ _ Ht Hin) as (i & _ & _ & Huid & _).
    destruct (unique_row_with_id _ _ _ _ Hids Huid) as (u & _ & _ & Hfil). by exists u.
Qed.
End RowProperties.

(** ** The range of prices *)

Section PriceProperties.
Context `{Binary64} `{RandomLib}.

Lemma float_round_mono (x y : Q) :
  (x <= y)%Q → (float_round x 2 <= float_round y 2)%Q.
Proof.
  intros Hxy. unfold float_round. cbv zeta.
  change (inject_Z (10 ^ Z.of_N 2)) with (inject_Z 100).
  apply rnd_mono. apply Qmult_le_compat_r; [|done].
  rewrite <- Zle_Qle. apply round_half_even_mono.
  by apply Qmult_le_compat_r.
Qed.

Lemma fmul_mono_r (p x y : Q) :
  (0 <= p)%Q → (x <= y)%Q → (fmul p x <= fmul p y)%Q.
Proof.
  intros Hp Hxy. unfold fmul. apply rnd_mono.
  rewrite !(Qmult_comm p). by apply Qmult_le_compat_r.
Qed.

(** A product of two floats within [0, a] and [0, b], with [a * b] at
    most the integer [n]. *)
Lemma fmul_le (n : Z) (x y a b : Q) :
  Z.abs n ≤ 2 ^ 53 → (0 <= x)%Q → (x <= a)%Q → (0 <= y)%Q → (y <= b)%Q →
  (a * b <= inject_Z n)%Q → (fmul x y <= inject_Z n)%Q.
Proof.
  intros Hn Hx Hxa Hy Hyb Hab. unfold fmul. apply rnd_le_int; [done|].
  eapply Qle_trans; [|exact Hab]. by apply Qmult_le_compat_nonneg.
Qed.

Lemma emirate_multiplier_table_le (e : string) (m : Q) :
  emirate_multiplier_table !! e = Some m → (m <= 21 # 16)%Q.
Proof.
  intros Hm. apply elem_of_list_to_map_2 in Hm.
  assert (Hfix : (rnd (21 # 16) == 21 # 16)%Q)
    by exact (rnd_exact 21 (-4) ltac:(lia) ltac:(lia)).
  repeat (apply elem_of_cons in Hm as [[= _ ->]|Hm];
          [unfold float_lit; rewrite <- Hfix; by apply rnd_mono|]).
  by apply elem_of_nil in Hm.
Qed.

Lemma float_lit_1_5 : (float_lit (15 # 10) == 3 # 2)%Q.
Proof.
  unfold float_lit.
  assert (Heq : (15 # 10 == inject_Z 3 * 2 ^ (-1))%Q) by reflexivity.
  rewrite Heq. exact (rnd_exact 3 (-1) ltac:(lia) ltac:(lia)).
Qed.

Lemma base_times_multiplier_bounds (base : Z) (mult : Q) (c e : string) :
  base_price_table !! c = Some base →
  emirate_multiplier_table !! e = Some mult →
  (inject_Z 400000 <= fmul (float_of_int base) mult)%Q ∧
  (fmul (float_of_int base) mult <= inject_Z 6562500)%Q.
Proof.
  intros Hb Hm. apply base_price_table_bounds in Hb.
  pose proof (emirate_multiplier_table_ge_half _ _ Hm) as Hlo.
  pose proof (emirate_multiplier_table_le _ _ Hm) as Hhi.
  assert (Hb1 : (inject_Z 800000 <= float_of_int base)%Q).
  { unfold float_of_int. apply rnd_ge_int; [lia|]. rewrite <- Zle_Qle. lia. }
  assert (Hb2 : (float_of_int base <= inject_Z 5000000)%Q).
  { unfold float_of_int. apply rnd_le_int; [lia|]. rewrite <- Zle_Qle. lia. }
  split.
  - apply (fmul_ge 400000); [lia|lia|done|done].
  - apply (fmul_le _ _ _ (inject_Z 5000000) (21 # 16)).
    + lia.
    + by apply Qle_trans with (inject_Z 800000).
    + done.
    + by apply Qle_trans with (1 # 2)%Q.
    + done.
    + by vm_compute.
Qed.

(** X3: the price of a listing lies between the rounded products of base
    price and multiplier with 0.7 and with 1.5: from 30 percent below to 50
    percent above the unperturbed price. *)
Theorem listing_price_within_band (cfg : Config) (env : Env) (w : World) :
  valid_config cfg → clock_monotone env →
  ∃ t w', generate cfg env w = (Ok t, w') ∧
    ∀ l, l ∈ listings_data t →
      ∃ base mult,
        base_price_table !! Listing.category l = Some base ∧
        emirate_multiplier_table !! Listing.emirate l = Some mult ∧
        (float_round (fmul (fmul (float_of_int base) mult) (float_lit (7 # 10))) 2
           <= Listing.price l)%Q ∧
        (Listing.price l
           <= float_round (fmul (fmul (float_of_int base) mult) (float_lit (15 # 10))) 2)%Q.
Proof.
  intros Hcfg Hclock.
  destruct (generate_tables cfg env w Hcfg Hclock) as (t & w' & Hgen & (_ & Hl & _) & _).
  exists t, w'. split; [done|]. intros l Hin.
  destruct (Forall2_elem_r _ _ _ _ Hl Hin)
    as (i & _ & _ & _ & _ & _ & (base & mult & u & Hb & Hm & Hu1 & Hu2 & ->) & _).
  exists base, mult. split; [done|]. split; [done|].
  destruct (base_times_multiplier_bounds _ _ _ _ Hb Hm) as [Hp _].
  assert (Hp0 : (0 <= fmul (float_of_int base) mult)%Q).
  { by apply Qle_trans with (inject_Z 400000). }
  split; apply float_round_mono, fmul_mono_r; done.
Qed.

(** X4: every price is between 200,000 and 10,000,000. *)
Theorem listing_price_range (cfg : Config) (env : Env) (w : World) :
  valid_config cfg → clock_monotone env →
  ∃ t w', generate cfg env w = (Ok t, w') ∧
    ∀ l, l ∈ listings_data t →
      (inject_Z 200000 <= Listing.price l)%Q ∧
      (Listing.price l <= inject_Z 10000000)%Q.
Proof.
  intros Hcfg Hclock.
  destruct (generate_tables cfg env w Hcfg Hclock) as (t & w' & Hgen & (_ & Hl & _) & _).
  exists t, w'. split; [done|]. intros l Hin.
  destruct (Forall2_elem_r _ _ _ _ Hl Hin) as (i & _ & Hok).
  split; [by eapply listing_price_lower_bound|].
  destruct Hok as (_ & _ & _ & _ & (base & mult & u & Hb & Hm & Hu1 & Hu2 & ->) & _).
  destruct (base_times_multiplier_bounds _ _ _ _ Hb Hm) as [Hp1 Hp2].
  rewrite float_lit_1_5 in Hu2.
  assert (Hu0 : (0 <= u)%Q).
  { apply Qle_trans with (float_lit (7 # 10)); [|done].
    apply Qle_trans with (1 # 2)%Q; [done|]. unfold float_lit. by apply rnd_ge_half. }
  apply Qle_trans with (inject_Z 9843750); [|by rewrite <- Zle_Qle].
  apply float_round_le_int; [lia|].
  apply (fmul_le _ _ _ (inject_Z 6562500) (3 # 2)).
  - lia.
  - by apply Qle_trans with (inject_Z 400000).
  - done.
  - done.
  - done.
  - by vm_compute.
Qed.
End PriceProperties.

(** ** What the two sinks leave behind *)

Lemma until_failure_app {A} (f : A → option string) (l1 l2 : list A) :
  Forall (λ x, f x = None) l1 →
  match l2 with [] => True | x :: _ => f x ≠ None end →
  until_failure f (l1 ++ l2) = l1.
Proof.
  intros Hl1 Hl2. induction Hl1 as [|x l1 Hx _ IH]; simpl.
  - destruct l2 as [|x l2]; [done|]. simpl. by destruct (f x).
  - by rewrite Hx, IH.
Qed.

Lemma until_failure_ok {A} (f : A → option string) (l : list A) :
  Forall (λ x, f x = None) (until_failure f l).
Proof.
  induction l as [|x l IH]; simpl; [done|].
  destruct (f x) eqn:Hx; [done|]. by constructor.
Qed.

Lemma until_failure_prefix {A} (f : A → option string) (l : list A) :
  until_failure f l `prefix_of` l.
Proof.
  induction l as [|x l IH]; simpl; [done|].
  destruct (f x); [apply prefix_nil|]. by apply prefix_cons.
Qed.

Lemma until_failure_all {A} (f : A → option string) (l : list A) :
  until_failure f l = l ↔ Forall (λ x, f x = None) l.
Proof.
  split.
  - intros <-. apply until_failure_ok.
  - intros Hl. rewrite <- (app_nil_r l) at 1. by apply until_failure_app.
Qed.

Lemma log_of_prints (l : list event) :
  Forall is_print l → csv_writes l = [] ∧ sql_attempts l = [].
Proof.
  induction 1 as [|ev l Hev _ [IH1 IH2]]; [done|].
  destruct ev; try done.
Qed.

Section SinkOutcomes.
Context `{Binary64} `{RandomLib}.

Lemma lookup_files_written (t : Tables) (ps : list string)
    (fs : gmap string DataFrame) (p : string) :
  files_written t fs ps !! p =
    if decide (p ∈ ps) then Some (file_frame t p) else fs !! p.
Proof.
  unfold files_written. revert fs.
  induction ps as [|a ps IH]; intros fs.
  - destruct (decide (p ∈ [])) as [Hin|_]; [|done].
    by apply not_elem_of_nil in Hin.
  - change (foldl ?f fs (a :: ps)) with (foldl f (f fs a) ps). rewrite IH.
    destruct (decide (p ∈ ps)) as [Hin|Hnotin];
      destruct (decide (p ∈ a :: ps)) as [Hin'|Hnotin']; try done.
    + exfalso. apply Hnotin'. by right.
    + apply elem_of_cons in Hin' as [->|?]; [|done].
      by rewrite lookup_insert_eq.
    + rewrite lookup_insert_ne; [done|].
      intros ->. apply Hnotin'. by left.
Qed.

Lemma lookup_tables_appended (t : Tables) (tbs : list string)
    (s : gmap string (list (list cell))) (tb : string) :
  NoDup tbs →
  tables_appended t s tbs !! tb =
    if decide (tb ∈ tbs)
    then Some (default [] (s !! tb) ++ values (table_frame t tb))
    else s !! tb.
Proof.
  unfold tables_appended. revert s.
  induction tbs as [|a tbs IH]; intros s Hnd.
  - destruct (decide (tb ∈ [])) as [Hin|_]; [|done].
    by apply not_elem_of_nil in Hin.
  - apply NoDup_cons in Hnd as [Ha Hnd].
    change (foldl ?f s (a :: tbs)) with (foldl f (f s a) tbs).
    rewrite IH by done.
    destruct (decide (tb ∈ tbs)) as [Hin|Hnotin];
      destruct (decide (tb ∈ a :: tbs)) as [Hin'|Hnotin'].
    + rewrite lookup_insert_ne; [done|]. by intros ->.
    + exfalso. apply Hnotin'. by right.
    + apply elem_of_cons in Hin' as [->|?]; [|done].
      by rewrite lookup_insert_eq.
    + rewrite lookup_insert_ne; [done|].
      intros ->. apply Hnotin'. by left.
Qed.

Ltac sink_steps :=
  cbv beta iota zeta delta
    [save_csv to_csv mbind M_bind mret M_ret print log_event raise try_except
     create_engine load_body load_handler load_postgres
     w_log w_files w_store w_random w_faker].

(** The CSV step writes the files in order and stops at the first one
    that fails. *)
Lemma save_csv_outcome (env : Env) (t : Tables) (w : World) :
  ∃ o w' written rest l,
    save_csv env t w = (o, w') ∧
    csv_paths = written ++ rest ∧
    Forall (λ p, csv_failure env p = None) written ∧
    match rest with
    | [] => o = Ok tt
    | p :: _ => csv_failure env p ≠ None ∧ ∃ e, o = Raise e
    end ∧
    w_files w' = files_written t (w_files w) written ∧
    w_store w' = w_store w ∧
    w_log w' = w_log w ++ l ∧ csv_writes l = written ∧ sql_attempts l = [].
Proof.
  sink_steps.
  destruct (csv_failure env "users.csv") eqn:H1;
    [|destruct (csv_failure env "listings.csv") eqn:H2;
      [|destruct (csv_failure env "leads.csv") eqn:H3;
        [|destruct (csv_failure env "transactions.csv") eqn:H4]]];
    sink_steps.
  - eexists _, _, [], csv_paths, _. split; [reflexivity|]. sink_steps.
    split; [done|]. split; [done|].
    split; [split; [congruence|by eexists]|].
    split; [done|]. split; [done|]. by split.
  - eexists _, _, ["users.csv"], (tail csv_paths), _. split; [reflexivity|]. sink_steps.
    split; [done|]. split; [by repeat constructor|].
    split; [split; [simpl; congruence|by eexists]|].
    split; [done|]. split; [done|].
    rewrite <- !app_assoc. by split.
  - eexists _, _, ["users.csv"; "listings.csv"], (drop 2 csv_paths), _.
    split; [reflexivity|]. sink_steps.
    split; [done|]. split; [by repeat constructor|].
    split; [split; [simpl; congruence|by eexists]|].
    split; [done|]. split; [done|].
    rewrite <- !app_assoc. by split.
  - eexists _, _, ["users.csv"; "listings.csv"; "leads.csv"], (drop 3 csv_paths), _.
    split; [reflexivity|]. sink_steps.
    split; [done|]. split; [by repeat constructor|].
    split; [split; [simpl; congruence|by eexists]|].
    split; [done|]. split; [done|].
    rewrite <- !app_assoc. by split.
  - eexists _, _, csv_paths, [], _. split; [reflexivity|]. sink_steps.
    split; [done|]. split; [by repeat constructor|].
    split; [done|].
    split; [done|]. split; [done|].
    rewrite <- !app_assoc. by split.
Qed.

Ltac sql_step H :=
  rewrite to_sql_append_cases;
  match goal with
  | |- context [sql_failure ?env ?tb] =>
      destruct (sql_failure env tb) as [?msg|] eqn:H
  end;
  sink_steps.

Ltac name_lists :=
  repeat match goal with
  | |- context [format_comma ?n] => generalize (format_comma n); intros ?
  end;
  repeat match goal with
  | |- context [sql_attempts ?l] =>
      let v := eval vm_compute in (sql_attempts l) in
      let E := fresh "E" in
      assert (E : sql_attempts l = v) by (vm_compute; reflexivity);
      rewrite !E; clear E
  | |- context [printed ?l] =>
      let v := eval vm_compute in (printed l) in
      let E := fresh "E" in
      assert (E : printed l = v) by (vm_compute; reflexivity);
      rewrite !E; clear E
  | |- context [csv_writes ?l] =>
      let v := eval vm_compute in (csv_writes l) in
      let E := fresh "E" in
      assert (E : csv_writes l = v) by (vm_compute; reflexivity);
      rewrite !E; clear E
  end.

Ltac split_elems Hin :=
  repeat (apply elem_of_cons in Hin as [->|Hin]; [try (congruence || done)|]);
  try by apply elem_of_nil in Hin.

Ltac load_case loaded :=
  eexists _, _, loaded; split; [reflexivity|];
  cbv beta iota delta [w_log w_files w_store]; rewrite <- ?app_assoc; cbn [app];
  split; [reflexivity|]; split; [reflexivity|]; split; [reflexivity|];
  name_lists;
  split; [reflexivity|];
  split; [by eexists|];
  split; [by repeat constructor|];
  split; [let Hin := fresh "Hin" in intros ? Hin; split_elems Hin; vm_compute;
          repeat first [by left | right]|];
  split; [let Hin := fresh "Hin" in intros ? Hin ?; split_elems Hin; vm_compute;
          repeat first [by left | right]|].

(** The database step always returns; it appends to the tables before the
    first failure, in order, and reports that failure. *)
Lemma load_postgres_outcome (env : Env) (t : Tables) (w : World) :
  ∃ w' l loaded,
    load_postgres env t w = (Ok tt, w') ∧
    w_log w' = w_log w ++ l ∧
    w_files w' = w_files w ∧
    w_store w' = tables_appended t (w_store w) loaded ∧
    csv_writes l = [] ∧
    loaded `prefix_of` store_tables ∧
    Forall (λ tb, sql_failure env tb = None) loaded ∧
    (∀ tb, tb ∈ loaded → tb ∈ sql_attempts l) ∧
    (∀ tb, tb ∈ sql_attempts l → sql_failure env tb = None → tb ∈ loaded) ∧
    match store_error env with
    | Some msg => (newline +:+ "Error message: " +:+ msg) ∈ printed l
    | None =>
        loaded = store_tables ∧
        summary_lines (len (users_df t)) (len (listings_df t)) (len (leads_df t))
          (len (transactions_df t)) ⊆ printed l
    end ∧
    loaded = tables_stored env.
Proof.
  unfold store_error, tables_stored, store_tables, summary_lines. sink_steps.
  destruct (engine_failure env) as [msg|] eqn:Hengine; sink_steps.
  { load_case (@nil string). split; [|done].
    vm_compute. repeat first [by left | right]. }
  cbn [omap list_omap until_failure].
  sql_step Hu.
  { load_case (@nil string). split; [|done].
    vm_compute. repeat first [by left | right]. }
  sql_step Hl.
  { load_case ["users"]. split; [|done].
    vm_compute. repeat first [by left | right]. }
  sql_step Hle.
  { load_case ["users"; "listings"]. split; [|done].
    vm_compute. repeat first [by left | right]. }
  sql_step Ht.
  { load_case ["users"; "listings"; "leads"]. split; [|done].
    vm_compute. repeat first [by left | right]. }
  load_case ["users"; "listings"; "leads"; "transactions"].
  split; [|done]. split; [done|].
  intros line Hin. split_elems Hin; vm_compute; repeat first [by left | right].
Qed.

(** The CSV step in terms of the failures of the environment alone. *)
Lemma save_csv_exact (env : Env) (t : Tables) (w : World) :
  ∃ o w' l,
    save_csv env t w = (o, w') ∧
    (if decide (files_exported env = csv_paths) then o = Ok tt
     else ∃ e, o = Raise e) ∧
    w_files w' = files_written t (w_files w) (files_exported env) ∧
    w_store w' = w_store w ∧
    w_log w' = w_log w ++ l ∧
    csv_writes l = files_exported env ∧ sql_attempts l = [].
Proof.
  destruct (save_csv_outcome env t w)
    as (o & w' & written & rest & l & Hrun & Hsplit & Hok & Hrest & Hf & Hs & Hl & Hw & Ha).
  assert (Hexp : files_exported env = written).
  { unfold files_exported. rewrite Hsplit. apply until_failure_app; [done|].
    destruct rest; [done|]. by destruct Hrest. }
  exists o, w', l. rewrite Hexp. split; [done|]. split; [|done].
  destruct rest as [|p rest].
  - rewrite app_nil_r in Hsplit. by rewrite decide_True.
  - rewrite decide_False; [by destruct Hrest|].
    intros Heq. rewrite <- Heq in Hsplit.
    apply (f_equal length) in Hsplit. rewrite length_app in Hsplit. simpl in Hsplit. lia.
Qed.
End SinkOutcomes.

(** ** The whole run *)

Section RunProperties.
Context `{Binary64} `{RandomLib}.

Lemma generate_quiet (cfg : Config) (env : Env) (w : World) o w1 :
  generate cfg env w = (o, w1) → quiet w w1.
Proof. intros Hgen. generalize (always_generate cfg env w). by rewrite Hgen. Qed.

Lemma run_script_generate_raises (cfg : Config) (env : Env) (w : World) e w1 :
  generate cfg env w = (Raise e, w1) →
  run_script cfg env w = (1, w1).
Proof.
  intros Hgen. unfold run_script.
  by rewrite (main_generate_raises _ _ _ _ _ Hgen).
Qed.

(** Once the tables are generated, the exit status, the files and the
    store are determined by the failures of the environment. *)
Lemma run_script_from_tables (cfg : Config) (env : Env) (w : World) t w1 :
  generate cfg env w = (Ok t, w1) →
  ∃ w' l,
    run_script cfg env w =
      (if decide (files_exported env = csv_paths) then 0 else 1, w') ∧
    w_log w' = w_log w ++ l ∧
    csv_writes l = files_exported env ∧
    w_files w' = files_written t (w_files w) (files_exported env) ∧
    w_store w' =
      tables_appended t (w_store w)
        (if decide (files_exported env = csv_paths) then tables_stored env else []) ∧
    (files_exported env ≠ csv_paths → sql_attempts l = []) ∧
    (files_exported env = csv_paths →
       match store_error env with
       | Some msg => (newline +:+ "Error message: " +:+ msg) ∈ printed l
       | None =>
           tables_stored env = store_tables ∧
           summary_lines (len (users_df t)) (len (listings_df t))
             (len (leads_df t)) (len (transactions_df t)) ⊆ printed l
       end).
Proof.
  intros Hgen.
  destruct (generate_quiet _ _ _ _ _ Hgen) as (Hf1 & Hs1 & l1 & Hl1 & Hp1).
  destruct (log_of_prints _ Hp1) as [Hc1 Ha1].
  destruct (save_csv_exact env t w1)
    as (o & w2 & l2 & Hcsv & Ho & Hf2 & Hs2 & Hl2 & Hc2 & Ha2).
  destruct (decide (files_exported env = csv_paths)) as [Hall|Hnot].
  - subst o.
    destruct (load_postgres_outcome env t w2)
      as (w3 & l3 & loaded & Hload & Hl3 & Hf3 & Hs3 & Hc3 & _ & _ & _ & _ & Herr & Hloaded).
    exists w3, (l1 ++ l2 ++ l3). unfold run_script.
    rewrite (main_reaches_load _ _ _ _ _ _ Hgen Hcsv), Hload.
    split; [done|].
    split; [by rewrite Hl3, Hl2, Hl1, <- !app_assoc|].
    split; [unfold csv_writes in *; by rewrite !omap_app, Hc1, Hc2, Hc3, app_nil_r|].
    split; [by rewrite Hf3, Hf2, Hf1|].
    split; [by rewrite Hs3, Hs2, Hs1, Hloaded|].
    split; [done|]. intros _.
    unfold printed in *. rewrite !omap_app.
    destruct (store_error env) as [msg|].
    + rewrite !elem_of_app. by right; right.
    + destruct Herr as [Hall' Hsum]. split; [by rewrite <- Hloaded|].
      intros line Hin. rewrite !elem_of_app. right; right. by apply Hsum.
  - destruct Ho as [e ->].
    exists w2, (l1 ++ l2). unfold run_script.
    rewrite (main_save_csv_raises _ _ _ _ _ _ _ Hgen Hcsv).
    split; [done|].
    split; [by rewrite Hl2, Hl1, <- !app_assoc|].
    split; [unfold csv_writes in *; by rewrite !omap_app, Hc1, Hc2|].
    split; [by rewrite Hf2, Hf1|].
    split; [by rewrite Hs2, Hs1|].
    split; [|done]. intros _.
    unfold sql_attempts in *. by rewrite !omap_app, Ha1, Ha2.
Qed.

Lemma elem_of_files_exported (env : Env) (p : string) :
  p ∈ files_exported env → p ∈ csv_paths.
Proof.
  intros Hin. destruct (until_failure_prefix (csv_failure env) csv_paths) as [k Hk].
  fold (files_exported env) in Hk. rewrite Hk. apply elem_of_app. by left.
Qed.

Lemma elem_of_tables_stored (env : Env) (tb : string) :
  tb ∈ tables_stored env → tb ∈ store_tables.
Proof.
  unfold tables_stored. destruct (engine_failure env).
  { intros Hin. by apply elem_of_nil in Hin. }
  intros Hin. destruct (until_failure_prefix (sql_failure env) store_tables) as [k Hk].
  rewrite Hk. apply elem_of_app. by left.
Qed.

Lemma NoDup_store_tables : NoDup store_tables.
Proof. apply (bool_decide_unpack _). by vm_compute. Qed.

Lemma NoDup_tables_stored (env : Env) : NoDup (tables_stored env).
Proof.
  unfold tables_stored. destruct (engine_failure env); [constructor|].
  destruct (until_failure_prefix (sql_failure env) store_tables) as [k Hk].
  generalize NoDup_store_tables. rewrite Hk at 1. by intros [? _]%NoDup_app.
Qed.

Lemma files_exported_all (env : Env) :
  files_exported env = csv_paths ↔ ∀ p, p ∈ csv_paths → csv_failure env p = None.
Proof.
  unfold files_exported. rewrite until_failure_all. apply Forall_forall.
Qed.

(** X8: a run touches no file but its four CSV files and no table but
    its four tables, whatever the configuration and the environment, also
    when it fails. *)
Theorem run_touches_only_its_files_and_tables
    (cfg : Config) (env : Env) (w : World) (p tb : string) :
  (p ∉ csv_paths → w_files (run_script cfg env w).2 !! p = w_files w !! p) ∧
  (tb ∉ store_tables → w_store (run_script cfg env w).2 !! tb = w_store w !! tb).
Proof.
  destruct (generate cfg env w) as [[t|e] w1] eqn:Hgen.
  - destruct (run_script_from_tables _ _ _ _ _ Hgen)
      as (w' & l & -> & _ & _ & Hf & Hs & _). simpl. rewrite Hf, Hs. split.
    + intros Hp. rewrite lookup_files_written, decide_False; [done|].
      intros Hin. by apply Hp, (elem_of_files_exported env).
    + intros Htb. case_decide.
      * rewrite lookup_tables_appended by apply NoDup_tables_stored.
        rewrite decide_False; [done|].
        intros Hin. by apply Htb, (elem_of_tables_stored env).
      * done.
  - rewrite (run_script_generate_raises _ _ _ _ _ Hgen). simpl.
    destruct (generate_quiet _ _ _ _ _ Hgen) as (-> & -> & _). done.
Qed.

(** X9: with a valid configuration the exit status is 0 exactly when no
    CSV file fails; a failing CSV file ends the run with status 1 before
    the database is touched. *)
Theorem exit_status_reflects_csv_step (cfg : Config) (env : Env) (w : World) :
  valid_config cfg → clock_monotone env →
  ((run_script cfg env w).1 = 0 ↔ ∀ p, p ∈ csv_paths → csv_failure env p = None) ∧
  ((run_script cfg env w).1 = 0 ∨ (run_script cfg env w).1 = 1) ∧
  ((run_script cfg env w).1 = 1 →
     w_store (run_script cfg env w).2 = w_store w ∧
     ∃ l, w_log (run_script cfg env w).2 = w_log w ++ l ∧ sql_attempts l = []).
Proof.
  intros Hcfg Hclock.
  destruct (generate_tables cfg env w Hcfg Hclock) as (t & w1 & Hgen & _ & _).
  destruct (run_script_from_tables _ _ _ _ _ Hgen)
    as (w' & l & -> & Hl & _ & _ & Hs & Ha & _). simpl.
  rewrite <- files_exported_all.
  destruct (decide (files_exported env = csv_paths)) as [Hall|Hnot].
  - split; [done|]. split; [by left|]. done.
  - split; [done|]. split; [by right|]. intros _. split; [done|].
    exists l. split; [done|]. by apply Ha.
Qed.

(** X10: the CSV step writes the files in the order users, listings,
    leads, transactions and stops at the first one that fails: the files
    before it hold their tables, the failing one and the later ones are
    left as they were. *)
Theorem csv_files_written_until_first_failure
    (cfg : Config) (env : Env) (w : World) :
  valid_config cfg → clock_monotone env →
  ∃ t w1 l,
    generate cfg env w = (Ok t, w1) ∧
    w_log (run_script cfg env w).2 = w_log w ++ l ∧
    csv_writes l = files_exported env ∧
    ∀ p, w_files (run_script cfg env w).2 !! p =
           if decide (p ∈ files_exported env) then Some (file_frame t p)
           else w_files w !! p.
Proof.
  intros Hcfg Hclock.
  destruct (generate_tables cfg env w Hcfg Hclock) as (t & w1 & Hgen & _ & _).
  destruct (run_script_from_tables _ _ _ _ _ Hgen)
    as (w' & l & -> & Hl & Hc & Hf & _). simpl.
  exists t, w1, l. split; [done|]. split; [done|]. split; [done|].
  intros p. by rewrite Hf, lookup_files_written.
Qed.

(** X11: when the four files are written, the database step appends to
    the tables before the first failure and leaves the others as they
    were: nothing is rolled back. *)
Theorem store_appended_until_first_failure
    (cfg : Config) (env : Env) (w : World) :
  valid_config cfg → clock_monotone env →
  (∀ p, p ∈ csv_paths → csv_failure env p = None) →
  ∃ t w1,
    generate cfg env w = (Ok t, w1) ∧
    ∀ tb, w_store (run_script cfg env w).2 !! tb =
            if decide (tb ∈ tables_stored env)
            then Some (default [] (w_store w !! tb) ++ values (table_frame t tb))
            else w_store w !! tb.
Proof.
  intros Hcfg Hclock Hcsv. apply files_exported_all in Hcsv.
  destruct (generate_tables cfg env w Hcfg Hclock) as (t & w1 & Hgen & _ & _).
  destruct (run_script_from_tables _ _ _ _ _ Hgen)
    as (w' & l & -> & _ & _ & _ & Hs & _). simpl.
  exists t, w1. split; [done|]. intros tb.
  rewrite Hs, decide_True by done.
  apply lookup_tables_appended, NoDup_tables_stored.
Qed.

(** X12: when the database step fails, the handler prints the message of
    the first failure (the engine, else the first failing table) and the
    run still ends with status 0. *)
Theorem handler_reports_first_error
    (cfg : Config) (env : Env) (w : World) (msg : string) :
  valid_config cfg → clock_monotone env →
  (∀ p, p ∈ csv_paths → csv_failure env p = None) →
  store_error env = Some msg →
  (run_script cfg env w).1 = 0 ∧
  ∃ l, w_log (run_script cfg env w).2 = w_log w ++ l ∧
       (newline +:+ "Error message: " +:+ msg) ∈ printed l.
Proof.
  intros Hcfg Hclock Hcsv Herr. apply files_exported_all in Hcsv.
  destruct (generate_tables cfg env w Hcfg Hclock) as (t & w1 & Hgen & _ & _).
  destruct (run_script_from_tables _ _ _ _ _ Hgen)
    as (w' & l & -> & Hl & _ & _ & _ & _ & Hmsg). simpl.
  rewrite decide_True by done. split; [done|].
  exists l. split; [done|]. specialize (Hmsg Hcsv). by rewrite Herr in Hmsg.
Qed.

Lemma tables_lengths (cfg : Config) (env : Env) (t : Tables) :
  tables_ok cfg env t →
  length (values (users_df t)) = Z.to_nat (NUM_USERS cfg) ∧
  length (values (listings_df t)) = Z.to_nat (NUM_LISTINGS cfg) ∧
  length (values (leads_df t)) = Z.to_nat (NUM_LEADS cfg) ∧
  length (values (transactions_df t)) = Z.to_nat (NUM_TRANSACTIONS cfg).
Proof.
  intros (Hu & Hl & Hle & Ht).
  apply Forall2_length in Hu, Hl, Hle, Ht.
  rewrite range_1_succ, length_seqZ in Hu, Hl, Hle, Ht.
  unfold users_df, listings_df, leads_df, transactions_df, pd_DataFrame. simpl.
  by rewrite !length_fmap.
Qed.

Lemma id_column_app (rows1 rows2 : list (list cell)) :
  id_column (rows1 ++ rows2) = id_column rows1 ++ id_column rows2.
Proof. apply omap_app. Qed.

(** The first column of a frame whose dicts start with an int key. *)
Lemma id_column_pd_DataFrame {A} (to_dict : A → list (string * cell))
    (key : A → Z) (l : list A) :
  (∀ a, ∃ k rest, to_dict a = (k, CInt (key a)) :: rest) →
  id_column (values (pd_DataFrame (to_dict <$> l))) = key <$> l.
Proof.
  intros Hkey. unfold pd_DataFrame. cbn [values].
  set (raw := (λ d : list (string * cell), d.*2) <$> (to_dict <$> l)).
  assert (Hnofloat : column_has_float raw 0 = false).
  { unfold raw, column_has_float. clear raw.
    induction l as [|a l IH]; [done|].
    destruct (Hkey a) as (k & rest & Ha). rewrite !fmap_cons, Ha. simpl.
    exact IH. }
  unfold raw at 2. generalize raw Hnofloat. clear raw Hnofloat. intros raw Hnofloat.
  induction l as [|a l IH]; [done|].
  destruct (Hkey a) as (k & rest & Ha). rewrite !fmap_cons, Ha.
  unfold id_column in *. simpl. rewrite Hnofloat. simpl. f_equal. exact IH.
Qed.

Lemma tables_ids (cfg : Config) (env : Env) (t : Tables) :
  tables_ok cfg env t →
  id_column (values (users_df t)) = seqZ 1 (NUM_USERS cfg) ∧
  id_column (values (listings_df t)) = seqZ 1 (NUM_LISTINGS cfg) ∧
  id_column (values (leads_df t)) = seqZ 1 (NUM_LEADS cfg) ∧
  id_column (values (transactions_df t)) = seqZ 1 (NUM_TRANSACTIONS cfg).
Proof.
  intros (Hu & Hl & Hle & Ht).
  unfold users_df, listings_df, leads_df, transactions_df.
  rewrite (id_column_pd_DataFrame _ User.user_id) by (intros a; by eexists _, _).
  rewrite (id_column_pd_DataFrame _ Listing.listing_id) by (intros a; by eexists _, _).
  rewrite (id_column_pd_DataFrame _ Lead.lead_id) by (intros a; by eexists _, _).
  rewrite (id_column_pd_DataFrame _ Transaction.transaction_id)
    by (intros a; by eexists _, _).
  rewrite <- !range_1_succ.
  split; [eapply Forall2_key_fmap; [|exact Hu]; by intros k a (-> & _)|].
  split; [eapply Forall2_key_fmap; [|exact Hl]; by intros k a (-> & _)|].
  split; [eapply Forall2_key_fmap; [|exact Hle]; by intros k a (-> & _)|].
  eapply Forall2_key_fmap; [|exact Ht]; by intros k a (-> & _).
Qed.

(** A run without failure appends each frame to its table. *)
Lemma run_script_all_appended (cfg : Config) (env : Env) (w : World) :
  valid_config cfg → clock_monotone env →
  (∀ p, p ∈ csv_paths → csv_failure env p = None) →
  store_error env = None →
  ∃ t, tables_ok cfg env t ∧
    (run_script cfg env w).1 = 0 ∧
    ∀ tb, tb ∈ store_tables →
      w_store (run_script cfg env w).2 !! tb =
        Some (default [] (w_store w !! tb) ++ values (table_frame t tb)).
Proof.
  intros Hcfg Hclock Hcsv Herr. apply files_exported_all in Hcsv.
  destruct (generate_tables cfg env w Hcfg Hclock) as (t & w1 & Hgen & Hok & _).
  destruct (run_script_from_tables _ _ _ _ _ Hgen)
    as (w' & l & -> & _ & _ & _ & Hs & _ & Hall). simpl.
  specialize (Hall Hcsv). rewrite Herr in Hall. destruct Hall as [Hall _].
  exists t. split; [done|]. rewrite decide_True by done. split; [done|].
  intros tb Htb. rewrite Hs, decide_True by done.
  rewrite lookup_tables_appended by apply NoDup_tables_stored.
  rewrite decide_True; [done|]. by rewrite Hall.
Qed.

(** X13: a run without failure ends with status 0 and each table of the
    database has grown by exactly the configured number of rows. *)
Theorem successful_run_grows_tables_by_counts
    (cfg : Config) (env : Env) (w : World) :
  valid_config cfg → clock_monotone env →
  (∀ p, p ∈ csv_paths → csv_failure env p = None) →
  store_error env = None →
  let rows (w : World) (tb : string) := length (default [] (w_store w !! tb)) in
  let w' := (run_script cfg env w).2 in
  (run_script cfg env w).1 = 0 ∧
  rows w' "users" = (rows w "users" + Z.to_nat (NUM_USERS cfg))%nat ∧
  rows w' "listings" = (rows w "listings" + Z.to_nat (NUM_LISTINGS cfg))%nat ∧
  rows w' "leads" = (rows w "leads" + Z.to_nat (NUM_LEADS cfg))%nat ∧
  rows w' "transactions" =
    (rows w "transactions" + Z.to_nat (NUM_TRANSACTIONS cfg))%nat.
Proof.
  intros Hcfg Hclock Hcsv Herr rows w'.
  destruct (run_script_all_appended cfg env w Hcfg Hclock Hcsv Herr)
    as (t & Hok & Hcode & Hstore).
  destruct (tables_lengths _ _ _ Hok) as (Hu & Hl & Hle & Ht).
  split; [done|]. unfold rows, w'.
  rewrite !Hstore by (vm_compute; repeat first [by left | right]).
  cbn [default from_option id]. rewrite !length_app.
  change (table_frame t "users") with (users_df t).
  change (table_frame t "listings") with (listings_df t).
  change (table_frame t "leads") with (leads_df t).
  change (table_frame t "transactions") with (transactions_df t).
  by rewrite Hu, Hl, Hle, Ht.
Qed.

(** X14: the tables are appended to, never emptied: after a second run
    every table holds the ids 1..count twice after what it held before, so
    the ids of the users table repeat. *)
Theorem rerun_appends_second_copy
    (cfg : Config) (env1 env2 : Env) (w : World) :
  valid_config cfg → clock_monotone env1 → clock_monotone env2 →
  (∀ p, p ∈ csv_paths → csv_failure env1 p = None) → store_error env1 = None →
  (∀ p, p ∈ csv_paths → csv_failure env2 p = None) → store_error env2 = None →
  let ids (w : World) (tb : string) := id_column (default [] (w_store w !! tb)) in
  let w2 := (run_script cfg env2 (run_script cfg env1 w).2).2 in
  ids w2 "users" =
    ids w "users" ++ seqZ 1 (NUM_USERS cfg) ++ seqZ 1 (NUM_USERS cfg) ∧
  ids w2 "listings" =
    ids w "listings" ++ seqZ 1 (NUM_LISTINGS cfg) ++ seqZ 1 (NUM_LISTINGS cfg) ∧
  ids w2 "leads" =
    ids w "leads" ++ seqZ 1 (NUM_LEADS cfg) ++ seqZ 1 (NUM_LEADS cfg) ∧
  ids w2 "transactions" =
    ids w "transactions" ++ seqZ 1 (NUM_TRANSACTIONS cfg)
      ++ seqZ 1 (NUM_TRANSACTIONS cfg) ∧
  ¬ NoDup (ids w2 "users").
Proof.
  intros Hcfg Hclock1 Hclock2 Hcsv1 Herr1 Hcsv2 Herr2 ids w2.
  destruct (run_script_all_appended cfg env1 w Hcfg Hclock1 Hcsv1 Herr1)
    as (t1 & Hok1 & _ & Hstore1).
  destruct (run_script_all_appended cfg env2 (run_script cfg env1 w).2
              Hcfg Hclock2 Hcsv2 Herr2) as (t2 & Hok2 & _ & Hstore2).
  destruct (tables_ids _ _ _ Hok1) as (Hu1 & Hl1 & Hle1 & Ht1).
  destruct (tables_ids _ _ _ Hok2) as (Hu2 & Hl2 & Hle2 & Ht2).
  assert (Hids : ∀ tb, tb ∈ store_tables →
            ids w2 tb = ids w tb ++ id_column (values (table_frame t1 tb))
                          ++ id_column (values (table_frame t2 tb))).
  { intros tb Htb. unfold ids, w2. rewrite (Hstore2 tb Htb), (Hstore1 tb Htb).
    cbn [default from_option id]. by rewrite !id_column_app, <- app_assoc. }
  assert (Husers : ids w2 "users" =
            ids w "users" ++ seqZ 1 (NUM_USERS cfg) ++ seqZ 1 (NUM_USERS cfg)).
  { rewrite Hids by (vm_compute; repeat first [by left | right]).
    change (table_frame ?t "users") with (users_df t). by rewrite Hu1, Hu2. }
  split; [done|].
  split.
  { rewrite Hids by (vm_compute; repeat first [by left | right]).
    change (table_frame ?t "listings") with (listings_df t). by rewrite Hl1, Hl2. }
  split.
  { rewrite Hids by (vm_compute; repeat first [by left | right]).
    change (table_frame ?t "leads") with (leads_df t). by rewrite Hle1, Hle2. }
  split.
  { rewrite Hids by (vm_compute; repeat first [by left | right]).
    change (table_frame ?t "transactions") with (transactions_df t).
    by rewrite Ht1, Ht2. }
  rewrite Husers. intros [_ [_ Hnd]]%NoDup_app.
  apply NoDup_app in Hnd as (_ & Hdisj & _).
  assert (Hin : 1 ∈ seqZ 1 (NUM_USERS cfg)).
  { apply elem_of_seqZ. destruct Hcfg. lia. }
  exact (Hdisj 1 Hin Hin).
Qed.

(** X15: [random.seed] makes the run independent of the former state of
    the [random] module: exit status, files and store after a run are
    determined by the configuration, the environment, the files and the
    store before it and the state of Faker's generator. *)
Theorem run_is_function_of_faker_state
    (cfg : Config) (env : Env) (w1 w2 : World) :
  w_faker w1 = w_faker w2 → w_files w1 = w_files w2 → w_store w1 = w_store w2 →
  (run_script cfg env w1).1 = (run_script cfg env w2).1 ∧
  w_files (run_script cfg env w1).2 = w_files (run_script cfg env w2).2 ∧
  w_store (run_script cfg env w1).2 = w_store (run_script cfg env w2).2.
Proof.
  intros Hfaker Hfiles Hstore.
  generalize (tables_determined_by_faker_state cfg env w1 w2 Hfaker).
  destruct (generate cfg env w1) as [[t1|e1] w1'] eqn:Hgen1;
    destruct (generate cfg env w2) as [[t2|e2] w2'] eqn:Hgen2; simpl; try done.
  - intros [= <-].
    destruct (run_script_from_tables _ _ _ _ _ Hgen1)
      as (w1'' & l1 & -> & _ & _ & Hf1 & Hs1 & _).
    destruct (run_script_from_tables _ _ _ _ _ Hgen2)
      as (w2'' & l2 & -> & _ & _ & Hf2 & Hs2 & _). simpl.
    by rewrite Hf1, Hf2, Hs1, Hs2, Hfiles, Hstore.
  - intros _.
    rewrite (run_script_generate_raises _ _ _ _ _ Hgen1),
      (run_script_generate_raises _ _ _ _ _ Hgen2). simpl.
    destruct (generate_quiet _ _ _ _ _ Hgen1) as (-> & -> & _).
    destruct (generate_quiet _ _ _ _ _ Hgen2) as (-> & -> & _). done.
Qed.

(** X16: with no user and at least one listing the owner of the first
    listing is drawn from an empty range; when the library raises there
    (as Python's [random.randint(1, 0)] does), the run ends with status 1
    after the users step, no file is written and the store is not touched. *)
Theorem no_users_run_fails_before_export
    (cfg : Config) (env : Env) (w : World) :
  NUM_USERS cfg = 0 → 1 ≤ NUM_LISTINGS cfg →
  (∀ s, randint 1 0 s = None) →
  (run_script cfg env w).1 = 1 ∧
  w_files (run_script cfg env w).2 = w_files w ∧
  w_store (run_script cfg env w).2 = w_store w ∧
  ∃ l, w_log (run_script cfg env w).2 = w_log w ++ l ∧ csv_writes l = [] ∧
       sql_attempts l = [].
Proof.
  intros Hu Hl Hrand.
  assert (Hgen : ∃ e w1, generate cfg env w = (Raise e, w1)).
  { unfold generate. rewrite Hu.
    change (range 1 (0 + 1)) with (@nil Z).
    rewrite (range_1_succ (NUM_LISTINGS cfg)), seqZ_cons by lia.
    cbv beta iota zeta delta
      [mbind M_bind mret M_ret random_seed print log_event for_each gen_listing
       with_random w_log w_files w_store w_random w_faker].
    rewrite Hu, Hrand. by eexists _, _. }
  destruct Hgen as (e & w1 & Hgen).
  rewrite (run_script_generate_raises _ _ _ _ _ Hgen). simpl.
  destruct (generate_quiet _ _ _ _ _ Hgen) as (Hf & Hs & l & Hlog & Hp).
  split; [done|]. split; [done|]. split; [done|].
  exists l. split; [done|]. by apply log_of_prints.
Qed.

(** X17: after a run without failure the data summary reports, for each
    table, the configured number of rows (none for a negative number). *)
Theorem summary_reports_configured_counts
    (cfg : Config) (env : Env) (w : World) :
  valid_config cfg → clock_monotone env →
  (∀ p, p ∈ csv_paths → csv_failure env p = None) →
  store_error env = None →
  ∃ l, w_log (run_script cfg env w).2 = w_log w ++ l ∧
    summary_lines (NUM_USERS cfg) (NUM_LISTINGS cfg)
      (Z.max 0 (NUM_LEADS cfg)) (Z.max 0 (NUM_TRANSACTIONS cfg)) ⊆ printed l.
Proof.
  intros Hcfg Hclock Hcsv Herr. apply files_exported_all in Hcsv.
  destruct (generate_tables cfg env w Hcfg Hclock) as (t & w1 & Hgen & Hok & _).
  destruct (run_script_from_tables _ _ _ _ _ Hgen)
    as (w' & l & -> & Hl & _ & _ & _ & _ & Hsum). simpl.
  specialize (Hsum Hcsv). rewrite Herr in Hsum. destruct Hsum as [_ Hsum].
  exists l. split; [done|].
  destruct (tables_lengths _ _ _ Hok) as (Hu & Hli & Hle & Ht).
  assert (Hmax : ∀ n, Z.of_nat (Z.to_nat n) = Z.max 0 n) by lia.
  unfold len in Hsum. rewrite Hu, Hli, Hle, Ht, !Hmax in Hsum.
  destruct Hcfg as [Hcu Hcl].
  by rewrite (Z.max_r 0 (NUM_USERS cfg)), (Z.max_r 0 (NUM_LISTINGS cfg)) in Hsum by lia.
Qed.
End RunProperties.

(** ** Concrete runs

    The theorems above, applied to binary64 rounding, the congruential
    generator and concrete configurations. *)

Example format_comma_15000 : format_comma 15000 = "15,000".
Proof. reflexivity. Qed.

Example format_comma_1234567 : format_comma 1234567 = "1,234,567".
Proof. reflexivity. Qed.

Example round_half_even_tie_to_even_down : round_half_even (25 # 2) = 12.
Proof. reflexivity. Qed.

Example round_half_even_tie_to_even_up : round_half_even (27 # 2) = 14.
Proof. reflexivity. Qed.

(** [b64_round] agrees with Python on well-known cases. *)
Example python_float_1_3 :
  (float_lit (13 # 10) == 5854679515581645 # 4503599627370496)%Q.
Proof. reflexivity. Qed.

Example python_800000_times_1_3 :
  (fmul (float_of_int 800000) (float_lit (13 # 10)) == 1040000)%Q.
Proof. by vm_compute. Qed.

Example python_1_1_times_1_1 :
  (fmul (float_lit (11 # 10)) (float_lit (11 # 10))
   == float_lit (12100000000000002 # 10000000000000000))%Q.
Proof. by vm_compute. Qed.

Example python_1_1_times_1_1_is_not_1_21 :
  ¬ (fmul (float_lit (11 # 10)) (float_lit (11 # 10)) == float_lit (121 # 100))%Q.
Proof. by vm_compute. Qed.

Example python_round_2_675 :
  (float_round (float_lit (2675 # 1000)) 2 == float_lit (267 # 100))%Q.
Proof. by vm_compute. Qed.

Example python_round_0_125 :
  (float_round (float_lit (125 # 1000)) 2 == float_lit (12 # 100))%Q.
Proof. by vm_compute. Qed.

Example small_run_exit_status :
  (run_script small_config env_ok (world0 7)).1 = 0.
Proof. by vm_compute. Qed.

Example db_down_run_exit_status :
  (run_script small_config env_db_down (world0 7)).1 = 0.
Proof. by vm_compute. Qed.

Example db_down_run_attempts :
  sql_attempts (w_log (run_script small_config env_db_down (world0 7)).2) = ["users"].
Proof. by vm_compute. Qed.

Example db_down_run_keeps_files :
  w_files (run_script small_config env_db_down (world0 7)).2
  = w_files (run_script small_config env_ok (world0 7)).2.
Proof. vm_compute. reflexivity. Qed.

Lemma default_config_valid : valid_config default_config.
Proof. split; simpl; lia. Qed.

Lemma env_ok_clock_monotone : clock_monotone env_ok.
Proof. right. split; simpl; [reflexivity|lia]. Qed.

Lemma env_db_down_clock_monotone : clock_monotone env_db_down.
Proof. right. split; simpl; [reflexivity|lia]. Qed.

Lemma lead_date_within_listing_window_witness :
  valid_config default_config ∧ clock_monotone env_ok ∧
  ∃ t w', generate default_config env_ok (world0 7) = (Ok t, w') ∧
    ∀ lead, lead ∈ leads_data t →
      (∃ listing, listing ∈ listings_data t ∧
         Listing.listing_id listing = Lead.listing_id lead) ∧
      (∀ listing, listing ∈ listings_data t →
         Listing.listing_id listing = Lead.listing_id lead →
         Listing.created_date listing ≤ Lead.lead_date lead) ∧
      Lead.lead_date lead ≤ datetime_date (END_DATE env_ok).
Proof.
  split; [exact default_config_valid|]. split; [exact env_ok_clock_monotone|].
  exact (lead_date_within_listing_window default_config env_ok (world0 7)
           default_config_valid env_ok_clock_monotone).
Defined.

Lemma listing_price_formula_witness :
  valid_config default_config ∧ clock_monotone env_ok ∧
  ∃ t w', generate default_config env_ok (world0 7) = (Ok t, w') ∧
    ∀ listing, listing ∈ listings_data t →
      ∃ base mult u,
        base_price_table !! Listing.category listing = Some base ∧
        emirate_multiplier_table !! Listing.emirate listing = Some mult ∧
        (float_lit (7 # 10) <= u)%Q ∧ (u <= float_lit (15 # 10))%Q ∧
        Listing.price listing =
          float_round (fmul (fmul (float_of_int base) mult) u) 2 ∧
        ∃ cents : Z, Listing.price listing = rnd (inject_Z cents / inject_Z 100).
Proof.
  split; [exact default_config_valid|]. split; [exact env_ok_clock_monotone|].
  exact (listing_price_formula default_config env_ok (world0 7)
           default_config_valid env_ok_clock_monotone).
Defined.

Lemma transaction_amount_by_kind_witness :
  valid_config default_config ∧ clock_monotone env_ok ∧
  ∃ t w', generate default_config env_ok (world0 7) = (Ok t, w') ∧
    ∀ tr, tr ∈ transactions_data t →
      (Transaction.transaction_type tr = "subscription" →
         ∃ n, Transaction.amount tr = PyInt n ∧ n ∈ [500; 1000; 2000; 5000]) ∧
      (Transaction.transaction_type tr = "featured_listing" →
         ∃ x, Transaction.amount tr = PyFloat x ∧
              (inject_Z 100 <= x)%Q ∧ (x <= inject_Z 500)%Q).
Proof.
  split; [exact default_config_valid|]. split; [exact env_ok_clock_monotone|].
  exact (transaction_amount_by_kind default_config env_ok (world0 7)
           default_config_valid env_ok_clock_monotone).
Defined.

Lemma ids_are_sequential_witness :
  valid_config default_config ∧ clock_monotone env_ok ∧
  ∃ t w', generate default_config env_ok (world0 7) = (Ok t, w') ∧
    User.user_id <$> users_data t = seqZ 1 5000 ∧
    Listing.listing_id <$> listings_data t = seqZ 1 8000 ∧
    Lead.lead_id <$> leads_data t = seqZ 1 15000 ∧
    Transaction.transaction_id <$> transactions_data t = seqZ 1 2000 ∧
    len (users_df t) = 5000 ∧ len (listings_df t) = 8000 ∧
    len (leads_df t) = 15000 ∧ len (transactions_df t) = 2000.
Proof.
  split; [exact default_config_valid|]. split; [exact env_ok_clock_monotone|].
  destruct (ids_are_sequential default_config env_ok (world0 7)
              default_config_valid env_ok_clock_monotone)
    as (t & w' & Hgen & Hu & Hl & Hle & Ht & _ & _ & _ & _ & Hlen).
  exists t, w'. split; [exact Hgen|].
  split; [exact Hu|]. split; [exact Hl|]. split; [exact Hle|]. split; [exact Ht|].
  exact (Hlen eq_refl).
Defined.

Lemma listing_price_positive_owner_valid_witness :
  valid_config default_config ∧ clock_monotone env_ok ∧
  ∃ t w', generate default_config env_ok (world0 7) = (Ok t, w') ∧
    ∀ listing, listing ∈ listings_data t →
      (0 < Listing.price listing)%Q ∧ 1 ≤ Listing.user_id listing ≤ 5000.
Proof.
  split; [exact default_config_valid|]. split; [exact env_ok_clock_monotone|].
  exact (listing_price_positive_owner_valid default_config env_ok (world0 7)
           default_config_valid env_ok_clock_monotone).
Defined.

Lemma listing_lookup_total_witness :
  valid_config default_config ∧ clock_monotone env_ok ∧
  ∃ t w', generate default_config env_ok (world0 7) = (Ok t, w') ∧
    ∀ id, 1 ≤ id ≤ 8000 →
      length (filter (λ r, Listing.listing_id r = id) (listings_data t)) = 1%nat ∧
      ∃ r, r ∈ listings_data t ∧ Listing.listing_id r = id ∧
        ∀ w1, item0 (created_dates_of (listings_data t) id) w1
              = (Ok (Listing.created_date r), w1).
Proof.
  split; [exact default_config_valid|]. split; [exact env_ok_clock_monotone|].
  exact (listing_lookup_total default_config env_ok (world0 7)
           default_config_valid env_ok_clock_monotone).
Defined.

Lemma store_failure_is_caught_once_at_top_level_witness :
  valid_config default_config ∧ clock_monotone env_db_down ∧
  (∀ p, p ∈ csv_paths → csv_failure env_db_down p = None) ∧
  store_fails env_db_down ∧
  ∃ w' l0 l,
    run_script default_config env_db_down (world0 7) = (0, w') ∧
    w_log w' = l0 ++ l ∧
    Forall (λ ev, ¬ is_sql ev) l0 ∧
    NoDup (sql_attempts l) ∧
    sql_attempts l `prefix_of` store_tables ∧
    (length (filter (λ s, s = error_banner) (printed l)) = 1%nat) ∧
    (success_banner ∉ printed l) ∧
    last (printed l) = Some "   You can import them manually into PostgreSQL".
Proof.
  assert (Hfails : store_fails env_db_down).
  { right. exists "users". split; [left|done]. }
  split; [exact default_config_valid|]. split; [exact env_db_down_clock_monotone|].
  split; [done|]. split; [exact Hfails|].
  destruct (store_failure_is_caught_once_at_top_level default_config env_db_down
              (world0 7) default_config_valid env_db_down_clock_monotone
              (λ _ _, eq_refl))
    as (w' & l0 & l & Hrun & Hlog & Hl0 & Hnd & Hpre & _ & Hdown & _).
  exists w', l0, l. split; [exact Hrun|]. split; [exact Hlog|].
  split; [exact Hl0|]. split; [exact Hnd|]. split; [exact Hpre|].
  exact (Hdown Hfails).
Defined.

Lemma same_seed_runs_differ_with_faker_state_witness :
  valid_config default_config ∧ clock_monotone env_ok ∧
  date_between (datetime_date (START_DATE env_ok)) (datetime_date (END_DATE env_ok))
    (1 : rng) = Some (738271, lcg_next 1) ∧
  date_between (datetime_date (START_DATE env_ok)) (datetime_date (END_DATE env_ok))
    (2 : rng) = Some (738272, lcg_next 2) ∧
  ∃ t1 t2 w1' w2',
    generate default_config env_ok (with_faker_state (world0 0) 1) = (Ok t1, w1') ∧
    generate default_config env_ok (with_faker_state (world0 0) 2) = (Ok t2, w2') ∧
    users_data t1 ≠ users_data t2 ∧ users_df t1 ≠ users_df t2.
Proof.
  split; [exact default_config_valid|]. split; [exact env_ok_clock_monotone|].
  split; [reflexivity|]. split; [reflexivity|].
  apply (same_seed_runs_differ_with_faker_state default_config env_ok (world0 0)
           1 2 738271 738272 (lcg_next 1) (lcg_next 2)
           default_config_valid env_ok_clock_monotone eq_refl eq_refl).
  discriminate.
Defined.

Lemma csv_files_named_by_table_with_code_headers_witness :
  valid_config default_config ∧ 1 ≤ NUM_LEADS default_config ∧
  1 ≤ NUM_TRANSACTIONS default_config ∧ clock_monotone env_ok ∧
  ∃ w' users listings leads transactions,
    run_script default_config env_ok (world0 7) = (0, w') ∧
    w_files w' !! "users.csv" = Some users ∧
    w_files w' !! "listings.csv" = Some listings ∧
    w_files w' !! "leads.csv" = Some leads ∧
    w_files w' !! "transactions.csv" = Some transactions ∧
    columns users = ["user_id"; "signup_date"; "emirate"; "user_type"] ∧
    columns listings =
      ["listing_id"; "user_id"; "category"; "emirate"; "price"; "created_date";
       "status"] ∧
    columns leads = ["lead_id"; "listing_id"; "user_id"; "lead_date"] ∧
    columns transactions =
      ["transaction_id"; "user_id"; "amount"; "transaction_date";
       "transaction_type"].
Proof.
  assert (Hleads : 1 ≤ NUM_LEADS default_config) by (simpl; lia).
  assert (Htrans : 1 ≤ NUM_TRANSACTIONS default_config) by (simpl; lia).
  split; [exact default_config_valid|]. split; [exact Hleads|].
  split; [exact Htrans|]. split; [exact env_ok_clock_monotone|].
  destruct (csv_files_named_by_table_with_code_headers default_config env_ok
              (world0 7) default_config_valid Hleads Htrans env_ok_clock_monotone
              (λ _ _, eq_refl))
    as (w' & u & l & le & tr & Hrun & _ & Hu & Hl & Hle & Htr & Hcu & Hcl & Hcle
        & Hctr & _).
  exists w', u, l, le, tr. by repeat (split; [assumption|]).
Defined.

(** C7 as worded fails on a run of the script: the header of [users.csv]
    is [user_id, signup_date, emirate, user_type], not the attribute names
    [id, signup_date, region, role] of the data model. *)
Lemma headers_do_not_match_spec_attributes :
  ¬ headers_match_spec (run_script small_config env_ok (world0 7)).2.
Proof.
  intros Hclaim. destruct (Hclaim "users") as (df & Hdf & Hcols); [by left|].
  vm_compute in Hdf. injection Hdf as <-. by vm_compute in Hcols.
Qed.

(** ** Concrete runs of the further properties *)

Lemma env_ok_csv_ok : ∀ p, p ∈ csv_paths → csv_failure env_ok p = None.
Proof. by intros p _. Qed.

Lemma env_db_down_csv_ok : ∀ p, p ∈ csv_paths → csv_failure env_db_down p = None.
Proof. by intros p _. Qed.

Lemma users_are_well_formed_witness :
  valid_config default_config ∧ clock_monotone env_ok ∧
  ∃ t w', generate default_config env_ok (world0 7) = (Ok t, w') ∧
    ∀ u, u ∈ users_data t →
      datetime_date (START_DATE env_ok) ≤ User.signup_date u
        ≤ datetime_date (END_DATE env_ok) ∧
      User.emirate u ∈ EMIRATES ∧
      User.user_type u ∈ USER_TYPES.
Proof.
  split; [exact default_config_valid|]. split; [exact env_ok_clock_monotone|].
  exact (users_are_well_formed default_config env_ok (world0 7)
           default_config_valid env_ok_clock_monotone).
Defined.

Lemma listings_are_well_formed_witness :
  valid_config default_config ∧ clock_monotone env_ok ∧
  ∃ t w', generate default_config env_ok (world0 7) = (Ok t, w') ∧
    ∀ l, l ∈ listings_data t →
      Listing.category l ∈ CATEGORIES ∧
      Listing.emirate l ∈ EMIRATES ∧
      Listing.status l ∈ ["active"; "sold"; "expired"] ∧
      datetime_date (START_DATE env_ok) ≤ Listing.created_date l
        ≤ datetime_date (END_DATE env_ok).
Proof.
  split; [exact default_config_valid|]. split; [exact env_ok_clock_monotone|].
  exact (listings_are_well_formed default_config env_ok (world0 7)
           default_config_valid env_ok_clock_monotone).
Defined.

Lemma listing_price_within_band_witness :
  valid_config default_config ∧ clock_monotone env_ok ∧
  ∃ t w', generate default_config env_ok (world0 7) = (Ok t, w') ∧
    ∀ l, l ∈ listings_data t →
      ∃ base mult,
        base_price_table !! Listing.category l = Some base ∧
        emirate_multiplier_table !! Listing.emirate l = Some mult ∧
        (float_round (fmul (fmul (float_of_int base) mult) (float_lit (7 # 10))) 2
           <= Listing.price l)%Q ∧
        (Listing.price l
           <= float_round (fmul (fmul (float_of_int base) mult) (float_lit (15 # 10))) 2)%Q.
Proof.
  split; [exact default_config_valid|]. split; [exact env_ok_clock_monotone|].
  exact (listing_price_within_band default_config env_ok (world0 7)
           default_config_valid env_ok_clock_monotone).
Defined.

Lemma listing_price_range_witness :
  valid_config default_config ∧ clock_monotone env_ok ∧
  ∃ t w', generate default_config env_ok (world0 7) = (Ok t, w') ∧
    ∀ l, l ∈ listings_data t →
      (inject_Z 200000 <= Listing.price l)%Q ∧
      (Listing.price l <= inject_Z 10000000)%Q.
Proof.
  split; [exact default_config_valid|]. split; [exact env_ok_clock_monotone|].
  exact (listing_price_range default_config env_ok (world0 7)
           default_config_valid env_ok_clock_monotone).
Defined.

Lemma leads_are_well_formed_witness :
  valid_config default_config ∧ clock_monotone env_ok ∧
  ∃ t w', generate default_config env_ok (world0 7) = (Ok t, w') ∧
    ∀ lead, lead ∈ leads_data t →
      1 ≤ Lead.listing_id lead ≤ 8000 ∧
      1 ≤ Lead.user_id lead ≤ 5000 ∧
      datetime_date (START_DATE env_ok) ≤ Lead.lead_date lead
        ≤ datetime_date (END_DATE env_ok).
Proof.
  split; [exact default_config_valid|]. split; [exact env_ok_clock_monotone|].
  exact (leads_are_well_formed default_config env_ok (world0 7)
           default_config_valid env_ok_clock_monotone).
Defined.

Lemma transactions_are_well_formed_witness :
  valid_config default_config ∧ clock_monotone env_ok ∧
  ∃ t w', generate default_config env_ok (world0 7) = (Ok t, w') ∧
    ∀ tr, tr ∈ transactions_data t →
      1 ≤ Transaction.user_id tr ≤ 5000 ∧
      datetime_date (START_DATE env_ok) ≤ Transaction.transaction_date tr
        ≤ datetime_date (END_DATE env_ok) ∧
      Transaction.transaction_type tr ∈ ["subscription"; "featured_listing"] ∧
      ((∃ n, Transaction.amount tr = PyInt n ∧ 500 ≤ n ≤ 5000) ∨
       (∃ cents, Transaction.amount tr = PyFloat (rnd (inject_Z cents / inject_Z 100)) ∧
                 10000 ≤ cents ≤ 50000)).
Proof.
  split; [exact default_config_valid|]. split; [exact env_ok_clock_monotone|].
  exact (transactions_are_well_formed default_config env_ok (world0 7)
           default_config_valid env_ok_clock_monotone).
Defined.

Lemma user_references_resolve_witness :
  valid_config default_config ∧ clock_monotone env_ok ∧
  ∃ t w', generate default_config env_ok (world0 7) = (Ok t, w') ∧
    (∀ l, l ∈ listings_data t →
       ∃ u, filter (λ x, User.user_id x = Listing.user_id l) (users_data t) = [u]) ∧
    (∀ lead, lead ∈ leads_data t →
       ∃ u, filter (λ x, User.user_id x = Lead.user_id lead) (users_data t) = [u]) ∧
    (∀ tr, tr ∈ transactions_data t →
       ∃ u, filter (λ x, User.user_id x = Transaction.user_id tr) (users_data t) = [u]).
Proof.
  split; [exact default_config_valid|]. split; [exact env_ok_clock_monotone|].
  exact (user_references_resolve default_config env_ok (world0 7)
           default_config_valid env_ok_clock_monotone).
Defined.

Lemma exit_status_reflects_csv_step_witness :
  valid_config default_config ∧ clock_monotone env_ok ∧
  ((run_script default_config env_ok (world0 7)).1 = 0 ↔
     ∀ p, p ∈ csv_paths → csv_failure env_ok p = None) ∧
  ((run_script default_config env_ok (world0 7)).1 = 0 ∨
   (run_script default_config env_ok (world0 7)).1 = 1) ∧
  ((run_script default_config env_ok (world0 7)).1 = 1 →
     w_store (run_script default_config env_ok (world0 7)).2 = w_store (world0 7) ∧
     ∃ l, w_log (run_script default_config env_ok (world0 7)).2
            = w_log (world0 7) ++ l ∧ sql_attempts l = []).
Proof.
  split; [exact default_config_valid|]. split; [exact env_ok_clock_monotone|].
  exact (exit_status_reflects_csv_step default_config env_ok (world0 7)
           default_config_valid env_ok_clock_monotone).
Defined.

Lemma csv_files_written_until_first_failure_witness :
  valid_config default_config ∧ clock_monotone env_ok ∧
  ∃ t w1 l,
    generate default_config env_ok (world0 7) = (Ok t, w1) ∧
    w_log (run_script default_config env_ok (world0 7)).2 = w_log (world0 7) ++ l ∧
    csv_writes l = files_exported env_ok ∧
    ∀ p, w_files (run_script default_config env_ok (world0 7)).2 !! p =
           if decide (p ∈ files_exported env_ok) then Some (file_frame t p)
           else w_files (world0 7) !! p.
Proof.
  split; [exact default_config_valid|]. split; [exact env_ok_clock_monotone|].
  exact (csv_files_written_until_first_failure default_config env_ok (world0 7)
           default_config_valid env_ok_clock_monotone).
Defined.

Lemma store_appended_until_first_failure_witness :
  valid_config default_config ∧ clock_monotone env_db_down ∧
  (∀ p, p ∈ csv_paths → csv_failure env_db_down p = None) ∧
  ∃ t w1,
    generate default_config env_db_down (world0 7) = (Ok t, w1) ∧
    ∀ tb, w_store (run_script default_config env_db_down (world0 7)).2 !! tb =
            if decide (tb ∈ tables_stored env_db_down)
            then Some (default [] (w_store (world0 7) !! tb)
                         ++ values (table_frame t tb))
            else w_store (world0 7) !! tb.
Proof.
  split; [exact default_config_valid|]. split; [exact env_db_down_clock_monotone|].
  split; [exact env_db_down_csv_ok|].
  exact (store_appended_until_first_failure default_config env_db_down (world0 7)
           default_config_valid env_db_down_clock_monotone env_db_down_csv_ok).
Defined.

Lemma handler_reports_first_error_witness :
  valid_config default_config ∧ clock_monotone env_db_down ∧
  (∀ p, p ∈ csv_paths → csv_failure env_db_down p = None) ∧
  store_error env_db_down =
    Some "could not connect to server: Connection refused" ∧
  (run_script default_config env_db_down (world0 7)).1 = 0 ∧
  ∃ l, w_log (run_script default_config env_db_down (world0 7)).2
         = w_log (world0 7) ++ l ∧
       (newline +:+ "Error message: " +:+
          "could not connect to server: Connection refused") ∈ printed l.
Proof.
  split; [exact default_config_valid|]. split; [exact env_db_down_clock_monotone|].
  split; [exact env_db_down_csv_ok|]. split; [reflexivity|].
  exact (handler_reports_first_error default_config env_db_down (world0 7)
           "could not connect to server: Connection refused"
           default_config_valid env_db_down_clock_monotone env_db_down_csv_ok
           eq_refl).
Defined.

Lemma successful_run_grows_tables_by_counts_witness :
  valid_config default_config ∧ clock_monotone env_ok ∧
  (∀ p, p ∈ csv_paths → csv_failure env_ok p = None) ∧
  store_error env_ok = None ∧
  let rows (w : World) (tb : string) := length (default [] (w_store w !! tb)) in
  let w' := (run_script default_config env_ok (world0 7)).2 in
  (run_script default_config env_ok (world0 7)).1 = 0 ∧
  rows w' "users" = (rows (world0 7) "users" + Z.to_nat 5000)%nat ∧
  rows w' "listings" = (rows (world0 7) "listings" + Z.to_nat 8000)%nat ∧
  rows w' "leads" = (rows (world0 7) "leads" + Z.to_nat 15000)%nat ∧
  rows w' "transactions" = (rows (world0 7) "transactions" + Z.to_nat 2000)%nat.
Proof.
  split; [exact default_config_valid|]. split; [exact env_ok_clock_monotone|].
  split; [exact env_ok_csv_ok|]. split; [reflexivity|].
  exact (successful_run_grows_tables_by_counts default_config env_ok (world0 7)
           default_config_valid env_ok_clock_monotone env_ok_csv_ok eq_refl).
Defined.

Lemma rerun_appends_second_copy_witness :
  valid_config small_config ∧ clock_monotone env_ok ∧
  (∀ p, p ∈ csv_paths → csv_failure env_ok p = None) ∧
  store_error env_ok = None ∧
  let ids (w : World) (tb : string) := id_column (default [] (w_store w !! tb)) in
  let w2 := (run_script small_config env_ok
               (run_script small_config env_ok (world0 7)).2).2 in
  ids w2 "users" = ids (world0 7) "users" ++ seqZ 1 2 ++ seqZ 1 2 ∧
  ids w2 "listings" = ids (world0 7) "listings" ++ seqZ 1 2 ++ seqZ 1 2 ∧
  ids w2 "leads" = ids (world0 7) "leads" ++ seqZ 1 3 ++ seqZ 1 3 ∧
  ids w2 "transactions" = ids (world0 7) "transactions" ++ seqZ 1 2 ++ seqZ 1 2 ∧
  ¬ NoDup (ids w2 "users").
Proof.
  assert (Hcfg : valid_config small_config) by (split; simpl; lia).
  split; [exact Hcfg|]. split; [exact env_ok_clock_monotone|].
  split; [exact env_ok_csv_ok|]. split; [reflexivity|].
  exact (rerun_appends_second_copy small_config env_ok env_ok (world0 7)
           Hcfg env_ok_clock_monotone env_ok_clock_monotone
           env_ok_csv_ok eq_refl env_ok_csv_ok eq_refl).
Defined.

Lemma run_is_function_of_faker_state_witness :
  w_faker (world0 7) = w_faker (world_in_use 7) ∧
  w_files (world0 7) = w_files (world_in_use 7) ∧
  w_store (world0 7) = w_store (world_in_use 7) ∧
  (run_script default_config env_ok (world0 7)).1
    = (run_script default_config env_ok (world_in_use 7)).1 ∧
  w_files (run_script default_config env_ok (world0 7)).2
    = w_files (run_script default_config env_ok (world_in_use 7)).2 ∧
  w_store (run_script default_config env_ok (world0 7)).2
    = w_store (run_script default_config env_ok (world_in_use 7)).2.
Proof.
  split; [reflexivity|]. split; [reflexivity|]. split; [reflexivity|].
  exact (run_is_function_of_faker_state default_config env_ok (world0 7)
           (world_in_use 7) eq_refl eq_refl eq_refl).
Defined.

Lemma no_users_run_fails_before_export_witness :
  NUM_USERS no_users_config = 0 ∧ 1 ≤ NUM_LISTINGS no_users_config ∧
  (∀ s, randint 1 0 s = None) ∧
  (run_script no_users_config env_ok (world0 7)).1 = 1 ∧
  w_files (run_script no_users_config env_ok (world0 7)).2 = w_files (world0 7) ∧
  w_store (run_script no_users_config env_ok (world0 7)).2 = w_store (world0 7) ∧
  ∃ l, w_log (run_script no_users_config env_ok (world0 7)).2
         = w_log (world0 7) ++ l ∧
       csv_writes l = [] ∧ sql_attempts l = [].
Proof.
  split; [reflexivity|]. split; [simpl; lia|]. split; [intros s; reflexivity|].
  exact (no_users_run_fails_before_export no_users_config env_ok (world0 7)
           eq_refl ltac:(simpl; lia) (λ s, eq_refl)).
Defined.

Lemma summary_reports_configured_counts_witness :
  valid_config default_config ∧ clock_monotone env_ok ∧
  (∀ p, p ∈ csv_paths → csv_failure env_ok p = None) ∧
  store_error env_ok = None ∧
  ∃ l, w_log (run_script default_config env_ok (world0 7)).2
         = w_log (world0 7) ++ l ∧
    ["   Users:        5,000 records"; "   Listings:     8,000 records";
     "   Leads:        15,000 records"; "   Transactions: 2,000 records"]
      ⊆ printed l.
Proof.
  split; [exact default_config_valid|]. split; [exact env_ok_clock_monotone|].
  split; [exact env_ok_csv_ok|]. split; [reflexivity|].
  exact (summary_reports_configured_counts default_config env_ok (world0 7)
           default_config_valid env_ok_clock_monotone env_ok_csv_ok eq_refl).
Defined.
